(** * Multi-user AI chat: presence, message store, access policy, AI trigger

    A shallow embedding of the chat backend (backend/main.py,
    backend/chat_manager.py, backend/ai_service.py, shared/models.py,
    shared/config.py) together with the properties of its specification.

    Conventions of the embedding.
    - Python [str] values are Rocq strings of ASCII characters; the character
      classes of [str.lower], [str.strip] and of the regular expressions
      ([\s], [\w]) are their restrictions to code points below 128, and a
      character above 127 is treated as a caseless symbol.
    - Python dicts are [gmap]s, Python sets are [gset]s; a set is iterated in
      the order of [elements].
    - The wall clock, [uuid4] and the outcome of network calls are inputs of
      the functions that consult them.
    - A coroutine runs to its end before the next one starts: the
      interleavings that [await] allows are not modelled.
    - Redis answers every command; the [except] branches that only log a
      failure of Redis are left out. *)

From Stdlib Require Import ZArith Ascii String List Bool Lia Sorted OrderedTypeEx.
From stdpp Require Import base option list gmap sets strings sorting.

Local Open Scope string_scope.
Local Open Scope Z_scope.
Local Open Scope list_scope.
Import ListNotations.

(** ** Part I. The program *)

(** *** shared/config.py *)

Module Config.
Definition MAX_CHAT_HISTORY : Z := 100.
Definition DEFAULT_ROOM_ID : string := "general".
Definition DEFAULT_ROOM_NAME : string := "General Chat".
End Config.

Definition AI_TRIGGERS : list string :=
  ["@ai"; "@assistant"; "@bot"; "@styx"; "hey ai"; "hey styx"; "ai help"; "ai:"].

(** *** shared/models.py *)

Inductive MessageType := USER | AI | SYSTEM.

(** [datetime] with the fields Python keeps. *)
Record datetime := {
  year : Z; month : Z; day : Z;
  hour : Z; minute : Z; second : Z; microsecond : Z
}.

Module ChatMessage.
Record t := {
  message_id : string;
  chat_room_id : string;
  sender_id : string;
  sender_name : string;
  content : string;
  message_type : MessageType;
  timestamp : datetime;
  metadata : list (string * string)
}.
End ChatMessage.

Module ChatRoom.
Record t := {
  room_id : string;
  room_name : string;
  created_at : datetime;
  ai_system_prompt : option string;
  ai_model : option string;
  created_by : option string;
  is_private : bool;
  assigned_users : list string
}.
End ChatRoom.

Module ConnectionInfo.
Record t := {
  user_id : string;
  username : string;
  room_id : string;
  websocket_id : string
}.
End ConnectionInfo.

(** *** backend/chat_manager.py: room access *)

(** [user_id in room.assigned_users] *)
Definition py_in (x : string) (l : list string) : bool :=
  existsb (String.eqb x) l.

(** [ChatManager.can_user_access_room], chat_manager.py:391-411. *)
Definition can_user_access_room
    (room : ChatRoom.t) (user_id user_role : string) (is_kid : bool) : bool :=
  if String.eqb user_role "admin" then true
  else if is_kid then
    if String.eqb (ChatRoom.room_id room) "general" then true
    else py_in user_id (ChatRoom.assigned_users room)
  else if negb (ChatRoom.is_private room) then true
  else py_in user_id (ChatRoom.assigned_users room).

(** *** Text primitives of Python, on ASCII *)

Definition chr (n : N) : ascii := ascii_of_N n.
Definition ord (c : ascii) : N := N_of_ascii c.

Definition between (lo hi : N) (c : ascii) : bool :=
  (N.leb lo (ord c) && N.leb (ord c) hi)%bool.

(** [str.isspace] / [\s]: TAB..CR, FS..US and the space. *)
Definition is_space (c : ascii) : bool := between 9 13 c || between 28 32 c.

(** [\w]: letters, digits and the underscore. *)
Definition is_word (c : ascii) : bool :=
  between 97 122 c || between 65 90 c || between 48 57 c || N.eqb (ord c) 95.

Definition lower_char (c : ascii) : ascii :=
  if between 65 90 c then chr (ord c + 32) else c.

Definition chars (s : string) : list ascii := list_ascii_of_string s.

(** [str.lower] *)
Definition py_lower (s : string) : list ascii := map lower_char (chars s).

(** *** backend/main.py: should_trigger_ai_response *)

(** The class [[,.!?;:]] of the lookahead. *)
Definition is_trigger_punct (c : ascii) : bool :=
  existsb (Ascii.eqb c) (chars ",.!?;:").

(** [(?=\s|[,.!?;:]|$)]: [$] holds at the end of the string and before a
    final line feed. *)
Definition lookahead (rest : list ascii) : bool :=
  match rest with
  | [] => true
  | c :: rest' =>
      is_space c || is_trigger_punct c
      || (N.eqb (ord c) 10 && match rest' with [] => true | _ => false end)
  end.

(** [re.escape(trigger_lower)]: the trigger taken literally. *)
Fixpoint match_literal (lit s : list ascii) : option (list ascii) :=
  match lit with
  | [] => Some s
  | a :: lit' =>
      match s with
      | b :: s' => if Ascii.eqb a b then match_literal lit' s' else None
      | [] => None
      end
  end.

Definition literal_then_lookahead (lit s : list ascii) : bool :=
  match match_literal lit s with
  | Some rest => lookahead rest
  | None => false
  end.

(** [(^|\s)] + literal + lookahead, tried at one position; [prev] is the
    character before the position, [None] at the start of the string. *)
Definition mention_match_at (lit : list ascii) (prev : option ascii)
    (s : list ascii) : bool :=
  match prev with None => literal_then_lookahead lit s | Some _ => false end
  || match s with
     | c :: s' => is_space c && literal_then_lookahead lit s'
     | [] => false
     end.

(** [\b]: exactly one of the two neighbours is a word character. *)
Definition is_word_opt (o : option ascii) : bool :=
  match o with Some c => is_word c | None => false end.

Definition word_boundary (prev : option ascii) (s : list ascii) : bool :=
  xorb (is_word_opt prev) (is_word_opt (head s)).

(** [\b] + literal + lookahead, tried at one position. *)
Definition phrase_match_at (lit : list ascii) (prev : option ascii)
    (s : list ascii) : bool :=
  word_boundary prev s && literal_then_lookahead lit s.

(** [re.search]: the pattern is tried at every position, the end included. *)
Fixpoint re_search (match_at : option ascii -> list ascii -> bool)
    (prev : option ascii) (s : list ascii) : bool :=
  match_at prev s
  || match s with
     | [] => false
     | c :: s' => re_search match_at (Some c) s'
     end.

Definition startswith_at (s : list ascii) : bool :=
  match s with c :: _ => N.eqb (ord c) 64 | [] => false end.

(** One turn of the loop over [AI_TRIGGERS]. *)
Definition trigger_matches (content_lower : list ascii) (trigger : string) : bool :=
  let trigger_lower := py_lower trigger in
  if startswith_at trigger_lower
  then re_search (mention_match_at trigger_lower) None content_lower
  else re_search (phrase_match_at trigger_lower) None content_lower.

(** [should_trigger_ai_response], main.py:343-366. *)
Definition should_trigger_ai_response (content : string) : bool :=
  existsb (trigger_matches (py_lower content)) AI_TRIGGERS.

(** *** datetime and json, as far as the message store uses them *)

Definition dquote : ascii := chr 34.
Definition backslash : ascii := chr 92.

Definition str1 (c : ascii) : string := String c EmptyString.

Fixpoint zero_padded (width : nat) (n : Z) : string :=
  match width with
  | O => EmptyString
  | S width' =>
      zero_padded width' (n / 10) +:+ str1 (chr (Z.to_N (48 + n mod 10)))
  end.

(** [datetime.isoformat()]: the fraction is printed unless it is zero. *)
Definition isoformat (t : datetime) : string :=
  zero_padded 4 (year t) +:+ "-" +:+ zero_padded 2 (month t) +:+ "-" +:+
  zero_padded 2 (day t) +:+ "T" +:+ zero_padded 2 (hour t) +:+ ":" +:+
  zero_padded 2 (minute t) +:+ ":" +:+ zero_padded 2 (second t) +:+
  (if microsecond t =? 0 then EmptyString
   else "." +:+ zero_padded 6 (microsecond t)).

(** Days between 1970-01-01 and a date of the proleptic Gregorian calendar. *)
Definition days_from_civil (y m d : Z) : Z :=
  let y := if m <=? 2 then y - 1 else y in
  let era := y / 400 in
  let yoe := y - era * 400 in
  let doy := (153 * ((m + 9) mod 12) + 2) / 5 + d - 1 in
  let doe := yoe * 365 + yoe / 4 - yoe / 100 + doy in
  era * 146097 + doe - 719468.

(** [datetime.timestamp()] for a clock on UTC.  Python returns seconds as a
    float; the model keeps the whole number of microseconds, which orders
    datetimes the same way. *)
Definition timestamp_micros (t : datetime) : Z :=
  (((days_from_civil (year t) (month t) (day t) * 24 + hour t) * 60
    + minute t) * 60 + second t) * 1000000 + microsecond t.

Definition hex_digit (n : N) : ascii :=
  if N.ltb n 10 then chr (48 + n) else chr (87 + n).

(** One character of a JSON string under [ensure_ascii]. *)
Definition json_escape_char (c : ascii) : string :=
  let n := ord c in
  if N.eqb n 34 then String backslash (str1 dquote)
  else if N.eqb n 92 then String backslash (str1 backslash)
  else if N.eqb n 10 then String backslash "n"
  else if N.eqb n 13 then String backslash "r"
  else if N.eqb n 9 then String backslash "t"
  else if N.eqb n 8 then String backslash "b"
  else if N.eqb n 12 then String backslash "f"
  else if between 32 126 c then str1 c
  else String backslash
         ("u00" +:+ String (hex_digit (n / 16)) (str1 (hex_digit (n mod 16)))).

Fixpoint json_escape (s : string) : string :=
  match s with
  | EmptyString => EmptyString
  | String c s' => json_escape_char c +:+ json_escape s'
  end.

Definition json_string (s : string) : string :=
  str1 dquote +:+ json_escape s +:+ str1 dquote.

(** [json.dumps] of a dict whose values are already encoded. *)
Fixpoint json_items (fields : list (string * string)) : string :=
  match fields with
  | [] => EmptyString
  | [(k, v)] => json_string k +:+ ": " +:+ v
  | (k, v) :: rest => json_string k +:+ ": " +:+ v +:+ ", " +:+ json_items rest
  end.

Definition json_object (fields : list (string * string)) : string :=
  "{" +:+ json_items fields +:+ "}".

Definition MessageType_value (ty : MessageType) : string :=
  match ty with USER => "user" | AI => "ai" | SYSTEM => "system" end.

(** [json.dumps(message_data)] of [store_message] and [delete_message]. *)
Definition message_json (m : ChatMessage.t) : string :=
  json_object
    [("message_id", json_string (ChatMessage.message_id m));
     ("chat_room_id", json_string (ChatMessage.chat_room_id m));
     ("sender_id", json_string (ChatMessage.sender_id m));
     ("sender_name", json_string (ChatMessage.sender_name m));
     ("content", json_string (ChatMessage.content m));
     ("message_type", json_string (MessageType_value (ChatMessage.message_type m)));
     ("timestamp", json_string (isoformat (ChatMessage.timestamp m)));
     ("metadata",
      json_string
        (json_object
           (map (fun kv => (fst kv, json_string (snd kv)))
                (ChatMessage.metadata m))))].

(** *** Redis, as far as the message store uses it *)

(** A sorted set: entries in ascending order of score, entries of equal
    score in ascending byte order of the member.  A member is the JSON text
    of a message; the entry keeps the message it decodes to. *)
Definition zentry := (Z * ChatMessage.t)%type.

Definition zentry_ltb (a b : zentry) : bool :=
  (fst a <? fst b)
  || ((fst a =? fst b) && String.ltb (message_json (snd a)) (message_json (snd b))).

Definition same_member (m : ChatMessage.t) (e : zentry) : bool :=
  String.eqb (message_json m) (message_json (snd e)).

Fixpoint zinsert (e : zentry) (zs : list zentry) : list zentry :=
  match zs with
  | [] => [e]
  | x :: zs' => if zentry_ltb x e then x :: zinsert e zs' else e :: zs
  end.

(** ZADD: a member already present is moved to its new score. *)
Definition zadd (zs : list zentry) (m : ChatMessage.t) (score : Z) : list zentry :=
  zinsert (score, m) (filter (fun e => same_member m e = false) zs).

(** Redis' reading of a rank range: negative ranks count from the end. *)
Definition rank_range (llen start stop : Z) : option (Z * Z) :=
  let start := if start <? 0 then llen + start else start in
  let stop := if stop <? 0 then llen + stop else stop in
  let start := if start <? 0 then 0 else start in
  if (stop <? start) || (llen <=? start) then None
  else Some (start, if llen <=? stop then llen - 1 else stop).

Definition zremrangebyrank (zs : list zentry) (start stop : Z) : list zentry :=
  match rank_range (Z.of_nat (length zs)) start stop with
  | Some (a, b) => take (Z.to_nat a) zs ++ drop (Z.to_nat (b + 1)) zs
  | None => zs
  end.

Definition zrevrange (zs : list zentry) (start stop : Z) : list zentry :=
  match rank_range (Z.of_nat (length zs)) start stop with
  | Some (a, b) => take (Z.to_nat (b - a + 1)) (drop (Z.to_nat a) (rev zs))
  | None => []
  end.

(** The sorted sets [chat:messages:{room_id}] and the hashes
    [chat:message:{message_id}] and [chat:room:{room_id}], each family keyed
    by its id (message ids are uuids, so the families do not collide). *)
Record Redis := {
  chat_messages : gmap string (list zentry);
  chat_message : gmap string ChatMessage.t;
  chat_room : gmap string ChatRoom.t
}.

Definition empty_redis : Redis :=
  {| chat_messages := ∅; chat_message := ∅; chat_room := ∅ |}.

Definition room_zset (r : Redis) (room_id : string) : list zentry :=
  default [] (chat_messages r !! room_id).

(** *** backend/chat_manager.py: the message store *)

(** [ChatManager.store_message], chat_manager.py:165-198;
    [max_chat_history] is [Config.MAX_CHAT_HISTORY], 100 unless the
    environment says otherwise.  The expiry of the message key after seven
    days is not modelled. *)
Definition store_message (max_chat_history : Z) (message : ChatMessage.t)
    (r : Redis) : bool * Redis :=
  let room_id := ChatMessage.chat_room_id message in
  let timestamp_score := timestamp_micros (ChatMessage.timestamp message) in
  let added := zadd (room_zset r room_id) message timestamp_score in
  let trimmed := zremrangebyrank added 0 (- (max_chat_history + 1)) in
  (true,
   {| chat_messages := <[room_id := trimmed]> (chat_messages r);
      chat_message := <[ChatMessage.message_id message := message]> (chat_message r);
      chat_room := chat_room r |}).

(** [ChatManager.get_recent_messages], chat_manager.py:200-233: the entries
    written by [store_message] decode to the messages they were made from, so
    none is skipped as malformed. *)
Definition get_recent_messages (r : Redis) (room_id : string) (limit : Z)
  : list ChatMessage.t :=
  rev (map snd (zrevrange (room_zset r room_id) 0 (limit - 1))).

(** [ChatManager.get_message], chat_manager.py:235-257. *)
Definition get_message (r : Redis) (message_id : string) : option ChatMessage.t :=
  chat_message r !! message_id.

(** [ChatManager.get_room], chat_manager.py:61-83. *)
Definition get_room (r : Redis) (room_id : string) : option ChatRoom.t :=
  chat_room r !! room_id.

(** The methods [class ChatManager] defines; its one instance attribute is
    [redis]. *)
Definition ChatManager_methods : list string :=
  ["__init__"; "create_room"; "get_room"; "update_room"; "delete_room";
   "store_message"; "get_recent_messages"; "get_message"; "delete_message";
   "get_active_users"; "add_user_to_room"; "remove_user_from_room";
   "cleanup_expired_data"; "get_room_stats"; "can_user_access_room";
   "get_accessible_rooms"; "assign_user_to_room"; "unassign_user_from_room"].

(** Does [chat_manager.<name>] resolve?  Otherwise it raises
    [AttributeError]. *)
Definition ChatManager_hasattr (name : string) : bool :=
  py_in name ("redis" :: ChatManager_methods).

(** Messages stored one after the other. *)
Definition store_all (max_chat_history : Z) (messages : list ChatMessage.t)
    (r : Redis) : Redis :=
  fold_left (fun r m => snd (store_message max_chat_history m r)) messages r.

(** *** backend/chat_manager.py: deleting, cleaning up, rooms *)

(** ZREM *)
Definition zrem (zs : list zentry) (m : ChatMessage.t) : list zentry :=
  filter (fun e => same_member m e = false) zs.

(** A sorted set written back under its key: Redis keeps no empty sorted
    set. *)
Definition set_zset (room_id : string) (zs : list zentry)
    (sets : gmap string (list zentry)) : gmap string (list zentry) :=
  match zs with
  | [] => delete room_id sets
  | _ => <[room_id := zs]> sets
  end.

(** [ChatManager.delete_message], chat_manager.py:259-290. *)
Definition delete_message (message_id room_id : string) (r : Redis) : bool * Redis :=
  match get_message r message_id with
  | None => (false, r)
  | Some message =>
      (true,
       {| chat_messages :=
            set_zset room_id (zrem (room_zset r room_id) message) (chat_messages r);
          chat_message := delete message_id (chat_message r);
          chat_room := chat_room r |})
  end.

(** [ChatManager.delete_room], chat_manager.py:136-163; the set
    [chat:room_users:{room_id}] is not part of the model. *)
Definition delete_room (room_id : string) (r : Redis) : bool * Redis :=
  (true,
   {| chat_messages := delete room_id (chat_messages r);
      chat_message :=
        filter (fun kv => ChatMessage.chat_room_id (snd kv) <> room_id)
               (chat_message r);
      chat_room := delete room_id (chat_room r) |}).

(** ZREMRANGEBYSCORE: the entries scored from [min] to [max] go. *)
Definition zremrangebyscore (zs : list zentry) (min max : Z) : list zentry :=
  filter (fun e => ((min <=? fst e) && (fst e <=? max)) = false) zs.

(** [ChatManager.cleanup_expired_data], chat_manager.py:339-358; [now] is
    [datetime.now()].  A sorted set that loses its last entry loses its
    key. *)
Definition cleanup_expired_data (now : datetime) (r : Redis) : Redis :=
  let cutoff_timestamp := timestamp_micros now - 7 * 86400 * 1000000 in
  {| chat_messages :=
       omap (fun zs =>
               match zremrangebyscore zs 0 cutoff_timestamp with
               | [] => None
               | kept => Some kept
               end)
            (chat_messages r);
     chat_message := chat_message r;
     chat_room := chat_room r |}.

(** [x or None]: the empty string counts as absent. *)
Definition or_none (o : option string) : option string :=
  match o with
  | Some s => if String.eqb s "" then None else Some s
  | None => None
  end.

(** The room that [get_room] decodes from the hash written for [room]: an
    optional field is written as [x or ""] and read back as [... or None];
    the other fields of the record are read back as they were written. *)
Definition as_stored (room : ChatRoom.t) : ChatRoom.t :=
  {| ChatRoom.room_id := ChatRoom.room_id room;
     ChatRoom.room_name := ChatRoom.room_name room;
     ChatRoom.created_at := ChatRoom.created_at room;
     ChatRoom.ai_system_prompt := or_none (ChatRoom.ai_system_prompt room);
     ChatRoom.ai_model := or_none (ChatRoom.ai_model room);
     ChatRoom.created_by := or_none (ChatRoom.created_by room);
     ChatRoom.is_private := ChatRoom.is_private room;
     ChatRoom.assigned_users := ChatRoom.assigned_users room |}.

(** [redis.hset(f"chat:room:{room_id}", mapping=...)] *)
Definition hset_room (room_id : string) (room : ChatRoom.t) (r : Redis) : Redis :=
  {| chat_messages := chat_messages r;
     chat_message := chat_message r;
     chat_room := <[room_id := as_stored room]> (chat_room r) |}.

(** [ChatManager.create_room], chat_manager.py:21-59, on the fields of the
    room that the record of the model keeps; [now] is [datetime.now()]. *)
Definition create_room (now : datetime) (room_id room_name : string)
    (ai_system_prompt ai_model created_by : option string) (is_private : bool)
    (assigned_users : option (list string)) (r : Redis) : ChatRoom.t * Redis :=
  let assigned_users := default [] assigned_users in
  let chat_room :=
    {| ChatRoom.room_id := room_id;
       ChatRoom.room_name := room_name;
       ChatRoom.created_at := now;
       ChatRoom.ai_system_prompt := ai_system_prompt;
       ChatRoom.ai_model := ai_model;
       ChatRoom.created_by := created_by;
       ChatRoom.is_private := is_private;
       ChatRoom.assigned_users := assigned_users |} in
  (chat_room, hset_room room_id chat_room r).

(** [ChatManager.update_room], chat_manager.py:85-134, on the same fields:
    a field is replaced when its argument is not [None]. *)
Definition update_room (room_id : string)
    (room_name ai_system_prompt ai_model : option string)
    (is_private : option bool) (assigned_users : option (list string))
    (r : Redis) : option ChatRoom.t * Redis :=
  match get_room r room_id with
  | None => (None, r)
  | Some room =>
      let room :=
        {| ChatRoom.room_id := ChatRoom.room_id room;
           ChatRoom.room_name := default (ChatRoom.room_name room) room_name;
           ChatRoom.created_at := ChatRoom.created_at room;
           ChatRoom.ai_system_prompt :=
             match ai_system_prompt with
             | Some p => Some p
             | None => ChatRoom.ai_system_prompt room
             end;
           ChatRoom.ai_model :=
             match ai_model with
             | Some p => Some p
             | None => ChatRoom.ai_model room
             end;
           ChatRoom.created_by := ChatRoom.created_by room;
           ChatRoom.is_private := default (ChatRoom.is_private room) is_private;
           ChatRoom.assigned_users :=
             default (ChatRoom.assigned_users room) assigned_users |} in
      (Some room, hset_room room_id room r)
  end.

(** [ChatManager.assign_user_to_room], chat_manager.py:438-453. *)
Definition assign_user_to_room (room_id user_id : string) (r : Redis)
  : bool * Redis :=
  match get_room r room_id with
  | None => (false, r)
  | Some room =>
      if negb (py_in user_id (ChatRoom.assigned_users room)) then
        (true,
         snd (update_room room_id None None None None
                (Some (ChatRoom.assigned_users room ++ [user_id])) r))
      else (true, r)
  end.

(** [list.remove(x)]: the first occurrence goes. *)
Fixpoint list_remove (x : string) (l : list string) : list string :=
  match l with
  | [] => []
  | y :: l' => if String.eqb y x then l' else y :: list_remove x l'
  end.

(** [ChatManager.unassign_user_from_room], chat_manager.py:455-470. *)
Definition unassign_user_from_room (room_id user_id : string) (r : Redis)
  : bool * Redis :=
  match get_room r room_id with
  | None => (false, r)
  | Some room =>
      if py_in user_id (ChatRoom.assigned_users room) then
        (true,
         snd (update_room room_id None None None None
                (Some (list_remove user_id (ChatRoom.assigned_users room))) r))
      else (true, r)
  end.

(** [":" in s] *)
Definition has_colon (s : string) : bool :=
  existsb (Ascii.eqb ":"%char) (chars s).

(** [key.split(":")[-1]]: what follows the last colon, the whole key when it
    has none. *)
Fixpoint last_segment (s : string) : string :=
  match s with
  | EmptyString => EmptyString
  | String c s' =>
      if has_colon s' then last_segment s'
      else if Ascii.eqb c ":"%char then s' else s
  end.

(** [redis.keys("chat:room:*")], in the order of the model's map. *)
Definition room_keys (r : Redis) : list string :=
  map (fun kv => "chat:room:" +:+ fst kv) (map_to_list (chat_room r)).

(** The order of Python's tuples of integers. *)
Fixpoint lex_ltb (a b : list Z) : bool :=
  match a, b with
  | x :: a', y :: b' => (x <? y) || ((x =? y) && lex_ltb a' b')
  | [], _ :: _ => true
  | _, [] => false
  end.

(** [datetime.__lt__] on naive datetimes. *)
Definition datetime_ltb (a b : datetime) : bool :=
  lex_ltb [year a; month a; day a; hour a; minute a; second a; microsecond a]
          [year b; month b; day b; hour b; minute b; second b; microsecond b].

(** [list.sort(key=..., reverse=True)]: stable, the greatest key first. *)
Fixpoint insert_by_key_reverse {A} (key : A -> datetime) (x : A) (l : list A)
  : list A :=
  match l with
  | [] => [x]
  | y :: l' =>
      if datetime_ltb (key x) (key y) then y :: insert_by_key_reverse key x l'
      else x :: l
  end.

Definition sort_by_key_reverse {A} (key : A -> datetime) (l : list A) : list A :=
  foldr (insert_by_key_reverse key) [] l.

(** [ChatManager.get_accessible_rooms], chat_manager.py:413-436. *)
Definition get_accessible_rooms (r : Redis) (user_id user_role : string)
    (is_kid : bool) : list ChatRoom.t :=
  let accessible_rooms :=
    flat_map
      (fun room_key =>
         match get_room r (last_segment room_key) with
         | Some room =>
             if can_user_access_room room user_id user_role is_kid
             then [room] else []
         | None => []
         end)
      (room_keys r) in
  sort_by_key_reverse ChatRoom.created_at accessible_rooms.

(** *** backend/main.py: ConnectionManager *)

(** [list.sort(key=...)]: a stable sort, here by insertion. *)
Fixpoint insert_by_key {A} (key : A -> string) (x : A) (l : list A) : list A :=
  match l with
  | [] => [x]
  | y :: l' =>
      if String.leb (key x) (key y) then x :: l else y :: insert_by_key key x l'
  end.

Definition sort_by_key {A} (key : A -> string) (l : list A) : list A :=
  foldr (insert_by_key key) [] l.

Definition lower_str (s : string) : string := string_of_list_ascii (py_lower s).

(** A WebSocket is a handle; what a [send_text] on it does is decided by the
    wire (see [World]). *)
Definition WebSocket := nat.

(** The frames sent to clients, one constructor per [WSEventTypes] value used
    in a [type] field; the wall-clock [timestamp] fields are left out. *)
Inductive frame :=
| USER_JOINED (user_id username : string)
| USER_LEFT (user_id username : string)
| USER_LIST_UPDATED (active_users : list (string * string))
| CONNECTION_ESTABLISHED (user_id room_id : string)
                         (active_users : list (string * string))
| MESSAGE_HISTORY (m : ChatMessage.t)
| MESSAGE_RECEIVED (m : ChatMessage.t)
| AI_TYPING (typing : bool)
| USER_TYPING (user_id username : string) (typing : bool)
| ERROR (error : string).

(** What an operation of the manager does to the outside, in order. *)
Inductive event :=
| Broadcast (room_id : string) (f : frame)   (* broadcast_to_room was called *)
| Sent (user_id : string) (f : frame)        (* send_text returned *)
| SendFailed (user_id : string) (f : frame). (* send_text raised *)

Record ConnectionManager := {
  connections : gmap string WebSocket;
  user_info : gmap string ConnectionInfo.t;
  room_members : gmap string (gset string)
}.

(** The manager together with the wire: the outcomes of the coming
    [send_text] calls in order, [false] for a call that raises; once the
    list is used up every call returns. *)
Record World := {
  manager : ConnectionManager;
  wire : list bool
}.

Definition with_manager (f : ConnectionManager -> ConnectionManager) (w : World)
  : World := {| manager := f (manager w); wire := wire w |}.

Definition with_wire (l : list bool) (w : World) : World :=
  {| manager := manager w; wire := l |}.

(** An operation transforms the world and produces events; [None] stands for
    an exhausted recursion budget. *)
Definition action := World -> option (World * list event).

Definition skip : action := fun w => Some (w, []).

Definition emit (e : event) : action := fun w => Some (w, [e]).

Definition modify (f : ConnectionManager -> ConnectionManager) : action :=
  fun w => Some (with_manager f w, []).

Definition and_then (a b : action) : action := fun w =>
  match a w with
  | Some (w1, t1) =>
      match b w1 with
      | Some (w2, t2) => Some (w2, t1 ++ t2)
      | None => None
      end
  | None => None
  end.

Notation "a ;;; b" := (and_then a b) (at level 100, right associativity).

Definition for_each {A} (l : list A) (body : A -> action) : action :=
  foldr (fun x k => body x ;;; k) skip l.

Definition styx_data : string * string := ("ai_styx", "Styx").

(** [ConnectionManager.get_active_users_info], main.py:51-79. *)
Definition get_active_users_info (cm : ConnectionManager) (room_id : string)
  : list (string * string) :=
  let styx :=
    match room_members cm !! room_id with
    | Some members => if decide (members = ∅) then [] else [styx_data]
    | None => []
    end in
  let human_users :=
    match room_members cm !! room_id with
    | Some members =>
        sort_by_key (fun x => lower_str (snd x))
          (omap (fun uid =>
                   match user_info cm !! uid with
                   | Some info => Some (uid, ConnectionInfo.username info)
                   | None => None
                   end)
                (elements members))
    | None => []
    end in
  styx ++ human_users.

(** [exclude_user and user_id == exclude_user] *)
Definition excluded (exclude_user : option string) (user_id : string) : bool :=
  match exclude_user with
  | Some e => negb (String.eqb e "") && String.eqb user_id e
  | None => false
  end.

Section SendAndBroadcast.
(** [send_to_user] and [broadcast_to_room] call [disconnect], which calls
    [broadcast_to_room]: they are written over the [disconnect] in force. *)
Variable disconnect_rec : string -> action.

(** [ConnectionManager.send_to_user], main.py:184-191. *)
Definition send_to_user_with (user_id : string) (message : frame) : action :=
  fun w =>
    match connections (manager w) !! user_id with
    | Some _ =>
        match wire w with
        | [] => Some (w, [Sent user_id message])
        | true :: rest => Some (with_wire rest w, [Sent user_id message])
        | false :: rest =>
            (emit (SendFailed user_id message) ;;; disconnect_rec user_id)
              (with_wire rest w)
        end
    | None => Some (w, [])
    end.

(** [ConnectionManager.broadcast_to_room], main.py:193-199: the loop runs
    over a copy of the membership set. *)
Definition broadcast_to_room_with (room_id : string) (message : frame)
    (exclude_user : option string) : action :=
  emit (Broadcast room_id message) ;;;
  fun w =>
    match room_members (manager w) !! room_id with
    | Some members =>
        for_each (elements members)
          (fun user_id =>
             if excluded exclude_user user_id then skip
             else send_to_user_with user_id message) w
    | None => Some (w, [])
    end.
End SendAndBroadcast.

(** The three dictionary updates at the head of [connect]. *)
Definition register (websocket : WebSocket) (user_id username room_id ws_id : string)
    (cm : ConnectionManager) : ConnectionManager :=
  {| connections := <[user_id := websocket]> (connections cm);
     user_info :=
       <[user_id := {| ConnectionInfo.user_id := user_id;
                       ConnectionInfo.username := username;
                       ConnectionInfo.room_id := room_id;
                       ConnectionInfo.websocket_id := ws_id |}]> (user_info cm);
     room_members :=
       <[room_id := default ∅ (room_members cm !! room_id) ∪ {[user_id]}]>
         (room_members cm) |}.

(** The removals at the head of [disconnect]. *)
Definition unregister (user_id room_id : string) (cm : ConnectionManager)
  : ConnectionManager :=
  {| connections := delete user_id (connections cm);
     user_info := delete user_id (user_info cm);
     room_members :=
       match room_members cm !! room_id with
       | Some members =>
           let members' := members ∖ {[user_id]} in
           if decide (members' = ∅) then delete room_id (room_members cm)
           else <[room_id := members']> (room_members cm)
       | None => room_members cm
       end |}.

(** [ConnectionManager.disconnect], main.py:147-182, with a budget for the
    recursion through [send_to_user]. *)
Fixpoint disconnect_fuel (fuel : nat) (user_id : string) : action := fun w =>
  match user_info (manager w) !! user_id with
  | Some info =>
      match fuel with
      | O => None
      | S fuel' =>
          let room_id := ConnectionInfo.room_id info in
          let username := ConnectionInfo.username info in
          (modify (unregister user_id room_id) ;;;
           broadcast_to_room_with (disconnect_fuel fuel') room_id
             (USER_LEFT user_id username) None ;;;
           fun w' =>
             broadcast_to_room_with (disconnect_fuel fuel') room_id
               (USER_LIST_UPDATED (get_active_users_info (manager w') room_id))
               None w') w
      end
  | None => Some (w, [])
  end.

(** Every nested [disconnect] that does anything removes a user, so the
    number of registered users bounds the depth of the recursion. *)
Definition budget (w : World) : nat := size (user_info (manager w)).

Definition disconnect (user_id : string) : action := fun w =>
  disconnect_fuel (budget w) user_id w.

Definition send_to_user (user_id : string) (message : frame) : action := fun w =>
  send_to_user_with (disconnect_fuel (budget w)) user_id message w.

Definition broadcast_to_room (room_id : string) (message : frame)
    (exclude_user : option string) : action := fun w =>
  broadcast_to_room_with (disconnect_fuel (budget w)) room_id message
    exclude_user w.

(** [ConnectionManager.connect], main.py:81-145, after
    [websocket.accept()]; [ws_id] is the uuid drawn and
    [recent_messages] what [chat_manager.get_recent_messages(room_id, 50)]
    returned (nothing when it raised). *)
Definition connect (websocket : WebSocket)
    (user_id username room_id ws_id : string)
    (recent_messages : list ChatMessage.t) : action :=
  modify (register websocket user_id username room_id ws_id) ;;;
  broadcast_to_room room_id (USER_JOINED user_id username) (Some user_id) ;;;
  fun w =>
    let active_users := get_active_users_info (manager w) room_id in
    (send_to_user user_id (CONNECTION_ESTABLISHED user_id room_id active_users) ;;;
     for_each recent_messages
       (fun message => send_to_user user_id (MESSAGE_HISTORY message)) ;;;
     broadcast_to_room room_id (USER_LIST_UPDATED active_users) None) w.

Definition empty_manager : ConnectionManager :=
  {| connections := ∅; user_info := ∅; room_members := ∅ |}.

Definition quiet_world : World := {| manager := empty_manager; wire := [] |}.

(** *** backend/ai_service.py: generate_response *)

Fixpoint lstrip (s : list ascii) : list ascii :=
  match s with
  | c :: s' => if is_space c then lstrip s' else s
  | [] => []
  end.

(** [str.strip()] *)
Definition py_strip (s : string) : string :=
  string_of_list_ascii (rev (lstrip (rev (lstrip (chars s))))).

(** What [self.client.post] did: it raised [httpx.TimeoutException], it
    raised something else, or it returned a response, whose body holds
    [choices[0].message.content] or not. *)
Inductive post_result :=
| PostTimeout
| PostRaised
| PostResponse (status_code : Z) (content : option string).

(** [AIService.generate_response], ai_service.py:26-84, as a function of
    what the request to the model did. *)
Definition generate_response (res : post_result) : option string :=
  match res with
  | PostResponse status_code content =>
      if status_code =? 200 then
        match content with
        | Some text => Some (py_strip text)
        | None => Some "Sorry, I encountered an error while processing your message."
        end
      else Some "Sorry, I'm having trouble processing your request right now."
  | PostTimeout => Some "Sorry, I'm taking too long to respond. Please try again."
  | PostRaised => Some "Sorry, I encountered an error while processing your message."
  end.

(** *** backend/ai_service.py: the conversation sent to the model *)



(** *** backend/main.py: the chat handlers *)

(** What a handler asks of its collaborators, in order. *)
Inductive call :=
| BroadcastToRoom (room_id : string) (f : frame)
| SendToUser (user_id : string) (f : frame)
| StoreMessage (m : ChatMessage.t)
| GenerateResponse (user_message username : string)
                   (chat_history : list ChatMessage.t)
                   (room_prompt model_name : option string).

(** The awaited steps of [handle_ai_response]. *)
Inductive step :=
| TypingOn | GetRoom | GetRecent | Generate | Store | BroadcastReply | TypingOff.

(** What the collaborators answer during one inbound message, and which
    steps raise: a step marked faulty raises when it is reached, before it
    has any effect. *)
Record Collaborators := {
  room_record : option ChatRoom.t;          (* chat_manager.get_room(room_id) *)
  recent_messages : list ChatMessage.t;     (* get_recent_messages(room_id, 10) *)
  posted : post_result;                     (* the call of the AI model *)
  user_message_id : string;                 (* str(uuid.uuid4()) *)
  ai_message_id : string;                   (* str(uuid.uuid4()) *)
  now : datetime;                           (* datetime.now() *)
  faulty : step -> bool
}.

(** A handler run: the calls made, and the result unless an exception left
    the handler. *)
Definition run (A : Type) := (list call * option A)%type.

Definition ret {A} (a : A) : run A := ([], Some a).
Definition raise {A} : run A := ([], None).
Definition tell (c : call) : run unit := ([c], Some tt).

Definition bind {A B} (m : run A) (f : A -> run B) : run B :=
  match m with
  | (t, Some a) => let (t', b) := f a in (t ++ t', b)
  | (t, None) => (t, None)
  end.

(** [try: m except Exception: handler] *)
Definition try_except {A} (m : run A) (handler : run A) : run A :=
  match m with
  | (t, None) => let (t', a) := handler in (t ++ t', a)
  | done => done
  end.

Notation "x <- m ;; f" := (bind m (fun x => f))
  (at level 100, m at next level, right associativity, only parsing).
Notation "m >> f" := (bind m (fun _ => f))
  (at level 100, right associativity, only parsing).

Definition at_step {A} (c : Collaborators) (s : step) (m : run A) : run A :=
  if faulty c s then raise else m.

(** Python truthiness of an [Optional[str]]. *)
Definition truthy (o : option string) : bool :=
  match o with Some s => negb (String.eqb s "") | None => false end.

Definition ai_message (c : Collaborators) (room_id ai_response : string)
  : ChatMessage.t :=
  {| ChatMessage.message_id := ai_message_id c;
     ChatMessage.chat_room_id := room_id;
     ChatMessage.sender_id := "ai_styx";
     ChatMessage.sender_name := "Styx";
     ChatMessage.content := ai_response;
     ChatMessage.message_type := AI;
     ChatMessage.timestamp := now c;
     ChatMessage.metadata := [] |}.

(** The history handed to the model: without its last entry when that is the
    message being answered. *)
Definition trimmed_history (chat_history : list ChatMessage.t)
    (user_message username : string) : list ChatMessage.t :=
  match last chat_history with
  | Some m =>
      if String.eqb (ChatMessage.content m) user_message
         && String.eqb (ChatMessage.sender_name m) username
      then removelast chat_history else chat_history
  | None => chat_history
  end.

(** [handle_ai_response], main.py:429-487. *)
Definition handle_ai_response (c : Collaborators)
    (room_id user_message username : string) : run unit :=
  try_except
    (at_step c TypingOn (tell (BroadcastToRoom room_id (AI_TYPING true))) >>
     room <- at_step c GetRoom (ret (room_record c)) ;;
     let room_prompt :=
       match room with Some r => ChatRoom.ai_system_prompt r | None => None end in
     let room_model :=
       match room with Some r => ChatRoom.ai_model r | None => None end in
     chat_history <- at_step c GetRecent (ret (recent_messages c)) ;;
     let chat_history := trimmed_history chat_history user_message username in
     ai_response <-
       at_step c Generate
         (tell (GenerateResponse user_message username chat_history
                  room_prompt room_model) >>
          ret (generate_response (posted c))) ;;
     (if truthy ai_response then
        let message := ai_message c room_id (default "" ai_response) in
        at_step c Store (tell (StoreMessage message)) >>
        at_step c BroadcastReply
          (tell (BroadcastToRoom room_id (MESSAGE_RECEIVED message)))
      else ret tt) >>
     at_step c TypingOff (tell (BroadcastToRoom room_id (AI_TYPING false))))
    (tell (BroadcastToRoom room_id (AI_TYPING false))).

Definition user_chat_message (c : Collaborators)
    (user_id room_id username content : string) : ChatMessage.t :=
  {| ChatMessage.message_id := user_message_id c;
     ChatMessage.chat_room_id := room_id;
     ChatMessage.sender_id := user_id;
     ChatMessage.sender_name := username;
     ChatMessage.content := content;
     ChatMessage.message_type := USER;
     ChatMessage.timestamp := now c;
     ChatMessage.metadata := [] |}.

Definition system_message (c : Collaborators) (room_id content : string)
  : ChatMessage.t :=
  {| ChatMessage.message_id := user_message_id c;
     ChatMessage.chat_room_id := room_id;
     ChatMessage.sender_id := "system";
     ChatMessage.sender_name := "System";
     ChatMessage.content := content;
     ChatMessage.message_type := SYSTEM;
     ChatMessage.timestamp := now c;
     ChatMessage.metadata := [] |}.

(** [handle_chat_message], main.py:387-426, with [handle_help_command],
    main.py:490-533; [help_content] is the fixed help text and [cm] the
    connection manager, read for the sender's name. *)
Definition handle_chat_message (help_content : string) (c : Collaborators)
    (cm : ConnectionManager) (user_id room_id raw_content : string) : run unit :=
  let content := py_strip raw_content in
  if String.eqb content "" then ret tt
  else
    match user_info cm !! user_id with
    | None => ret tt
    | Some info =>
        let username := ConnectionInfo.username info in
        if String.eqb (lower_str content) "!help" then
          tell (SendToUser user_id
                  (MESSAGE_RECEIVED (system_message c room_id help_content)))
        else
          let chat_message := user_chat_message c user_id room_id username content in
          tell (StoreMessage chat_message) >>
          tell (BroadcastToRoom room_id (MESSAGE_RECEIVED chat_message)) >>
          if should_trigger_ai_response content
          then handle_ai_response c room_id content username
          else ret tt
    end.

(** *** backend/main.py: the typing indicator *)

(** [handle_user_typing], main.py:536-550; [typing] is
    [typing_data.get("typing")], absent or a boolean. *)
Definition handle_user_typing (user_id room_id : string) (typing : option bool)
  : action := fun w =>
  match user_info (manager w) !! user_id with
  | None => Some (w, [])
  | Some info =>
      broadcast_to_room room_id
        (USER_TYPING user_id (ConnectionInfo.username info) (default false typing))
        (Some user_id) w
  end.

(** *** backend/main.py: DELETE /rooms/{room_id}/messages *)

Inductive http_result :=
| Returned (message : string)
| HTTPException (status_code : Z) (detail : string).

(** An exception under way: an [HTTPException] or any other [Exception]. *)
Inductive raised :=
| RaisedHTTP (status_code : Z) (detail : string)
| RaisedOther (name : string).

(** The endpoint [clear_room_messages], main.py:863-892; [role] is the role of the
    authenticated user and [callee] what [chat_manager.clear_room_messages]
    would do if the attribute resolved. *)
Definition clear_room_messages
    (callee : string -> Redis -> (raised + bool) * Redis)
    (role room_id : string) (r : Redis) : http_result * Redis :=
  let attempt : (raised + string) * Redis :=
    if negb (String.eqb role "admin")
    then (inl (RaisedHTTP 403 "Only admin can clear room messages"), r)
    else
      match get_room r room_id with
      | None => (inl (RaisedHTTP 404 "Room not found"), r)
      | Some room =>
          if ChatManager_hasattr "clear_room_messages" then
            match callee room_id r with
            | (inl e, r') => (inl e, r')
            | (inr success, r') =>
                if success
                then (inr ("Messages cleared from room '"
                           +:+ ChatRoom.room_name room +:+ "' successfully"), r')
                else (inl (RaisedHTTP 500 "Failed to clear room messages"), r')
            end
          else (inl (RaisedOther "AttributeError"), r)
      end in
  match attempt with
  | (inr message, r') => (Returned message, r')
  | (inl (RaisedHTTP status_code detail), r') => (HTTPException status_code detail, r')
  | (inl (RaisedOther _), r') =>
      (HTTPException 500 "Failed to clear room messages", r')
  end.

(** *** backend/main.py: the room endpoints *)

(** The character [-]. *)
Definition is_dash (c : ascii) : bool := N.eqb (ord c) 45.

(** The class [[a-zA-Z0-9\-_]]. *)
Definition is_id_char (c : ascii) : bool :=
  between 97 122 c || between 65 90 c || between 48 57 c
  || is_dash c || N.eqb (ord c) 95.

(** [re.sub(r'[^a-zA-Z0-9\-_]', '-', s)] *)
Definition sub_unsafe (s : list ascii) : list ascii :=
  map (fun c => if is_id_char c then c else "-"%char) s.

(** [re.sub(r'-+', '-', s)]: a dash followed by a dash is dropped. *)
Fixpoint sub_dashes (s : list ascii) : list ascii :=
  match s with
  | [] => []
  | c :: s' =>
      if is_dash c && match s' with d :: _ => is_dash d | [] => false end
      then sub_dashes s'
      else c :: sub_dashes s'
  end.

(** [s.lstrip('-')] *)
Fixpoint lstrip_dashes (s : list ascii) : list ascii :=
  match s with
  | c :: s' => if is_dash c then lstrip_dashes s' else s
  | [] => []
  end.

(** [s.strip('-')] *)
Definition strip_dashes (s : list ascii) : list ascii :=
  rev (lstrip_dashes (rev (lstrip_dashes s))).

(** The room id that the endpoint [create_room] derives from a room name,
    main.py:673-676. *)
Definition room_id_of_name (room_name : string) : string :=
  string_of_list_ascii
    (strip_dashes (sub_dashes (sub_unsafe (py_lower room_name)))).

(** The decimal digits of a natural number, most significant first; [fuel]
    bounds their number. *)
Fixpoint digits (fuel : nat) (n : Z) : string :=
  match fuel with
  | O => EmptyString
  | S fuel' =>
      (if n <? 10 then EmptyString else digits fuel' (n / 10))
      +:+ str1 (chr (Z.to_N (48 + n mod 10)))
  end.

(** [str(n)] of an integer: a number has no more decimal digits than
    binary ones. *)
Definition str_int (n : Z) : string :=
  if n <? 0 then "-" +:+ digits (S (Z.to_nat (Z.log2 (- n)))) (- n)
  else digits (S (Z.to_nat (Z.log2 n))) n.

Module RoomData.
(** The entries of a request body that the model keeps; an entry is [None]
    when the body does not have it. *)
Record t := {
  room_name : option string;
  ai_system_prompt : option string;
  ai_model : option string;
  is_private : bool;
  assigned_users : list string
}.
End RoomData.

Module Endpoint.

(** What an endpoint answers with when its answer is a room. *)
Inductive result :=
| Room_returned (room : ChatRoom.t)
| Refused (status_code : Z) (detail : string).

(** The endpoint [create_room], main.py:643-716; [user_id], [role] and
    [is_kid] describe the authenticated user, [now] is the reading of the
    clock. *)
Definition create_room (now : datetime) (room_data : RoomData.t)
    (user_id role : string) (is_kid : bool) (r : Redis) : result * Redis :=
  let room_name := py_strip (default "" (RoomData.room_name room_data)) in
  let ai_system_prompt := py_strip (default "" (RoomData.ai_system_prompt room_data)) in
  let ai_model := py_strip (default "" (RoomData.ai_model room_data)) in
  let is_private := RoomData.is_private room_data in
  if String.eqb room_name ""
  then (Refused 400 "Room name is required", r)
  else if is_kid
  then (Refused 403 "Kid accounts cannot create rooms", r)
  else if is_private && negb (String.eqb role "admin")
  then (Refused 403 "Only admins can create private rooms", r)
  else
    let room_id := room_id_of_name room_name in
    let room_id :=
      match get_room r room_id with
      | Some _ =>
          room_id +:+ "-" +:+ str_int (Z.quot (timestamp_micros now) 1000000)
      | None => room_id
      end in
    let (room, r') :=
      create_room now room_id room_name
        (or_none (Some ai_system_prompt)) (or_none (Some ai_model))
        (Some user_id) is_private (Some (RoomData.assigned_users room_data)) r in
    (Room_returned room, r').

(** The endpoint [update_room], main.py:743-802, on the entries of the
    request body that the record of the model keeps. *)
Definition update_room (room_data : RoomData.t) (user_id role room_id : string)
    (r : Redis) : result * Redis :=
  match get_room r room_id with
  | None => (Refused 404 "Room not found", r)
  | Some room =>
      let user_is_admin := String.eqb role "admin" in
      let user_is_creator :=
        match ChatRoom.created_by room with
        | Some creator => String.eqb creator user_id
        | None => false
        end in
      if negb user_is_admin && negb user_is_creator
      then (Refused 403 "Only admin or room creator can update room settings", r)
      else
        let stripped_or_none (o : option string) :=
          match o with Some s => Some (py_strip s) | None => None end in
        match update_room room_id
                (stripped_or_none (RoomData.room_name room_data))
                (stripped_or_none (RoomData.ai_system_prompt room_data))
                (stripped_or_none (RoomData.ai_model room_data))
                None None r with
        | (Some updated_room, r') => (Room_returned updated_room, r')
        | (None, r') => (Refused 500 "Failed to update room", r')
        end
  end.

(** What a call of an endpoint that also acts on the connections leaves
    behind: the answer, the manager and the wire, the store, and the events
    on the way. *)
Record outcome := {
  answer : http_result;
  world : World;
  redis : Redis;
  events : list event
}.

(** The endpoint [delete_room], main.py:805-849; [role] is the role of the
    authenticated user.  [None] stands for an exhausted recursion budget of
    a [disconnect]. *)
Definition delete_room (role room_id : string) (w : World) (r : Redis)
  : option outcome :=
  let refuse status_code detail :=
    Some {| answer := HTTPException status_code detail;
            world := w; redis := r; events := [] |} in
  if negb (String.eqb role "admin")
  then refuse 403 "Only admin can delete rooms"
  else if String.eqb room_id Config.DEFAULT_ROOM_ID
  then refuse 400 "Cannot delete the default room"
  else
    match get_room r room_id with
    | None => refuse 404 "Room not found"
    | Some room =>
        let disconnect_all : action :=
          match room_members (manager w) !! room_id with
          | Some members => for_each (elements members) disconnect
          | None => skip
          end in
        match disconnect_all w with
        | None => None
        | Some (w', t) =>
            let (success, r') := delete_room room_id r in
            Some {| answer :=
                      if success
                      then Returned ("Room '" +:+ ChatRoom.room_name room
                                     +:+ "' deleted successfully")
                      else HTTPException 500 "Failed to delete room";
                    world := w'; redis := r'; events := t |}
        end
    end.

End Endpoint.

(** *** Vocabulary of the specification: tokens *)

(** A trigger starts a token: it stands at the start of the text or right
    after a whitespace character. *)
Definition token_start (pre : list ascii) : Prop :=
  pre = [] \/ exists pre' c, pre = pre' ++ [c] /\ is_space c = true.

(** A trigger ends a token: the text ends there, or goes on with whitespace
    or one of the six punctuation marks. *)
Definition token_end (post : list ascii) : Prop :=
  post = [] \/
  exists c post', post = c :: post' /\ (is_space c || is_trigger_punct c) = true.

(** The trigger [t] stands in the lowered text between [pre] and [post]. *)
Definition occurs (t : string) (content : string) (pre post : list ascii) : Prop :=
  py_lower content = pre ++ py_lower t ++ post.

(** Mention-style triggers are those written with a leading at-sign. *)
Definition is_mention (t : string) : bool := startswith_at (py_lower t).

(** Where a trigger is honoured: a mention-style trigger as a token start, a
    phrase-style trigger at a word boundary; both before a token end. *)
Definition trigger_site (t : string) (pre post : list ascii) : Prop :=
  token_end post /\
  if is_mention t then token_start pre
  else word_boundary (last pre) (py_lower t ++ post) = true.

(** Some configured trigger stands in the text as a token of its own, up to
    trailing punctuation: not inside a longer token. *)
Definition standalone_trigger (content : string) : Prop :=
  exists t pre post,
    In t AI_TRIGGERS /\ occurs t content pre post /\
    token_start pre /\ token_end post.

(** *** Vocabulary of the specification: the registry *)

(** An operation keeps [I] on the manager and only produces events in [Q]. *)
Definition preserves (I : ConnectionManager -> Prop) (Q : event -> Prop)
    (a : action) : Prop :=
  forall w w' t, I (manager w) -> a w = Some (w', t) -> I (manager w') /\ Forall Q t.

(** A frame all of whose events are in [Q], whoever it goes to. *)
Definition frame_ok (Q : event -> Prop) (f : frame) : Prop :=
  (forall room, Q (Broadcast room f)) /\
  (forall u, Q (Sent u f)) /\ (forall u, Q (SendFailed u f)).

(** An operation returns, without raising the number of registered users
    above [n]. *)
Definition bounded (n : nat) (a : action) : Prop :=
  forall w, (budget w <= n)%nat ->
    exists w' t, a w = Some (w', t) /\ (budget w' <= n)%nat.

(** The [user_left] broadcasts about [uid] in a trace. *)
Definition is_user_left (uid : string) (e : event) : bool :=
  match e with
  | Broadcast _ (USER_LEFT u _) => String.eqb u uid
  | _ => false
  end.

Definition user_left_broadcasts (uid : string) (t : list event) : nat :=
  length (filter (fun e => is_user_left uid e = true) t).

(** [uid] has no connection, no info and no seat in [room]. *)
Definition gone (uid room : string) (cm : ConnectionManager) : Prop :=
  connections cm !! uid = None /\ user_info cm !! uid = None /\
  forall members, room_members cm !! room = Some members -> uid ∉ members.

(** Every member of a room has a live connection to that room. *)
Definition membership_mirrors_connections (cm : ConnectionManager) : Prop :=
  forall room members uid,
    room_members cm !! room = Some members -> uid ∈ members ->
    exists info, user_info cm !! uid = Some info /\
                 ConnectionInfo.room_id info = room.

(** [uid] holds a seat in room [r1] while any connection of [uid] is to
    room [r2]. *)
Definition stale_seat (uid r1 r2 : string) (cm : ConnectionManager) : Prop :=
  (exists members, room_members cm !! r1 = Some members /\ uid ∈ members) /\
  forall info, user_info cm !! uid = Some info -> ConnectionInfo.room_id info = r2.

(** An operation always returns. *)
Definition returns (a : action) : Prop := forall w, exists w' t, a w = Some (w', t).


(** What the three dictionaries of the manager keep in step: a user has a
    connection exactly when it has an info record, the record is filed under
    its own user id, a registered user holds a seat in the room of its
    record, and no empty membership set is kept. *)
Definition consistent (cm : ConnectionManager) : Prop :=
  (forall u, is_Some (connections cm !! u) <-> is_Some (user_info cm !! u)) /\
  (forall u info, user_info cm !! u = Some info -> ConnectionInfo.user_id info = u) /\
  (forall u info, user_info cm !! u = Some info ->
     exists members,
       room_members cm !! ConnectionInfo.room_id info = Some members /\ u ∈ members) /\
  (forall room members, room_members cm !! room = Some members -> members <> ∅).

(** The calls made on the manager from outside. *)
Inductive request :=
| Connect (websocket : WebSocket) (user_id username room_id ws_id : string)
          (recent_messages : list ChatMessage.t)
| Disconnect (user_id : string)
| Send (user_id : string) (message : frame)
| Cast (room_id : string) (message : frame) (exclude_user : option string).

Definition perform (q : request) : action :=
  match q with
  | Connect ws uid name room ws_id recent => connect ws uid name room ws_id recent
  | Disconnect uid => disconnect uid
  | Send uid f => send_to_user uid f
  | Cast room f ex => broadcast_to_room room f ex
  end.

(** The frames a nested [disconnect] broadcasts. *)
Definition is_presence_frame (f : frame) : bool :=
  match f with
  | USER_LEFT _ _ | USER_LIST_UPDATED _ => true
  | _ => false
  end.

(** The frame [f] is neither sent nor tried to be sent to [uid]. *)
Definition untouched_by (uid : string) (f : frame) (e : event) : Prop :=
  e <> Sent uid f /\ e <> SendFailed uid f.

Definition disconnected (uid : string) (cm : ConnectionManager) : Prop :=
  connections cm !! uid = None.

Definition unregistered (uid : string) (cm : ConnectionManager) : Prop :=
  user_info cm !! uid = None.

(** What a broadcast sends when no send fails: the frame, once to every
    member of the room that has a connection, the excluded user apart, in
    the order of the loop. *)
Definition deliveries (cm : ConnectionManager) (room_id : string) (f : frame)
    (exclude_user : option string) : list event :=
  match room_members cm !! room_id with
  | Some members =>
      flat_map
        (fun user_id =>
           if excluded exclude_user user_id then []
           else match connections cm !! user_id with
                | Some _ => [Sent user_id f]
                | None => []
                end)
        (elements members)
  | None => []
  end.

(** *** Vocabulary of the specification: the message store *)

(** The entry [store_message] writes for a message. *)
Definition entry_of (m : ChatMessage.t) : zentry :=
  (timestamp_micros (ChatMessage.timestamp m), m).

Definition zentry_lt (a b : zentry) : Prop := zentry_ltb a b = true.

(** A sorted set in Redis' order, every entry scored by its timestamp. *)
Definition zsorted (zs : list zentry) : Prop :=
  StronglySorted zentry_lt zs /\ Forall (fun e => e = entry_of (snd e)) zs.

(** [a] comes before [b] in the store: an earlier timestamp or, at equal
    timestamps, the smaller JSON text. *)
Definition message_before (a b : ChatMessage.t) : Prop :=
  zentry_lt (entry_of a) (entry_of b).

(** Messages in the order of strictly increasing timestamps. *)
Definition chronological (messages : list ChatMessage.t) : Prop :=
  StronglySorted
    (fun a b => timestamp_micros (ChatMessage.timestamp a)
                < timestamp_micros (ChatMessage.timestamp b))
    messages.

(** Some read of the store returns the message. *)
Definition reachable (r : Redis) (m : ChatMessage.t) : Prop :=
  (exists limit, In m (get_recent_messages r (ChatMessage.chat_room_id m) limit)) \/
  get_message r (ChatMessage.message_id m) = Some m.

(** The messages in the order of the store: sorted by insertion into an
    empty sorted set. *)
Definition zsort (messages : list ChatMessage.t) : list zentry :=
  fold_left (fun zs m => zinsert (entry_of m) zs) messages [].

(** Reading back the first character of an escaped JSON string; [None] at
    the closing quote. *)
Definition hex_value (c : ascii) : N :=
  if between 48 57 c then ord c - 48 else ord c - 87.

Definition json_unescape_head (s : string) : option (ascii * string) :=
  match s with
  | EmptyString => None
  | String c rest =>
      if N.eqb (ord c) 92 then
        match rest with
        | EmptyString => None
        | String d rest' =>
            if N.eqb (ord d) 34 then Some (dquote, rest')
            else if N.eqb (ord d) 92 then Some (backslash, rest')
            else if N.eqb (ord d) 110 then Some (chr 10, rest')
            else if N.eqb (ord d) 114 then Some (chr 13, rest')
            else if N.eqb (ord d) 116 then Some (chr 9, rest')
            else if N.eqb (ord d) 98 then Some (chr 8, rest')
            else if N.eqb (ord d) 102 then Some (chr 12, rest')
            else
              match rest' with
              | String _ (String _ (String h1 (String h2 rest''))) =>
                  Some (chr (16 * hex_value h1 + hex_value h2), rest'')
              | _ => None
              end
        end
      else if N.eqb (ord c) 34 then None
      else Some (c, rest)
  end.

(** *** Vocabulary of the specification: rooms and texts *)

(** The number of times a user is named in a list of assignments. *)
Definition occurrences (x : string) (l : list string) : nat :=
  length (filter (fun y => y = x) l).

(** [a] was not created before [b]. *)
Definition not_older (a b : ChatRoom.t) : Prop :=
  datetime_ltb (ChatRoom.created_at a) (ChatRoom.created_at b) = false.



(** No whitespace at either end. *)
Definition stripped (s : string) : Prop :=
  match head (chars s) with Some c => is_space c = false | None => True end /\
  match last (chars s) with Some c => is_space c = false | None => True end.

(** *** Vocabulary of the specification: the AI reply *)

(** The generation collaborator failed: the call timed out or raised, the
    status was not 200, or the body did not hold a reply. *)
Definition generation_failed (res : post_result) : bool :=
  match res with
  | PostResponse status_code (Some _) => negb (status_code =? 200)
  | _ => true
  end.

(** Among the calls, an ai-type message is stored or broadcast. *)
Definition emits_ai_message (t : list call) : Prop :=
  exists m, ChatMessage.message_type m = AI /\
    (In (StoreMessage m) t \/
     exists room, In (BroadcastToRoom room (MESSAGE_RECEIVED m)) t).

Definition no_faults (c : Collaborators) : Prop := forall s, faulty c s = false.

(** The three texts [generate_response] answers a failure with. *)
Definition apologies : list string :=
  ["Sorry, I'm having trouble processing your request right now.";
   "Sorry, I'm taking too long to respond. Please try again.";
   "Sorry, I encountered an error while processing your message."].

(** *** Sample data *)

Definition epoch : datetime :=
  {| year := 1970; month := 1; day := 1; hour := 0; minute := 0; second := 0;
     microsecond := 0 |}.

Definition mk_room (rid : string) (private : bool) (assigned : list string)
  : ChatRoom.t :=
  {| ChatRoom.room_id := rid; ChatRoom.room_name := rid;
     ChatRoom.created_at := epoch; ChatRoom.ai_system_prompt := None;
     ChatRoom.ai_model := None; ChatRoom.created_by := None;
     ChatRoom.is_private := private; ChatRoom.assigned_users := assigned |}.

Definition alice_info : ConnectionInfo.t :=
  {| ConnectionInfo.user_id := "u1"; ConnectionInfo.username := "alice";
     ConnectionInfo.room_id := "general"; ConnectionInfo.websocket_id := "ws-1" |}.

(** alice and Bob in the default room; the second [send_text] will raise. *)
Definition two_user_world : World :=
  {| manager :=
       register 2%nat "u2" "Bob" "general" "ws-2"
         (register 1%nat "u1" "alice" "general" "ws-1" empty_manager);
     wire := [true; false] |}.

(** One user opens a connection to the default room and then, without
    closing it, one to a second room. *)
Definition reconnect_elsewhere : action :=
  connect 1%nat "u1" "alice" "general" "ws-1" [] ;;;
  connect 2%nat "u1" "alice" "room2" "ws-2" [].

(** Message number [i] of the default room, sent [i] seconds into the year
    2024. *)
Definition numbered_message (i : nat) : ChatMessage.t :=
  {| ChatMessage.message_id := "m" +:+ zero_padded 4 (Z.of_nat i);
     ChatMessage.chat_room_id := "general";
     ChatMessage.sender_id := "u1";
     ChatMessage.sender_name := "alice";
     ChatMessage.content := "hello";
     ChatMessage.message_type := USER;
     ChatMessage.timestamp :=
       {| year := 2024; month := 1; day := 1; hour := 0;
          minute := Z.of_nat i / 60; second := Z.of_nat i mod 60;
          microsecond := 0 |};
     ChatMessage.metadata := [] |}.

(** Messages of the default room that all carry the same timestamp. *)
Definition tied_message (id : string) : ChatMessage.t :=
  {| ChatMessage.message_id := id;
     ChatMessage.chat_room_id := "general";
     ChatMessage.sender_id := "u1";
     ChatMessage.sender_name := "alice";
     ChatMessage.content := "hello";
     ChatMessage.message_type := USER;
     ChatMessage.timestamp :=
       {| year := 2024; month := 1; day := 1; hour := 12; minute := 0;
          second := 0; microsecond := 250000 |};
     ChatMessage.metadata := [] |}.

Definition three_messages : list ChatMessage.t := map numbered_message (seq 0 3).

(** One message more than the default cap. *)
Definition cap_plus_one_messages : list ChatMessage.t :=
  map numbered_message (seq 0 101).

(** The model timed out while answering in the default room. *)
Definition timed_out : Collaborators :=
  {| room_record := Some (mk_room "general" false []);
     recent_messages := [];
     posted := PostTimeout;
     user_message_id := "id-1";
     ai_message_id := "id-2";
     now := epoch;
     faulty := fun _ => false |}.

(** A store that knows the default room and one message in it. *)
Definition one_room_redis : Redis :=
  {| chat_messages := {["general" := [entry_of (numbered_message 0)]]};
     chat_message := {["m0000" := numbered_message 0]};
     chat_room := {["general" := mk_room "general" false []]} |}.

(** alice and Bob in the default room, on a wire where no send fails. *)
Definition two_users_quiet : World := with_wire [] two_user_world.

(** A sample for the room endpoints: Bob alone in [room2], a room the store
    knows. *)
Definition bob_in_room2 : World :=
  {| manager := register 2%nat "u2" "Bob" "room2" "ws-2" empty_manager;
     wire := [] |}.

Definition two_room_redis : Redis :=
  {| chat_messages := {["general" := [entry_of (numbered_message 0)]]};
     chat_message := {["m0000" := numbered_message 0]};
     chat_room := {["general" := mk_room "general" false [];
                    "room2" := mk_room "room2" true ["u7"]]} |}.

(** ** Part II. Properties *)

Lemma py_in_spec (x : string) (l : list string) : py_in x l = true <-> In x l.
Proof.
  unfold py_in. rewrite existsb_exists. split.
  - intros (y & Hy & Heq). apply String.eqb_eq in Heq. now subst.
  - intros Hin. exists x. split; [assumption | apply String.eqb_refl].
Qed.

(** C1. Room access is decided in priority order: an admin may enter every
    room; otherwise a restricted (kid) account may enter exactly the default
    room and the rooms it is assigned to; otherwise a user may enter exactly
    the rooms that are not private and the rooms it is assigned to.  The
    three sample calls of the specification evaluate accordingly. *)
Theorem can_user_access_room_priority :
  (forall room uid kid, can_user_access_room room uid "admin" kid = true) /\
  (forall room uid role,
      role <> "admin" ->
      (can_user_access_room room uid role true = true <->
       ChatRoom.room_id room = Config.DEFAULT_ROOM_ID \/
       In uid (ChatRoom.assigned_users room))) /\
  (forall room uid role,
      role <> "admin" ->
      (can_user_access_room room uid role false = true <->
       ChatRoom.is_private room = false \/
       In uid (ChatRoom.assigned_users room))) /\
  (forall rid U, can_user_access_room (mk_room rid true [U]) U "user" false = true) /\
  (forall rid U, can_user_access_room (mk_room rid true []) U "user" false = false) /\
  (forall U private,
      can_user_access_room (mk_room Config.DEFAULT_ROOM_ID private []) U "user" true
      = true).
Proof.
  assert (Hadm : forall role, role <> "admin" -> String.eqb role "admin" = false)
    by (intros role Hr; now apply String.eqb_neq).
  split; [reflexivity|].
  split; [|split; [|split; [|split]]].
  - intros room uid role Hr. unfold can_user_access_room, Config.DEFAULT_ROOM_ID.
    rewrite (Hadm _ Hr).
    destruct (String.eqb_spec (ChatRoom.room_id room) "general") as [E|E].
    + split; [now left | reflexivity].
    + rewrite py_in_spec. split; [now right | now intros [?|?]].
  - intros room uid role Hr. unfold can_user_access_room.
    rewrite (Hadm _ Hr).
    destruct (ChatRoom.is_private room); simpl.
    + rewrite py_in_spec. split; [now right | now intros [?|?]].
    + split; [now left | reflexivity].
  - intros rid U. unfold can_user_access_room, mk_room, py_in. simpl.
    now rewrite String.eqb_refl.
  - reflexivity.
  - reflexivity.
Qed.

(** *** The trigger detector *)

Lemma match_literal_spec (lit s rest : list ascii) :
  match_literal lit s = Some rest <-> s = lit ++ rest.
Proof.
  revert s. induction lit as [|a lit IH]; intros s; simpl.
  - split; congruence.
  - destruct s as [|b s]; [split; discriminate|].
    destruct (Ascii.eqb_spec a b) as [->|Hne].
    + rewrite IH. split; congruence.
    + split; [discriminate | congruence].
Qed.

Lemma newline_is_space (c : ascii) : N.eqb (ord c) 10 = true -> is_space c = true.
Proof.
  intros H. apply N.eqb_eq in H. unfold is_space, between. now rewrite H.
Qed.

Lemma lookahead_spec (rest : list ascii) : lookahead rest = true <-> token_end rest.
Proof.
  unfold token_end. destruct rest as [|c rest]; simpl.
  - split; [now left | reflexivity].
  - split.
    + intros H. right. exists c, rest. split; [reflexivity|].
      apply orb_true_iff in H as [H|H]; [assumption|].
      apply andb_true_iff in H as [H _].
      now rewrite (newline_is_space _ H).
    + intros [H|(c' & post' & Heq & H)]; [discriminate|].
      injection Heq as -> ->. now rewrite H.
Qed.

Lemma literal_then_lookahead_spec (lit s : list ascii) :
  literal_then_lookahead lit s = true <->
  exists post, s = lit ++ post /\ token_end post.
Proof.
  unfold literal_then_lookahead.
  destruct (match_literal lit s) as [rest|] eqn:E.
  - apply match_literal_spec in E. rewrite lookahead_spec. split.
    + intros H. now exists rest.
    + intros (post & Heq & H). rewrite E in Heq.
      apply app_inv_head in Heq. now subst.
  - split; [discriminate|]. intros (post & Heq & _).
    apply match_literal_spec in Heq. congruence.
Qed.

Lemma re_search_spec (f : option ascii -> list ascii -> bool)
    (prev : option ascii) (s : list ascii) :
  re_search f prev s = true <->
  exists pre post, s = pre ++ post /\ f (last (option_list prev ++ pre)) post = true.
Proof.
  revert prev. induction s as [|c s IH]; intros prev; simpl.
  - rewrite orb_false_r. split.
    + intros H. exists [], []. split; [reflexivity|].
      rewrite app_nil_r. now destruct prev.
    + intros (pre & post & Heq & H). symmetry in Heq.
      apply app_eq_nil in Heq as [-> ->]. rewrite app_nil_r in H.
      now destruct prev.
  - rewrite orb_true_iff, IH. split.
    + intros [H|(pre & post & -> & H)].
      * exists [], (c :: s). split; [reflexivity|].
        rewrite app_nil_r. now destruct prev.
      * exists (c :: pre), post. split; [reflexivity|].
        rewrite last_app_cons. simpl in H. now rewrite last_cons in H |- *.
    + intros (pre & post & Heq & H). destruct pre as [|c' pre].
      * left. simpl in Heq. subst post. rewrite app_nil_r in H. now destruct prev.
      * right. injection Heq as <- ->. exists pre, post. split; [reflexivity|].
        rewrite last_app_cons in H. simpl. now rewrite last_cons in H |- *.
Qed.

Lemma mention_search_spec (lit s : list ascii) :
  re_search (mention_match_at lit) None s = true <->
  exists pre post, s = pre ++ lit ++ post /\ token_start pre /\ token_end post.
Proof.
  rewrite re_search_spec. simpl. split.
  - intros (pre0 & post0 & -> & H). unfold mention_match_at in H.
    apply orb_true_iff in H as [H|H].
    + destruct (last pre0) eqn:El; [discriminate|].
      apply last_None in El. subst pre0.
      apply literal_then_lookahead_spec in H as (post & -> & Hend).
      exists [], post. repeat split; [now left | assumption].
    + destruct post0 as [|c s']; [discriminate|].
      apply andb_true_iff in H as [Hsp H].
      apply literal_then_lookahead_spec in H as (post & -> & Hend).
      exists (pre0 ++ [c]), post. split; [now rewrite <- app_assoc|].
      split; [right; now exists pre0, c | assumption].
  - intros (pre & post & -> & [->|(pre' & c & -> & Hsp)] & Hend).
    + exists [], (lit ++ post). split; [reflexivity|].
      unfold mention_match_at. simpl. apply orb_true_iff. left.
      apply literal_then_lookahead_spec. now exists post.
    + exists pre', (c :: lit ++ post). split; [now rewrite <- app_assoc|].
      unfold mention_match_at. apply orb_true_iff. right.
      rewrite Hsp. simpl. apply literal_then_lookahead_spec. now exists post.
Qed.

Lemma phrase_search_spec (lit s : list ascii) :
  re_search (phrase_match_at lit) None s = true <->
  exists pre post,
    s = pre ++ lit ++ post /\
    word_boundary (last pre) (lit ++ post) = true /\ token_end post.
Proof.
  rewrite re_search_spec. simpl. split.
  - intros (pre & post0 & -> & H). unfold phrase_match_at in H.
    apply andb_true_iff in H as [Hb H].
    apply literal_then_lookahead_spec in H as (post & -> & Hend).
    now exists pre, post.
  - intros (pre & post & -> & Hb & Hend).
    exists pre, (lit ++ post). split; [reflexivity|].
    unfold phrase_match_at. rewrite Hb. simpl.
    apply literal_then_lookahead_spec. now exists post.
Qed.

Lemma trigger_matches_spec (content t : string) :
  trigger_matches (py_lower content) t = true <->
  exists pre post, occurs t content pre post /\ trigger_site t pre post.
Proof.
  unfold trigger_matches, trigger_site, occurs, is_mention.
  destruct (startswith_at (py_lower t)).
  - rewrite mention_search_spec. split.
    + intros (pre & post & H1 & H2 & H3). now exists pre, post.
    + intros (pre & post & H1 & H3 & H2). now exists pre, post.
  - rewrite phrase_search_spec. split.
    + intros (pre & post & H1 & H2 & H3). now exists pre, post.
    + intros (pre & post & H1 & H3 & H2). now exists pre, post.
Qed.

Lemma standalone_trigger_decide (content : string) :
  standalone_trigger content <->
  existsb (fun t => re_search (mention_match_at (py_lower t)) None (py_lower content))
          AI_TRIGGERS = true.
Proof.
  unfold standalone_trigger, occurs. rewrite existsb_exists. split.
  - intros (t & pre & post & Hin & Hocc & Hs & He). exists t.
    split; [assumption|]. apply mention_search_spec. now exists pre, post.
  - intros (t & Hin & H). apply mention_search_spec in H as (pre & post & H).
    now exists t, pre, post.
Qed.

(** C2, as stated, fails at a phrase-style trigger: in [user@ai: hi] the
    trigger [ai:] stands inside the longer token [user@ai:], no trigger is a
    token of its own, and yet the detector fires. *)
Lemma should_trigger_inside_token :
  should_trigger_ai_response "user@ai: hi" = true /\
  ~ standalone_trigger "user@ai: hi".
Proof.
  split; [reflexivity|].
  rewrite standalone_trigger_decide. vm_compute. discriminate.
Qed.

(** C2, amended.  The detector fires exactly when some configured trigger
    occurs in the lowered text at a trigger site: before whitespace, one of
    [,.!?;:] or the end of the text and, for a mention-style trigger, at the
    start of the text or after whitespace, for a phrase-style trigger, at a
    word boundary.  Hence a mention-style trigger is never honoured inside
    a longer token, texts equal up to case are treated alike, and the three
    sample texts evaluate as specified. *)
Theorem should_trigger_ai_response_sites :
  (forall content,
      should_trigger_ai_response content = true <->
      exists t pre post,
        In t AI_TRIGGERS /\ occurs t content pre post /\ trigger_site t pre post) /\
  (forall content t,
      is_mention t = true ->
      trigger_matches (py_lower content) t = true ->
      exists pre post,
        occurs t content pre post /\ token_start pre /\ token_end post) /\
  (forall c1 c2,
      py_lower c1 = py_lower c2 ->
      should_trigger_ai_response c1 = should_trigger_ai_response c2) /\
  should_trigger_ai_response "Hey Styx, what's up?" = true /\
  should_trigger_ai_response "mystyx is cool" = false /\
  should_trigger_ai_response "contact me at user@styx.com" = false.
Proof.
  split; [|split; [|split; [|repeat split]]].
  - intros content. unfold should_trigger_ai_response.
    rewrite existsb_exists. split.
    + intros (t & Hin & H). apply trigger_matches_spec in H as (pre & post & H).
      now exists t, pre, post.
    + intros (t & pre & post & Hin & H). exists t. split; [assumption|].
      apply trigger_matches_spec. now exists pre, post.
  - intros content t Hm H.
    apply trigger_matches_spec in H as (pre & post & Hocc & Hend & Hsite).
    rewrite Hm in Hsite. now exists pre, post.
  - intros c1 c2 Heq. unfold should_trigger_ai_response. now rewrite Heq.
Qed.

(** *** The connection registry *)

Section Preservation.
Context (I : ConnectionManager -> Prop) (Q : event -> Prop).

Lemma preserves_skip : preserves I Q skip.
Proof. intros w w' t HI [= <- <-]. now split. Qed.

Lemma preserves_emit e : Q e -> preserves I Q (emit e).
Proof. intros He w w' t HI [= <- <-]. split; [assumption | now constructor]. Qed.

Lemma preserves_and_then a b :
  preserves I Q a -> preserves I Q b -> preserves I Q (a ;;; b).
Proof.
  intros Ha Hb w w' t HI H. unfold and_then in H.
  destruct (a w) as [[w1 t1]|] eqn:Ea; [|discriminate].
  destruct (b w1) as [[w2 t2]|] eqn:Eb; [|discriminate].
  injection H as <- <-.
  destruct (Ha _ _ _ HI Ea) as [HI1 Ht1].
  destruct (Hb _ _ _ HI1 Eb) as [HI2 Ht2].
  split; [assumption | now apply Forall_app].
Qed.

Lemma preserves_read (a : World -> action) :
  (forall x, preserves I Q (a x)) -> preserves I Q (fun w => a w w).
Proof. intros Ha w w' t HI H. exact (Ha w w w' t HI H). Qed.

Lemma preserves_for_each {A} (l : list A) (body : A -> action) :
  (forall x, preserves I Q (body x)) -> preserves I Q (for_each l body).
Proof.
  intros Hbody. induction l as [|x l IH]; simpl.
  - apply preserves_skip.
  - apply preserves_and_then; [apply Hbody | exact IH].
Qed.

Section WithDisconnect.
Context (disc : string -> action).
Hypothesis Hdisc : forall v, preserves I Q (disc v).

Lemma preserves_send u f :
  Q (Sent u f) -> Q (SendFailed u f) ->
  preserves I Q (send_to_user_with disc u f).
Proof.
  intros HS HF w w' t HI H. unfold send_to_user_with in H.
  destruct (connections (manager w) !! u); [|injection H as <- <-; now split].
  destruct (wire w) as [|[] rest].
  - injection H as <- <-. split; [assumption | now repeat constructor].
  - injection H as <- <-. split; [assumption | now repeat constructor].
  - revert H. apply (preserves_and_then _ _ (preserves_emit _ HF) (Hdisc u)).
    exact HI.
Qed.

Lemma preserves_fan_out room f ex :
  (forall u, Q (Sent u f)) -> (forall u, Q (SendFailed u f)) ->
  preserves I Q
    (fun w =>
       match room_members (manager w) !! room with
       | Some members =>
           for_each (elements members)
             (fun user_id =>
                if excluded ex user_id then skip
                else send_to_user_with disc user_id f) w
       | None => Some (w, [])
       end).
Proof.
  intros HS HF w w' t HI H.
  destruct (room_members (manager w) !! room) as [members|].
  - revert H. apply preserves_for_each; [|exact HI].
    intros u. destruct (excluded ex u);
      [apply preserves_skip | now apply preserves_send].
  - injection H as <- <-. now split.
Qed.

Lemma preserves_broadcast room f ex :
  frame_ok Q f -> preserves I Q (broadcast_to_room_with disc room f ex).
Proof.
  intros (HB & HS & HF). unfold broadcast_to_room_with.
  apply preserves_and_then; [now apply preserves_emit |].
  now apply preserves_fan_out.
Qed.
End WithDisconnect.

Hypothesis Hunreg : forall cm v info,
    I cm -> user_info cm !! v = Some info ->
    I (unregister v (ConnectionInfo.room_id info) cm).
Hypothesis Hleft : forall cm v info,
    I cm -> user_info cm !! v = Some info ->
    frame_ok Q (USER_LEFT v (ConnectionInfo.username info)).
Hypothesis Hlist : forall l, frame_ok Q (USER_LIST_UPDATED l).

Lemma preserves_disconnect_fuel fuel v : preserves I Q (disconnect_fuel fuel v).
Proof.
  revert v. induction fuel as [|fuel IH]; intros v w w' t HI H; simpl in H.
  - destruct (user_info (manager w) !! v); [discriminate|].
    injection H as <- <-. now split.
  - destruct (user_info (manager w) !! v) as [info|] eqn:Ev;
      [|injection H as <- <-; now split].
    unfold and_then at 1, modify in H.
    match type of H with
    | match ?a ?w1 with _ => _ end = _ =>
        destruct (a w1) as [[w2 t2]|] eqn:Er; [|discriminate]
    end.
    injection H as <- <-. simpl.
    revert Er. apply preserves_and_then.
    + apply preserves_broadcast; [exact IH | exact (Hleft _ _ _ HI Ev)].
    + apply (preserves_read (fun w0 =>
               broadcast_to_room_with (disconnect_fuel fuel)
                 (ConnectionInfo.room_id info)
                 (USER_LIST_UPDATED
                    (get_active_users_info (manager w0)
                       (ConnectionInfo.room_id info))) None)).
      intros x. apply preserves_broadcast; [exact IH | apply Hlist].
    + simpl. exact (Hunreg _ _ _ HI Ev).
Qed.
End Preservation.

Section Totality.
Context (n : nat).

Lemma bounded_skip : bounded n skip.
Proof. intros w Hw. now exists w, []. Qed.

Lemma bounded_emit e : bounded n (emit e).
Proof. intros w Hw. now exists w, [e]. Qed.

Lemma bounded_and_then a b : bounded n a -> bounded n b -> bounded n (a ;;; b).
Proof.
  intros Ha Hb w Hw. unfold and_then.
  destruct (Ha w Hw) as (w1 & t1 & -> & Hw1).
  destruct (Hb w1 Hw1) as (w2 & t2 & -> & Hw2).
  now exists w2, (t1 ++ t2).
Qed.

Lemma bounded_read (a : World -> action) :
  (forall x, bounded n (a x)) -> bounded n (fun w => a w w).
Proof. intros Ha w Hw. exact (Ha w w Hw). Qed.

Lemma bounded_for_each {A} (l : list A) (body : A -> action) :
  (forall x, bounded n (body x)) -> bounded n (for_each l body).
Proof.
  intros Hbody. induction l as [|x l IH]; simpl.
  - apply bounded_skip.
  - apply bounded_and_then; [apply Hbody | exact IH].
Qed.

Context (disc : string -> action).
Hypothesis Hdisc : forall v, bounded n (disc v).

Lemma bounded_send u f : bounded n (send_to_user_with disc u f).
Proof.
  intros w Hw. unfold send_to_user_with.
  destruct (connections (manager w) !! u); [|now exists w, []].
  destruct (wire w) as [|[] rest].
  - now exists w, [Sent u f].
  - now exists (with_wire rest w), [Sent u f].
  - apply (bounded_and_then _ _ (bounded_emit _) (Hdisc u)). exact Hw.
Qed.

Lemma bounded_broadcast room f ex : bounded n (broadcast_to_room_with disc room f ex).
Proof.
  unfold broadcast_to_room_with. apply bounded_and_then; [apply bounded_emit|].
  intros w Hw. destruct (room_members (manager w) !! room) as [members|].
  - apply bounded_for_each; [|exact Hw].
    intros u. destruct (excluded ex u); [apply bounded_skip | apply bounded_send].
  - now exists w, [].
Qed.
End Totality.

Lemma budget_unregister (w : World) (v room : string) (info : ConnectionInfo.t) :
  user_info (manager w) !! v = Some info ->
  S (budget (with_manager (unregister v room) w)) = budget w.
Proof.
  intros Hv. unfold budget. simpl.
  rewrite map_size_delete, Hv.
  assert (size (user_info (manager w)) <> 0)%nat; [|lia].
  intros H0. apply map_size_empty_inv in H0. rewrite H0 in Hv.
  now rewrite lookup_empty in Hv.
Qed.

Lemma disconnect_fuel_bounded (fuel n : nat) (v : string) :
  (n <= fuel)%nat -> bounded n (disconnect_fuel fuel v).
Proof.
  revert n v. induction fuel as [|fuel IH]; intros n v Hn w Hw; simpl.
  - destruct (user_info (manager w) !! v) as [info|] eqn:Ev; [|now exists w, []].
    pose proof (budget_unregister w v "" info Ev). lia.
  - destruct (user_info (manager w) !! v) as [info|] eqn:Ev; [|now exists w, []].
    pose proof (budget_unregister w v (ConnectionInfo.room_id info) info Ev) as Hb.
    destruct n as [|n]; [lia|].
    assert (Hrec : forall u, bounded n (disconnect_fuel fuel u))
      by (intros u; apply IH; lia).
    unfold and_then at 1, modify.
    match goal with
    | |- exists w' t, match ?a ?w1 with _ => _ end = _ /\ _ =>
        assert (Hrest : bounded n a)
    end.
    { apply bounded_and_then; [now apply bounded_broadcast|].
      apply (bounded_read n (fun w0 =>
               broadcast_to_room_with (disconnect_fuel fuel)
                 (ConnectionInfo.room_id info)
                 (USER_LIST_UPDATED
                    (get_active_users_info (manager w0)
                       (ConnectionInfo.room_id info))) None)).
      intros x. now apply bounded_broadcast. }
    match goal with
    | |- exists w' t, match ?a ?w1 with _ => _ end = _ /\ _ =>
        destruct (Hrest w1) as (w2 & t2 & -> & Hw2); [lia|]
    end.
    exists w2, ([] ++ t2). split; [reflexivity | lia].
Qed.

Lemma and_then_inv (a b : action) (w w' : World) (t : list event) :
  (a ;;; b) w = Some (w', t) ->
  exists w1 t1 t2, a w = Some (w1, t1) /\ b w1 = Some (w', t2) /\ t = t1 ++ t2.
Proof.
  unfold and_then. intros H.
  destruct (a w) as [[w1 t1]|]; [|discriminate].
  destruct (b w1) as [[w2 t2]|] eqn:Eb; [|discriminate].
  injection H as <- <-. exists w1, t1, t2. now rewrite Eb.
Qed.

Lemma user_left_broadcasts_app (uid : string) (t1 t2 : list event) :
  user_left_broadcasts uid (t1 ++ t2)
  = (user_left_broadcasts uid t1 + user_left_broadcasts uid t2)%nat.
Proof. unfold user_left_broadcasts. now rewrite filter_app, length_app. Qed.

Lemma user_left_broadcasts_none (uid : string) (t : list event) :
  Forall (fun e => is_user_left uid e = false) t -> user_left_broadcasts uid t = 0%nat.
Proof.
  unfold user_left_broadcasts. induction 1 as [|e t He _ IH]; [reflexivity|].
  rewrite filter_cons. destruct (decide (is_user_left uid e = true)) as [E|E].
  - congruence.
  - exact IH.
Qed.

Lemma gone_unregister (uid room v : string) (cm : ConnectionManager)
    (info : ConnectionInfo.t) :
  gone uid room cm -> user_info cm !! v = Some info ->
  gone uid room (unregister v (ConnectionInfo.room_id info) cm).
Proof.
  intros (Hc & Hi & Hm) Hv. unfold gone, unregister. simpl.
  split; [apply lookup_delete_None; now right|].
  split; [apply lookup_delete_None; now right|].
  intros members.
  destruct (room_members cm !! ConnectionInfo.room_id info) as [ms|] eqn:Er;
    [|apply Hm].
  destruct (decide (ms ∖ {[v]} = ∅)).
  - intros H. apply lookup_delete_Some in H as [_ H]. now apply Hm.
  - destruct (decide (ConnectionInfo.room_id info = room)) as [<-|Hne].
    + rewrite lookup_insert_eq. intros ?; simplify_eq.
      specialize (Hm _ Er). rewrite elem_of_difference. tauto.
    + rewrite lookup_insert_ne by exact Hne. apply Hm.
Qed.

Lemma gone_after_unregister (uid : string) (cm : ConnectionManager)
    (info : ConnectionInfo.t) :
  gone uid (ConnectionInfo.room_id info)
       (unregister uid (ConnectionInfo.room_id info) cm).
Proof.
  unfold gone, unregister. simpl.
  split; [apply lookup_delete_eq|]. split; [apply lookup_delete_eq|].
  intros members.
  destruct (room_members cm !! ConnectionInfo.room_id info) as [ms|] eqn:Er.
  - destruct (decide (ms ∖ {[uid]} = ∅)).
    + now rewrite lookup_delete_eq.
    + rewrite lookup_insert_eq. intros ?; simplify_eq.
      rewrite elem_of_difference, elem_of_singleton. tauto.
  - now rewrite Er.
Qed.

Lemma disconnect_fuel_keeps_gone (uid room : string) (fuel : nat) (v : string) :
  preserves (gone uid room) (fun e => is_user_left uid e = false)
            (disconnect_fuel fuel v).
Proof.
  apply preserves_disconnect_fuel.
  - intros cm u info Hg Hu. now apply gone_unregister.
  - intros cm u info (_ & Hi & _) Hu. repeat split; intros; simpl; try reflexivity.
    apply String.eqb_neq. intros ->. congruence.
  - intros l. now repeat split.
Qed.

Lemma disconnect_absent (uid : string) (w : World) :
  user_info (manager w) !! uid = None -> disconnect uid w = Some (w, []).
Proof.
  intros H. unfold disconnect. destruct (budget w); simpl; now rewrite H.
Qed.

(** C8. Disconnecting a connected user returns; it removes the user's
    connection, info and seat in the room, and announces the departure with
    exactly one [user_left] broadcast.  A second disconnect of the same user
    changes nothing and produces nothing, so both calls together still
    amount to one [user_left] broadcast. *)
Theorem disconnect_idempotent (uid : string) (w : World) (info : ConnectionInfo.t) :
  user_info (manager w) !! uid = Some info ->
  exists w1 t1,
    disconnect uid w = Some (w1, t1) /\
    gone uid (ConnectionInfo.room_id info) (manager w1) /\
    user_left_broadcasts uid t1 = 1%nat /\
    disconnect uid w1 = Some (w1, []) /\
    (disconnect uid ;;; disconnect uid) w = Some (w1, t1).
Proof.
  intros Hu.
  destruct (disconnect_fuel_bounded (budget w) (budget w) uid (le_n _) w (le_n _))
    as (w1 & t1 & Hrun & _).
  exists w1, t1.
  assert (Hgone : gone uid (ConnectionInfo.room_id info) (manager w1)
                  /\ user_left_broadcasts uid t1 = 1%nat).
  { pose proof (budget_unregister w uid (ConnectionInfo.room_id info) info Hu) as Hb.
    destruct (budget w) as [|fuel] eqn:Ef; [lia|].
    simpl in Hrun. rewrite Hu in Hrun.
    apply and_then_inv in Hrun as (w2 & t2 & t3 & Hmod & Hrun & ->).
    injection Hmod as <- <-.
    apply and_then_inv in Hrun as (w3 & t3a & t3b & Hleft & Hlist & ->).
    unfold broadcast_to_room_with in Hleft.
    apply and_then_inv in Hleft as (w4 & t4 & t5 & Hemit & Hfan & ->).
    injection Hemit as <- <-.
    pose proof (gone_after_unregister uid (manager w) info) as Hg0.
    eapply (preserves_fan_out (gone uid (ConnectionInfo.room_id info))
              (fun e => is_user_left uid e = false)) in Hfan as [Hg1 Hq1];
      [| intros v; apply disconnect_fuel_keeps_gone | reflexivity | reflexivity
       | exact Hg0].
    eapply (preserves_broadcast (gone uid (ConnectionInfo.room_id info))
              (fun e => is_user_left uid e = false)) in Hlist as [Hg2 Hq2];
      [| intros v; apply disconnect_fuel_keeps_gone | now repeat split
       | exact Hg1].
    split; [exact Hg2|].
    rewrite !user_left_broadcasts_app.
    rewrite (user_left_broadcasts_none _ _ Hq1), (user_left_broadcasts_none _ _ Hq2).
    unfold user_left_broadcasts. simpl. rewrite filter_cons, filter_nil.
    simpl. rewrite String.eqb_refl. reflexivity. }
  destruct Hgone as [Hgone Hone].
  assert (Hagain : disconnect uid w1 = Some (w1, []))
    by (apply disconnect_absent; apply Hgone).
  change (disconnect uid w = Some (w1, t1)) in Hrun.
  repeat split; try assumption; try apply Hgone.
  unfold and_then. rewrite Hrun, Hagain. now rewrite app_nil_r.
Qed.

Lemma disconnect_idempotent_witness :
  user_info (manager two_user_world) !! "u1" = Some alice_info /\
  exists w1 t1,
    disconnect "u1" two_user_world = Some (w1, t1) /\
    gone "u1" "general" (manager w1) /\
    user_left_broadcasts "u1" t1 = 1%nat /\
    disconnect "u1" w1 = Some (w1, []) /\
    (disconnect "u1" ;;; disconnect "u1") two_user_world = Some (w1, t1).
Proof.
  split; [reflexivity|].
  apply (disconnect_idempotent "u1" two_user_world alice_info). reflexivity.
Defined.

Lemma returns_and_then (a b : action) : returns a -> returns b -> returns (a ;;; b).
Proof.
  intros Ha Hb w. unfold and_then.
  destruct (Ha w) as (w1 & t1 & ->). destruct (Hb w1) as (w2 & t2 & ->).
  now exists w2, (t1 ++ t2).
Qed.

Lemma returns_for_each {A} (l : list A) (body : A -> action) :
  (forall x, returns (body x)) -> returns (for_each l body).
Proof.
  intros Hbody. induction l as [|x l IH]; simpl.
  - intros w. now exists w, [].
  - apply returns_and_then; [apply Hbody | exact IH].
Qed.

Lemma disconnect_returns (user_id : string) : returns (disconnect user_id).
Proof.
  intros w. unfold disconnect.
  destruct (disconnect_fuel_bounded (budget w) (budget w) user_id (le_n _) w (le_n _))
    as (w' & t & H & _).
  now exists w', t.
Qed.

Lemma send_to_user_returns (user_id : string) (f : frame) :
  returns (send_to_user user_id f).
Proof.
  intros w. unfold send_to_user.
  destruct (bounded_send (budget w) (disconnect_fuel (budget w))
              (fun v => disconnect_fuel_bounded _ _ v (le_n _)) user_id f w (le_n _))
    as (w' & t & H & _).
  now exists w', t.
Qed.

Lemma broadcast_to_room_returns (room_id : string) (f : frame) (ex : option string) :
  returns (broadcast_to_room room_id f ex).
Proof.
  intros w. unfold broadcast_to_room.
  destruct (bounded_broadcast (budget w) (disconnect_fuel (budget w))
              (fun v => disconnect_fuel_bounded _ _ v (le_n _)) room_id f ex w (le_n _))
    as (w' & t & H & _).
  now exists w', t.
Qed.

(** [connect] returns, whatever the wire does. *)
Lemma connect_returns (ws : WebSocket) (user_id username room_id ws_id : string)
    (recent : list ChatMessage.t) :
  returns (connect ws user_id username room_id ws_id recent).
Proof.
  unfold connect. apply returns_and_then; [intros w; now eexists _, _|].
  apply returns_and_then; [apply broadcast_to_room_returns|].
  intros w.
  apply (returns_and_then _ _ (send_to_user_returns _ _)).
  apply returns_and_then; [|apply broadcast_to_room_returns].
  apply returns_for_each. intros m. apply send_to_user_returns.
Qed.

Lemma stale_seat_unregister (uid r1 r2 v : string) (cm : ConnectionManager)
    (info : ConnectionInfo.t) :
  r1 <> r2 ->
  stale_seat uid r1 r2 cm -> user_info cm !! v = Some info ->
  stale_seat uid r1 r2 (unregister v (ConnectionInfo.room_id info) cm).
Proof.
  intros Hne [(ms & Hms & Hu) Hroom] Hv. unfold stale_seat, unregister. simpl.
  assert (Hvu : ConnectionInfo.room_id info = r1 -> v <> uid).
  { intros Hr1 ->. apply Hne. rewrite <- Hr1. now apply Hroom. }
  split.
  - destruct (room_members cm !! ConnectionInfo.room_id info) as [ms_v|] eqn:Er;
      [|now exists ms].
    destruct (decide (ConnectionInfo.room_id info = r1)) as [Hr1|Hr1].
    + assert (ms_v = ms) by congruence. subst ms_v.
      assert (Hin : uid ∈ ms ∖ {[v]}).
      { apply elem_of_difference. split; [exact Hu|].
        rewrite elem_of_singleton. intros ->. now apply (Hvu Hr1). }
      destruct (decide (ms ∖ {[v]} = ∅)) as [He|_].
      * rewrite He in Hin. now apply not_elem_of_empty in Hin.
      * exists (ms ∖ {[v]}). rewrite Hr1, lookup_insert_eq. now split.
    + exists ms. split; [|exact Hu].
      destruct (decide (ms_v ∖ {[v]} = ∅)).
      * now rewrite lookup_delete_ne.
      * now rewrite lookup_insert_ne.
  - intros info' H. apply lookup_delete_Some in H as [_ H]. now apply Hroom.
Qed.

Lemma disconnect_fuel_keeps_stale_seat (uid r1 r2 : string) (fuel : nat) (v : string) :
  r1 <> r2 ->
  preserves (stale_seat uid r1 r2) (fun _ => True) (disconnect_fuel fuel v).
Proof.
  intros Hne. apply preserves_disconnect_fuel.
  - intros cm u info Hs Hu. now apply stale_seat_unregister.
  - intros. now repeat split.
  - intros. now repeat split.
Qed.

(** The defect behind C3 in general: whenever a user who holds a seat in one
    room connects to another room, [connect] returns and leaves a manager
    whose membership sets do not mirror the connections, whatever the wire
    does. *)
Lemma connect_elsewhere_breaks_mirror
    (w : World) (ws : WebSocket) (uid username r1 r2 ws_id : string)
    (recent : list ChatMessage.t) (members : gset string) :
  r1 <> r2 ->
  room_members (manager w) !! r1 = Some members -> uid ∈ members ->
  exists w' t,
    connect ws uid username r2 ws_id recent w = Some (w', t) /\
    stale_seat uid r1 r2 (manager w') /\
    ~ membership_mirrors_connections (manager w').
Proof.
  intros Hne Hms Hu.
  destruct (connect_returns ws uid username r2 ws_id recent w) as (w' & t & Hrun).
  exists w', t. split; [exact Hrun|].
  assert (Hstale : stale_seat uid r1 r2 (manager w')).
  { assert (Hsend : forall u f,
               preserves (stale_seat uid r1 r2) (fun _ => True) (send_to_user u f)).
    { intros u f. unfold send_to_user.
      apply (preserves_read _ _ (fun w0 =>
               send_to_user_with (disconnect_fuel (budget w0)) u f)).
      intros x. apply preserves_send; try exact I.
      intros v. now apply disconnect_fuel_keeps_stale_seat. }
    assert (Hcast : forall room f ex,
               preserves (stale_seat uid r1 r2) (fun _ => True)
                         (broadcast_to_room room f ex)).
    { intros room f ex. unfold broadcast_to_room.
      apply (preserves_read _ _ (fun w0 =>
               broadcast_to_room_with (disconnect_fuel (budget w0)) room f ex)).
      intros x. apply preserves_broadcast; [|now repeat split].
      intros v. now apply disconnect_fuel_keeps_stale_seat. }
    unfold connect in Hrun.
    apply and_then_inv in Hrun as (w1 & t1 & t2 & Hreg & Hrun & ->).
    injection Hreg as <- <-.
    revert Hrun. eapply preserves_and_then; [apply Hcast | |].
    - apply (preserves_read _ _ (fun w0 =>
               (send_to_user uid
                  (CONNECTION_ESTABLISHED uid r2
                     (get_active_users_info (manager w0) r2)) ;;;
                for_each recent (fun m => send_to_user uid (MESSAGE_HISTORY m)) ;;;
                broadcast_to_room r2
                  (USER_LIST_UPDATED (get_active_users_info (manager w0) r2))
                  None))).
      intros x. apply preserves_and_then; [apply Hsend|].
      apply preserves_and_then; [|apply Hcast].
      apply preserves_for_each. intros m. apply Hsend.
    - unfold stale_seat, with_manager, register. simpl. split.
      + exists members. split; [|exact Hu].
        rewrite lookup_insert_ne by congruence. exact Hms.
      + intros info. rewrite lookup_insert_eq. intros Heq.
        injection Heq as <-. reflexivity. }
  split; [exact Hstale|].
  destruct Hstale as [(ms & Hms' & Hu') Hroom]. intros Hmir.
  destruct (Hmir _ _ _ Hms' Hu') as (info & Hinfo & Hr1).
  apply Hne. rewrite <- Hr1. now apply Hroom.
Qed.

Lemma mirror_unregister (v : string) (cm : ConnectionManager)
    (info : ConnectionInfo.t) :
  membership_mirrors_connections cm -> user_info cm !! v = Some info ->
  membership_mirrors_connections (unregister v (ConnectionInfo.room_id info) cm).
Proof.
  intros Hmir Hv room ms uid Hms Hu. unfold unregister in *. simpl in *.
  assert (Hkeep : forall ms0, room_members cm !! room = Some ms0 -> uid ∈ ms0 ->
                    (uid = v -> ConnectionInfo.room_id info <> room) ->
                    exists info', delete v (user_info cm) !! uid = Some info' /\
                                  ConnectionInfo.room_id info' = room).
  { intros ms0 Hms0 Hu0 Hother.
    destruct (Hmir _ _ _ Hms0 Hu0) as (info' & Hinfo' & Hroom').
    exists info'. split; [|exact Hroom'].
    rewrite lookup_delete_ne; [exact Hinfo'|].
    intros <-. apply (Hother eq_refl). congruence. }
  destruct (room_members cm !! ConnectionInfo.room_id info) as [ms_v|] eqn:Er.
  - destruct (decide (ms_v ∖ {[v]} = ∅)).
    + apply lookup_delete_Some in Hms as [Hne Hms].
      apply (Hkeep ms Hms Hu). intros _. exact Hne.
    + destruct (decide (ConnectionInfo.room_id info = room)) as [Hr|Hr].
      * rewrite Hr, lookup_insert_eq in Hms. injection Hms as <-.
        apply elem_of_difference in Hu as [Hu Hnv].
        rewrite elem_of_singleton in Hnv.
        rewrite Hr in Er. apply (Hkeep ms_v Er Hu). intros ->. contradiction.
      * rewrite lookup_insert_ne in Hms by exact Hr.
        apply (Hkeep ms Hms Hu). intros _. exact Hr.
  - apply (Hkeep ms Hms Hu). intros _ Hr. congruence.
Qed.

Lemma mirror_register (ws : WebSocket) (uid username room ws_id : string)
    (cm : ConnectionManager) :
  membership_mirrors_connections cm ->
  (forall info, user_info cm !! uid = Some info -> ConnectionInfo.room_id info = room) ->
  membership_mirrors_connections (register ws uid username room ws_id cm).
Proof.
  intros Hmir Hsame r ms u Hms Hu. unfold register in *. simpl in *.
  destruct (decide (uid = u)) as [<-|Hne].
  - rewrite lookup_insert_eq. eexists. split; [reflexivity|]. simpl.
    destruct (decide (room = r)) as [Hr|Hr]; [exact Hr|].
    rewrite lookup_insert_ne in Hms by exact Hr.
    destruct (Hmir _ _ _ Hms Hu) as (info & Hinfo & Hroom).
    rewrite <- Hroom. symmetry. now apply Hsame.
  - rewrite lookup_insert_ne by exact Hne.
    destruct (decide (room = r)) as [<-|Hr].
    + rewrite lookup_insert_eq in Hms. injection Hms as <-.
      apply elem_of_union in Hu as [Hu|Hu].
      * destruct (room_members cm !! room) as [ms0|] eqn:E; simpl in Hu.
        -- exact (Hmir _ _ _ E Hu).
        -- now apply not_elem_of_empty in Hu.
      * apply elem_of_singleton in Hu. congruence.
    + rewrite lookup_insert_ne in Hms by exact Hr. exact (Hmir _ _ _ Hms Hu).
Qed.

Lemma disconnect_fuel_keeps_mirror (fuel : nat) (v : string) :
  preserves membership_mirrors_connections (fun _ => True) (disconnect_fuel fuel v).
Proof.
  apply preserves_disconnect_fuel.
  - intros cm u info Hm Hu. now apply mirror_unregister.
  - intros. now repeat split.
  - intros. now repeat split.
Qed.

(** X25. Disconnecting keeps the membership sets a mirror of the
    connections, and so does connecting a user who is not registered in
    another room: the one way to break the mirror is to connect to a room
    while registered in another. *)
Lemma mirror_kept_unless_connecting_elsewhere :
  (forall uid w w' t,
      membership_mirrors_connections (manager w) ->
      disconnect uid w = Some (w', t) ->
      membership_mirrors_connections (manager w')) /\
  (forall ws uid username room ws_id recent w w' t,
      membership_mirrors_connections (manager w) ->
      (forall info, user_info (manager w) !! uid = Some info ->
                    ConnectionInfo.room_id info = room) ->
      connect ws uid username room ws_id recent w = Some (w', t) ->
      membership_mirrors_connections (manager w')).
Proof.
  assert (Hsend : forall u f,
             preserves membership_mirrors_connections (fun _ => True)
                       (send_to_user u f)).
  { intros u f. unfold send_to_user.
    apply (preserves_read _ _ (fun w0 =>
             send_to_user_with (disconnect_fuel (budget w0)) u f)).
    intros x. apply preserves_send; try exact I.
    intros v. apply disconnect_fuel_keeps_mirror. }
  assert (Hcast : forall room f ex,
             preserves membership_mirrors_connections (fun _ => True)
                       (broadcast_to_room room f ex)).
  { intros room f ex. unfold broadcast_to_room.
    apply (preserves_read _ _ (fun w0 =>
             broadcast_to_room_with (disconnect_fuel (budget w0)) room f ex)).
    intros x. apply preserves_broadcast; [|now repeat split].
    intros v. apply disconnect_fuel_keeps_mirror. }
  split.
  - intros uid w w' t Hm Hrun. unfold disconnect in Hrun.
    exact (proj1 (disconnect_fuel_keeps_mirror _ _ _ _ _ Hm Hrun)).
  - intros ws uid username room ws_id recent w w' t Hm Hsame Hrun.
    unfold connect in Hrun.
    apply and_then_inv in Hrun as (w1 & t1 & t2 & Hreg & Hrun & ->).
    injection Hreg as <- <-.
    revert Hrun.
    assert (Hrest : preserves membership_mirrors_connections (fun _ => True)
              (broadcast_to_room room (USER_JOINED uid username) (Some uid) ;;;
               (fun w0 =>
                  (send_to_user uid
                     (CONNECTION_ESTABLISHED uid room
                        (get_active_users_info (manager w0) room)) ;;;
                   for_each recent (fun m => send_to_user uid (MESSAGE_HISTORY m)) ;;;
                   broadcast_to_room room
                     (USER_LIST_UPDATED (get_active_users_info (manager w0) room))
                     None) w0))).
    { apply preserves_and_then; [apply Hcast|].
      apply (preserves_read _ _ (fun w0 =>
               (send_to_user uid
                  (CONNECTION_ESTABLISHED uid room
                     (get_active_users_info (manager w0) room)) ;;;
                for_each recent (fun m => send_to_user uid (MESSAGE_HISTORY m)) ;;;
                broadcast_to_room room
                  (USER_LIST_UPDATED (get_active_users_info (manager w0) room))
                  None))).
      intros x. apply preserves_and_then; [apply Hsend|].
      apply preserves_and_then; [|apply Hcast].
      apply preserves_for_each. intros m. apply Hsend. }
    intros Hrun. refine (proj1 (Hrest _ _ _ _ Hrun)).
    simpl. now apply mirror_register.
Qed.

(** C3 on the code.  A user who connects to a second room while still
    registered in a first one keeps a seat in the first room: its membership
    set then holds a user whose only connection is to the other room, and
    after the user disconnects it holds a user with no connection at all. *)
Theorem reconnect_elsewhere_leaves_stale_member :
  (exists w t,
      reconnect_elsewhere quiet_world = Some (w, t) /\
      room_members (manager w) !! "general" = Some {["u1"]} /\
      ConnectionInfo.room_id <$> user_info (manager w) !! "u1" = Some "room2" /\
      ~ membership_mirrors_connections (manager w)) /\
  (exists w t,
      (reconnect_elsewhere ;;; disconnect "u1") quiet_world = Some (w, t) /\
      room_members (manager w) !! "general" = Some {["u1"]} /\
      connections (manager w) !! "u1" = None /\
      user_info (manager w) !! "u1" = None /\
      ~ membership_mirrors_connections (manager w)).
Proof.
  split.
  - eexists. eexists. split; [vm_compute; reflexivity|].
    assert (Hm : forall cm : ConnectionManager,
               room_members cm !! "general" = Some {["u1"]} ->
               ConnectionInfo.room_id <$> user_info cm !! "u1" = Some "room2" ->
               ~ membership_mirrors_connections cm).
    { intros cm Hr Hi Hmir.
      destruct (Hmir "general" {["u1"]} "u1" Hr) as (info & Hinfo & Hroom).
      - now apply elem_of_singleton.
      - rewrite Hinfo in Hi. simpl in Hi. congruence. }
    split; [reflexivity|]. split; [reflexivity|]. now apply Hm.
  - eexists. eexists. split; [vm_compute; reflexivity|].
    split; [reflexivity|]. split; [reflexivity|]. split; [reflexivity|].
    intros Hmir.
    destruct (Hmir "general" {["u1"]} "u1") as (info & Hinfo & _).
    + reflexivity.
    + now apply elem_of_singleton.
    + discriminate Hinfo.
Qed.

(** C9 on the code.  In the state left by the reconnection above, the
    active-user list of the first room names a user whose connection is to
    the other room; once that user has disconnected, the list consists of the
    AI entry alone, with no human member behind it. *)
Theorem active_users_list_after_reconnect_elsewhere :
  (exists w t,
      reconnect_elsewhere quiet_world = Some (w, t) /\
      get_active_users_info (manager w) "general" = [styx_data; ("u1", "alice")] /\
      ConnectionInfo.room_id <$> user_info (manager w) !! "u1" = Some "room2") /\
  (exists w t,
      (reconnect_elsewhere ;;; disconnect "u1") quiet_world = Some (w, t) /\
      get_active_users_info (manager w) "general" = [styx_data] /\
      user_info (manager w) = ∅).
Proof.
  split.
  - eexists. eexists. split; [vm_compute; reflexivity|].
    split; [vm_compute; reflexivity | reflexivity].
  - eexists. eexists. split; [vm_compute; reflexivity|].
    split; [vm_compute; reflexivity | reflexivity].
Qed.







(** *** The message store *)

Ltac case_ranks :=
  cbv zeta;
  repeat match goal with
    | |- context [Z.ltb ?a ?b] => destruct (Z.ltb_spec a b)
    | |- context [Z.leb ?a ?b] => destruct (Z.leb_spec a b)
    end;
  simpl in *.

Lemma trim_keeps_newest (zs : list zentry) (cap : Z) :
  0 <= cap ->
  zremrangebyrank zs 0 (- (cap + 1)) = drop (length zs - Z.to_nat cap) zs.
Proof.
  intros Hcap. unfold zremrangebyrank, rank_range.
  case_ranks.
  all: try lia.
  all: try (replace (length zs - Z.to_nat cap)%nat with 0%nat by lia; reflexivity).
  all: f_equal; lia.
Qed.

(** A read by rank from the top is a prefix of the reversed set. *)
Lemma zrevrange_top (zs : list zentry) (stop : Z) :
  exists k, zrevrange zs 0 stop = take k (rev zs) /\
            (0 <= stop -> k = Z.to_nat (stop + 1)).
Proof.
  unfold zrevrange, rank_range.
  case_ranks; try lia;
    try (exists 0%nat; split; [reflexivity | intros; lia]).
  all: try (exists (Z.to_nat (stop + 1)); split; [|reflexivity];
            rewrite !take_ge; [reflexivity | rewrite length_rev; lia
                              | rewrite length_rev; lia]).
  all: try (eexists; split; [reflexivity | intros; lia]).
  all: try (exists (Z.to_nat (stop + 1)); split; [f_equal; lia | reflexivity]).
  - exists (Z.to_nat (stop + 1)). split; [|reflexivity].
    destruct zs; [simpl; now destruct (Z.to_nat (stop + 1)) | simpl in *; lia].
  - exists (Z.to_nat (stop + 1)). split; [|reflexivity].
    change (drop (Z.to_nat 0) (rev zs)) with (rev zs).
    rewrite !take_ge; [reflexivity | rewrite length_rev; lia
                      | rewrite length_rev; lia].
Qed.

Lemma rev_take_rev {A} (k : nat) (l : list A) :
  rev (take k (rev l)) = drop (length l - k) l.
Proof. rewrite firstn_rev. apply rev_involutive. Qed.

(** What a read returns is a final segment of the room's sorted set. *)
Lemma get_recent_messages_window (r : Redis) (room_id : string) (limit : Z) :
  exists k,
    get_recent_messages r room_id limit
    = map snd (drop (length (room_zset r room_id) - k) (room_zset r room_id)) /\
    (1 <= limit -> k = Z.to_nat limit).
Proof.
  unfold get_recent_messages.
  destruct (zrevrange_top (room_zset r room_id) (limit - 1)) as (k & -> & Hk).
  exists k. split.
  - rewrite <- map_rev, rev_take_rev. reflexivity.
  - intros Hl. rewrite Hk by lia. f_equal. lia.
Qed.

Lemma string_ltb_trans (a b c : string) :
  String.ltb a b = true -> String.ltb b c = true -> String.ltb a c = true.
Proof.
  unfold String.ltb. intros Hab Hbc.
  destruct (String.compare a b) eqn:Eab; try discriminate.
  destruct (String.compare b c) eqn:Ebc; try discriminate.
  apply String_as_OT.cmp_lt in Eab, Ebc.
  pose proof (String_as_OT.lt_trans _ _ _ Eab Ebc) as Hac.
  apply String_as_OT.cmp_lt in Hac. unfold String_as_OT.cmp in Hac.
  now rewrite Hac.
Qed.

Lemma string_ltb_total (a b : string) :
  String.ltb a b = false -> a <> b -> String.ltb b a = true.
Proof.
  unfold String.ltb. intros Hab Hne. rewrite String.compare_antisym.
  destruct (String.compare a b) eqn:E; simpl; try reflexivity; try discriminate.
  apply String.compare_eq_iff in E. contradiction.
Qed.

Lemma string_ltb_irrefl (a : string) : String.ltb a a = false.
Proof.
  unfold String.ltb.
  destruct (String.compare a a) eqn:E; try reflexivity.
  pose proof (String.compare_antisym a a) as H. rewrite E in H. discriminate.
Qed.

Lemma string_append_assoc (a b c : string) : (a +:+ b) +:+ c = a +:+ (b +:+ c).
Proof.
  induction a as [|x a IH]; [reflexivity|].
  change (String x ((a +:+ b) +:+ c) = String x (a +:+ (b +:+ c))).
  f_equal. exact IH.
Qed.

Lemma string_append_inv_head (s a b : string) : s +:+ a = s +:+ b -> a = b.
Proof.
  induction s as [|x s IH]; [trivial|].
  change (String x (s +:+ a) = String x (s +:+ b) -> a = b).
  intros H. injection H as H. now apply IH.
Qed.

Lemma json_unescape_escape (c : ascii) (rest : string) :
  json_unescape_head (json_escape_char c +:+ rest) = Some (c, rest).
Proof. destruct c as [[] [] [] [] [] [] [] []]; reflexivity. Qed.

(** Escaped strings are prefix-free up to their closing quote. *)
Lemma json_escape_prefix_free (a b y z : string) :
  json_escape a +:+ String dquote y = json_escape b +:+ String dquote z -> a = b.
Proof.
  revert b. induction a as [|c a IH]; intros [|c' b]; simpl; intros H.
  - reflexivity.
  - rewrite string_append_assoc in H.
    apply (f_equal json_unescape_head) in H.
    rewrite json_unescape_escape in H. discriminate.
  - rewrite string_append_assoc in H.
    apply (f_equal json_unescape_head) in H.
    rewrite json_unescape_escape in H. discriminate.
  - rewrite !string_append_assoc in H.
    apply (f_equal json_unescape_head) in H.
    rewrite !json_unescape_escape in H. injection H as -> H.
    f_equal. now apply IH.
Qed.

(** The JSON text of a message starts with its id. *)
Lemma message_json_head (m : ChatMessage.t) :
  exists tail,
    message_json m
    = String "{" (json_string "message_id" +:+ ": " +:+ str1 dquote)
      +:+ (json_escape (ChatMessage.message_id m) +:+ String dquote tail).
Proof.
  eexists. unfold message_json, json_object. cbn [json_items].
  unfold json_string at 2.
  rewrite !string_append_assoc. reflexivity.
Qed.

Lemma message_json_id (a b : ChatMessage.t) :
  message_json a = message_json b -> ChatMessage.message_id a = ChatMessage.message_id b.
Proof.
  destruct (message_json_head a) as [ta ->], (message_json_head b) as [tb ->].
  intros H. apply string_append_inv_head in H.
  now apply json_escape_prefix_free in H.
Qed.

Lemma NoDup_message_json (msgs : list ChatMessage.t) :
  NoDup (map ChatMessage.message_id msgs) -> NoDup (map message_json msgs).
Proof.
  induction msgs as [|m msgs IH]; simpl; intros Hnd; [constructor|].
  apply NoDup_cons in Hnd as [Hm Hnd]. apply NoDup_cons. split; [|now apply IH].
  intros Hin. apply Hm. apply list_elem_of_In in Hin.
  apply in_map_iff in Hin as (x & Hx & Hin).
  apply list_elem_of_In, in_map_iff. exists x. split; [|exact Hin].
  now apply message_json_id.
Qed.

Lemma zentry_lt_spec (a b : zentry) :
  zentry_lt a b <->
  fst a < fst b \/
  (fst a = fst b /\ String.ltb (message_json (snd a)) (message_json (snd b)) = true).
Proof.
  unfold zentry_lt, zentry_ltb.
  rewrite orb_true_iff, andb_true_iff, Z.ltb_lt, Z.eqb_eq. tauto.
Qed.

Lemma zentry_lt_trans (a b c : zentry) :
  zentry_lt a b -> zentry_lt b c -> zentry_lt a c.
Proof.
  rewrite !zentry_lt_spec. intros [H1|[H1 J1]] [H2|[H2 J2]].
  - left. lia.
  - left. lia.
  - left. lia.
  - right. split; [lia|]. eapply string_ltb_trans; eassumption.
Qed.

Lemma zentry_lt_total (a b : zentry) :
  zentry_ltb a b = false ->
  message_json (snd a) <> message_json (snd b) ->
  zentry_lt b a.
Proof.
  intros Hab Hne. apply zentry_lt_spec.
  unfold zentry_ltb in Hab. apply orb_false_iff in Hab as [H1 H2].
  apply Z.ltb_ge in H1. apply andb_false_iff in H2 as [H2|H2].
  - apply Z.eqb_neq in H2. left. lia.
  - destruct (Z.eq_dec (fst a) (fst b)) as [E|E]; [|left; lia].
    right. split; [lia|]. apply string_ltb_total; [assumption | congruence].
Qed.

Lemma zentry_lt_scores (a b : zentry) : zentry_lt a b -> fst a <= fst b.
Proof. rewrite zentry_lt_spec. lia. Qed.

Lemma zinsert_elements (P : zentry -> Prop) (e : zentry) (zs : list zentry) :
  Forall P (zinsert e zs) <-> P e /\ Forall P zs.
Proof.
  induction zs as [|x zs IH]; simpl.
  - rewrite Forall_cons. tauto.
  - destruct (zentry_ltb x e).
    + rewrite !Forall_cons, IH. tauto.
    + rewrite !Forall_cons. tauto.
Qed.

Lemma zinsert_sorted (e : zentry) (zs : list zentry) :
  StronglySorted zentry_lt zs ->
  Forall (fun x => message_json (snd x) <> message_json (snd e)) zs ->
  StronglySorted zentry_lt (zinsert e zs).
Proof.
  induction zs as [|x zs IH]; intros Hs Hne; simpl.
  - repeat constructor.
  - apply StronglySorted_cons in Hs as [Hx Hs].
    apply Forall_cons in Hne as [Hxe Hne].
    destruct (zentry_ltb x e) eqn:E.
    + apply StronglySorted_cons. split; [|now apply IH].
      apply zinsert_elements. now split.
    + pose proof (zentry_lt_total _ _ E Hxe) as Hex.
      apply StronglySorted_cons. split.
      * constructor; [assumption|].
        eapply Forall_impl; [exact Hx|]. intros y Hy.
        eapply zentry_lt_trans; eassumption.
      * now apply StronglySorted_cons.
Qed.

Lemma Forall_filter_weaken {A} (Q P : A -> Prop) `{forall x, Decision (P x)}
    (l : list A) :
  Forall Q l -> Forall Q (filter P l).
Proof.
  induction 1 as [|x l Hx Hl IH]; [constructor|].
  rewrite filter_cons. destruct (decide (P x)); [now constructor | exact IH].
Qed.

Lemma Forall_filter_holds {A} (P : A -> Prop) `{forall x, Decision (P x)}
    (l : list A) :
  Forall P (filter P l).
Proof.
  induction l as [|x l IH]; [constructor|].
  rewrite filter_cons. destruct (decide (P x)); [now constructor | exact IH].
Qed.

Lemma StronglySorted_filter_keeps {A} (R : A -> A -> Prop) (P : A -> Prop)
    `{forall x, Decision (P x)} (l : list A) :
  StronglySorted R l -> StronglySorted R (filter P l).
Proof.
  induction 1 as [|x l Hs IH Hx]; [constructor|].
  rewrite filter_cons. destruct (decide (P x)); [|exact IH].
  constructor; [exact IH | now apply Forall_filter_weaken].
Qed.

Lemma zadd_sorted (zs : list zentry) (m : ChatMessage.t) :
  zsorted zs -> zsorted (zadd zs m (timestamp_micros (ChatMessage.timestamp m))).
Proof.
  intros [Hs Hsc]. unfold zadd. split.
  - apply zinsert_sorted.
    + now apply StronglySorted_filter_keeps.
    + eapply Forall_impl; [apply Forall_filter_holds|].
      intros x Hx. unfold same_member in Hx. apply String.eqb_neq in Hx.
      simpl. congruence.
  - apply zinsert_elements. split; [reflexivity|].
    now apply Forall_filter_weaken.
Qed.

Lemma zremrangebyrank_from_bottom (zs : list zentry) (stop : Z) :
  exists k, zremrangebyrank zs 0 stop = drop k zs.
Proof.
  unfold zremrangebyrank, rank_range.
  case_ranks; try (now exists 0%nat); eexists; reflexivity.
Qed.

Lemma zsorted_drop (k : nat) (zs : list zentry) : zsorted zs -> zsorted (drop k zs).
Proof.
  intros [Hs Hsc]. rewrite <- (take_drop k zs) in Hs, Hsc. split.
  - now apply StronglySorted_app_1_r in Hs.
  - now apply Forall_app in Hsc as [_ Hsc].
Qed.

Lemma zsorted_nil : zsorted [].
Proof. split; constructor. Qed.

Lemma store_message_sorted (cap : Z) (m : ChatMessage.t) (r : Redis) :
  (forall room, zsorted (room_zset r room)) ->
  forall room, zsorted (room_zset (snd (store_message cap m r)) room).
Proof.
  intros Hr room. unfold store_message, room_zset at 1. simpl.
  destruct (decide (ChatMessage.chat_room_id m = room)) as [<-|Hne].
  - rewrite lookup_insert_eq. simpl.
    destruct (zremrangebyrank_from_bottom
                (zadd (room_zset r (ChatMessage.chat_room_id m)) m
                   (timestamp_micros (ChatMessage.timestamp m)))
                (- (cap + 1))) as [k ->].
    apply zsorted_drop, zadd_sorted, Hr.
  - rewrite lookup_insert_ne by exact Hne. apply Hr.
Qed.

Lemma store_all_sorted (cap : Z) (msgs : list ChatMessage.t) (r : Redis) :
  (forall room, zsorted (room_zset r room)) ->
  forall room, zsorted (room_zset (store_all cap msgs r) room).
Proof.
  revert r. induction msgs as [|m msgs IH]; intros r Hr; simpl; [exact Hr|].
  apply IH. now apply store_message_sorted.
Qed.

Lemma empty_redis_sorted (room : string) : zsorted (room_zset empty_redis room).
Proof. unfold room_zset. simpl. rewrite lookup_empty. apply zsorted_nil. Qed.

Lemma zsorted_messages (zs : list zentry) :
  zsorted zs -> StronglySorted message_before (map snd zs).
Proof.
  intros [Hs Hsc]. induction Hs as [|e zs Hs IH He]; simpl; [constructor|].
  apply Forall_cons in Hsc as [Hse Hsc].
  constructor; [now apply IH|].
  apply Forall_map. apply Forall_forall. intros x Hx.
  rewrite Forall_forall in He, Hsc. unfold message_before.
  rewrite <- Hse, <- (Hsc x Hx). now apply He.
Qed.

Lemma get_recent_messages_sorted (r : Redis) (room : string) (limit : Z) :
  zsorted (room_zset r room) ->
  StronglySorted message_before (get_recent_messages r room limit).
Proof.
  intros Hs. destruct (get_recent_messages_window r room limit) as (k & -> & _).
  now apply zsorted_messages, zsorted_drop.
Qed.

Lemma zentry_lt_asym (a b : zentry) : zentry_lt a b -> zentry_lt b a -> False.
Proof.
  rewrite !zentry_lt_spec. intros [H1|[H1 J1]] [H2|[H2 J2]]; try lia.
  pose proof (string_ltb_trans _ _ _ J1 J2) as H.
  rewrite string_ltb_irrefl in H. discriminate.
Qed.

Lemma room_zset_store_message (cap : Z) (m : ChatMessage.t) (r : Redis) :
  room_zset (snd (store_message cap m r)) (ChatMessage.chat_room_id m)
  = zremrangebyrank
      (zadd (room_zset r (ChatMessage.chat_room_id m)) m
         (timestamp_micros (ChatMessage.timestamp m)))
      0 (- (cap + 1)).
Proof. unfold store_message, room_zset at 1. simpl. now rewrite lookup_insert_eq. Qed.

Lemma trim_short (zs : list zentry) (cap : Z) :
  Z.of_nat (length zs) <= cap -> zremrangebyrank zs 0 (- (cap + 1)) = zs.
Proof.
  intros H. rewrite trim_keeps_newest by lia.
  replace (length zs - Z.to_nat cap)%nat with 0%nat by lia. reflexivity.
Qed.

Lemma zadd_fresh (zs : list zentry) (m : ChatMessage.t) (score : Z) :
  Forall (fun e => message_json (snd e) <> message_json m) zs ->
  zadd zs m score = zinsert (score, m) zs.
Proof.
  intros H. unfold zadd. f_equal. induction H as [|e zs He _ IH]; [reflexivity|].
  rewrite filter_cons, IH. destruct (decide _) as [Hd|Hd]; [reflexivity|].
  exfalso. apply Hd. unfold same_member. apply String.eqb_neq. congruence.
Qed.

Lemma store_two_tied (cap : Z) (m1 m2 : ChatMessage.t) :
  2 <= cap ->
  ChatMessage.chat_room_id m1 = ChatMessage.chat_room_id m2 ->
  message_json m1 <> message_json m2 ->
  room_zset (store_all cap [m1; m2] empty_redis) (ChatMessage.chat_room_id m1)
  = if zentry_ltb (entry_of m1) (entry_of m2)
    then [entry_of m1; entry_of m2] else [entry_of m2; entry_of m1].
Proof.
  intros Hcap Hroom Hne.
  change (store_all cap [m1; m2] empty_redis)
    with (snd (store_message cap m2 (snd (store_message cap m1 empty_redis)))).
  rewrite Hroom, room_zset_store_message, <- Hroom, room_zset_store_message.
  replace (room_zset empty_redis (ChatMessage.chat_room_id m1)) with (@nil zentry)
    by (unfold room_zset; simpl; now rewrite lookup_empty).
  rewrite (zadd_fresh [] m1) by constructor. simpl zinsert.
  rewrite (trim_short [_]) by (simpl; lia).
  rewrite zadd_fresh by (repeat constructor; exact Hne).
  simpl zinsert. fold (entry_of m1). fold (entry_of m2).
  destruct (zentry_ltb (entry_of m1) (entry_of m2));
    apply trim_short; simpl; lia.
Qed.

Lemma get_recent_messages_of_zset (r r' : Redis) (room : string) (limit : Z) :
  room_zset r room = room_zset r' room ->
  get_recent_messages r room limit = get_recent_messages r' room limit.
Proof. unfold get_recent_messages. now intros ->. Qed.

(** C6, as stated, fails: two messages with one timestamp, stored [b] first
    and [a] second, are kept and read back as [a], [b], not in the order of
    their insertion. *)
Lemma equal_timestamps_not_in_insertion_order :
  ChatMessage.timestamp (tied_message "b") = ChatMessage.timestamp (tied_message "a") /\
  get_recent_messages
    (store_all Config.MAX_CHAT_HISTORY [tied_message "b"; tied_message "a"] empty_redis)
    "general" 50
  = [tied_message "a"; tied_message "b"] /\
  get_recent_messages
    (store_all Config.MAX_CHAT_HISTORY [tied_message "b"; tied_message "a"] empty_redis)
    "general" 50
  <> [tied_message "b"; tied_message "a"].
Proof.
  split; [reflexivity|].
  assert (H : get_recent_messages
                (store_all Config.MAX_CHAT_HISTORY
                   [tied_message "b"; tied_message "a"] empty_redis) "general" 50
              = [tied_message "a"; tied_message "b"])
    by (vm_compute; reflexivity).
  split; [exact H|]. rewrite H. discriminate.
Qed.

(** C6, amended.  The store keeps and reads every room's messages in one
    strict total order: by timestamp and, among equal timestamps, by the
    byte order of the JSON text of the message, whose first field is the
    message id.  The order does not depend on the sequence of insertion: two
    messages, of one timestamp or not, read back the same way whichever was
    stored first. *)
Theorem store_order_is_timestamp_then_json :
  (forall cap msgs room,
      zsorted (room_zset (store_all cap msgs empty_redis) room)) /\
  (forall cap msgs room limit,
      StronglySorted message_before
        (get_recent_messages (store_all cap msgs empty_redis) room limit)) /\
  (forall a b,
      message_before a b <->
      timestamp_micros (ChatMessage.timestamp a)
        < timestamp_micros (ChatMessage.timestamp b) \/
      (timestamp_micros (ChatMessage.timestamp a)
         = timestamp_micros (ChatMessage.timestamp b) /\
       String.ltb (message_json a) (message_json b) = true)) /\
  (forall a b, message_before a b -> message_before b a -> False) /\
  (forall a b c, message_before a b -> message_before b c -> message_before a c) /\
  (forall a b,
      ChatMessage.message_id a <> ChatMessage.message_id b ->
      message_before a b \/ message_before b a) /\
  (forall cap m1 m2 limit,
      2 <= cap ->
      ChatMessage.chat_room_id m1 = ChatMessage.chat_room_id m2 ->
      ChatMessage.message_id m1 <> ChatMessage.message_id m2 ->
      get_recent_messages (store_all cap [m1; m2] empty_redis)
        (ChatMessage.chat_room_id m1) limit
      = get_recent_messages (store_all cap [m2; m1] empty_redis)
          (ChatMessage.chat_room_id m1) limit).
Proof.
  assert (Hjson : forall a b, ChatMessage.message_id a <> ChatMessage.message_id b ->
                    message_json a <> message_json b)
    by (intros a b Hid Hj; apply Hid; now apply message_json_id).
  split; [|split; [|split; [|split; [|split; [|split]]]]].
  - intros cap msgs room. apply store_all_sorted. apply empty_redis_sorted.
  - intros cap msgs room limit. apply get_recent_messages_sorted.
    apply store_all_sorted. apply empty_redis_sorted.
  - intros a b. unfold message_before. now rewrite zentry_lt_spec.
  - intros a b. apply zentry_lt_asym.
  - intros a b c. apply zentry_lt_trans.
  - intros a b Hne. unfold message_before.
    destruct (zentry_ltb (entry_of a) (entry_of b)) eqn:E; [now left|].
    right. apply zentry_lt_total; [exact E | now apply Hjson].
  - intros cap m1 m2 limit Hcap Hroom Hne.
    apply get_recent_messages_of_zset.
    rewrite store_two_tied by (try assumption; now apply Hjson).
    rewrite Hroom at 1.
    rewrite store_two_tied
      by (try assumption; try congruence; apply Hjson; congruence).
    destruct (zentry_ltb (entry_of m1) (entry_of m2)) eqn:E12;
      destruct (zentry_ltb (entry_of m2) (entry_of m1)) eqn:E21; try reflexivity.
    + exfalso. exact (zentry_lt_asym _ _ E12 E21).
    + exfalso. apply (zentry_lt_asym (entry_of m1) (entry_of m2)).
      * apply zentry_lt_total; simpl; [exact E21 | apply Hjson; congruence].
      * apply zentry_lt_total; simpl; [exact E12 | now apply Hjson].
Qed.

Lemma zinsert_last (e : zentry) (zs : list zentry) :
  Forall (fun x => zentry_lt x e) zs -> zinsert e zs = zs ++ [e].
Proof.
  induction 1 as [|x zs Hx _ IH]; [reflexivity|].
  simpl. unfold zentry_lt in Hx. now rewrite Hx, IH.
Qed.

Lemma zinsert_first (e : zentry) (zs : list zentry) :
  Forall (fun x => zentry_ltb x e = false) zs -> zinsert e zs = e :: zs.
Proof. intros H. destruct H as [|x zs Hx _]; [reflexivity|]. simpl. now rewrite Hx. Qed.

Lemma zinsert_length (e : zentry) (zs : list zentry) :
  length (zinsert e zs) = S (length zs).
Proof.
  induction zs as [|x zs IH]; [reflexivity|].
  simpl. destruct (zentry_ltb x e); simpl; now rewrite ?IH.
Qed.

Lemma zinsert_perm (e : zentry) (zs : list zentry) : zinsert e zs ≡ₚ e :: zs.
Proof.
  induction zs as [|x zs IH]; [reflexivity|].
  simpl. destruct (zentry_ltb x e); [|reflexivity].
  rewrite IH. apply Permutation_swap.
Qed.

Lemma store_all_snoc (cap : Z) (msgs : list ChatMessage.t) (m : ChatMessage.t)
    (r : Redis) :
  store_all cap (msgs ++ [m]) r = snd (store_message cap m (store_all cap msgs r)).
Proof. unfold store_all. now rewrite fold_left_app. Qed.

Lemma zsort_snoc (msgs : list ChatMessage.t) (m : ChatMessage.t) :
  zsort (msgs ++ [m]) = zinsert (entry_of m) (zsort msgs).
Proof. unfold zsort. now rewrite fold_left_app. Qed.

Lemma zsort_length (msgs : list ChatMessage.t) : length (zsort msgs) = length msgs.
Proof.
  induction msgs as [|m msgs IH] using rev_ind; [reflexivity|].
  rewrite zsort_snoc, zinsert_length, length_app, IH. simpl. lia.
Qed.

Lemma zsort_perm (msgs : list ChatMessage.t) : map snd (zsort msgs) ≡ₚ msgs.
Proof.
  induction msgs as [|m msgs IH] using rev_ind; [reflexivity|].
  rewrite zsort_snoc. change map with (@fmap list _).
  rewrite zinsert_perm. simpl. change (@fmap list _) with map in *.
  rewrite IH. apply Permutation_cons_append.
Qed.

Lemma zsort_elements (P : zentry -> Prop) (msgs : list ChatMessage.t) :
  Forall P (zsort msgs) <-> Forall (fun m => P (entry_of m)) msgs.
Proof.
  induction msgs as [|m msgs IH] using rev_ind.
  - split; constructor.
  - rewrite zsort_snoc, zinsert_elements, Forall_app, IH, Forall_singleton. tauto.
Qed.

Lemma NoDup_snoc_fresh (msgs : list ChatMessage.t) (m : ChatMessage.t) :
  NoDup (map message_json (msgs ++ [m])) ->
  NoDup (map message_json msgs) /\
  Forall (fun x => message_json x <> message_json m) msgs.
Proof.
  rewrite map_app. intros Hnd. apply NoDup_app in Hnd as (Hnd & Hfresh & _).
  split; [exact Hnd|]. apply Forall_forall. intros x Hx Heq.
  apply (Hfresh (message_json x)).
  - apply list_elem_of_In, in_map. now apply list_elem_of_In.
  - rewrite Heq. simpl. apply list_elem_of_here.
Qed.

Lemma zsort_sorted (msgs : list ChatMessage.t) :
  NoDup (map message_json msgs) -> zsorted (zsort msgs).
Proof.
  induction msgs as [|m msgs IH] using rev_ind; intros Hnd; [apply zsorted_nil|].
  apply NoDup_snoc_fresh in Hnd as [Hnd Hfresh].
  destruct (IH Hnd) as [Hs Hsc]. rewrite zsort_snoc. split.
  - apply zinsert_sorted; [exact Hs|]. now apply zsort_elements.
  - apply zinsert_elements. now split.
Qed.

Lemma zsort_chronological (msgs : list ChatMessage.t) :
  chronological msgs -> zsort msgs = map entry_of msgs.
Proof.
  induction msgs as [|m msgs IH] using rev_ind; intros Hchr; [reflexivity|].
  unfold chronological in Hchr. apply StronglySorted_app in Hchr as (Hlt & Hchr & _).
  rewrite zsort_snoc, (IH Hchr), map_app. apply zinsert_last.
  apply Forall_map, Forall_forall. intros x Hx.
  apply zentry_lt_spec. left. simpl.
  apply (Hlt x m); [exact Hx | apply list_elem_of_here].
Qed.

(** Inserting below the cut and dropping one more is the same as cutting
    first and dropping the lowest entry. *)
Lemma trim_after_insert (e : zentry) (a : nat) (zs : list zentry) :
  StronglySorted zentry_lt zs ->
  drop 1 (zinsert e (drop a zs)) = drop (S a) (zinsert e zs).
Proof.
  intros Hs. revert a. induction Hs as [|x zs Hs IH Hx]; intros a.
  - now destruct a.
  - destruct a as [|a]; [reflexivity|].
    simpl zinsert. destruct (zentry_ltb x e) eqn:E.
    + simpl. apply IH.
    + simpl. rewrite zinsert_first; [reflexivity|].
      apply Forall_drop. eapply Forall_impl; [exact Hx|].
      intros y Hxy. simpl. destruct (zentry_ltb y e) eqn:Ey; [|reflexivity].
      rewrite <- E. symmetry. exact (zentry_lt_trans _ _ _ Hxy Ey).
Qed.

(** Whatever the order of insertion, the room keeps the top [cap] entries of
    the sorted messages. *)
Lemma store_all_keeps_newest (cap : Z) (msgs : list ChatMessage.t) (room : string) :
  0 <= cap ->
  Forall (fun m => ChatMessage.chat_room_id m = room) msgs ->
  NoDup (map message_json msgs) ->
  room_zset (store_all cap msgs empty_redis) room
  = drop (length msgs - Z.to_nat cap) (zsort msgs).
Proof.
  intros Hcap. induction msgs as [|m msgs IH] using rev_ind; intros Hroom Hnd.
  - unfold room_zset. simpl. now rewrite lookup_empty.
  - apply Forall_app in Hroom as [Hroom Hm].
    apply Forall_cons in Hm as [Hm _].
    apply NoDup_snoc_fresh in Hnd as [Hnd Hfresh].
    specialize (IH Hroom Hnd).
    rewrite store_all_snoc, zsort_snoc. subst room.
    rewrite room_zset_store_message, IH.
    rewrite zadd_fresh
      by (apply Forall_drop, zsort_elements; exact Hfresh).
    change (timestamp_micros (ChatMessage.timestamp m), m) with (entry_of m).
    rewrite trim_keeps_newest by exact Hcap.
    rewrite zinsert_length, length_drop, zsort_length, length_app. simpl length.
    destruct (decide (length msgs + 1 <= Z.to_nat cap)%nat) as [Hle|Hgt].
    + replace (length msgs - Z.to_nat cap)%nat with 0%nat by lia.
      replace (S (length msgs - 0) - Z.to_nat cap)%nat with 0%nat by lia.
      replace (length msgs + 1 - Z.to_nat cap)%nat with 0%nat by lia.
      reflexivity.
    + replace (S (length msgs - (length msgs - Z.to_nat cap)) - Z.to_nat cap)%nat
        with 1%nat by lia.
      replace (length msgs + 1 - Z.to_nat cap)%nat
        with (S (length msgs - Z.to_nat cap)) by lia.
      apply trim_after_insert. apply zsort_sorted. exact Hnd.
Qed.

Lemma map_snd_entry_of (msgs : list ChatMessage.t) : map snd (map entry_of msgs) = msgs.
Proof. rewrite map_map. simpl. apply map_id. Qed.

(** Every stored message stays readable by its id, trimmed or not. *)
Lemma get_message_store_all (cap : Z) (msgs : list ChatMessage.t) (r : Redis)
    (m : ChatMessage.t) :
  NoDup (map ChatMessage.message_id msgs) -> In m msgs ->
  get_message (store_all cap msgs r) (ChatMessage.message_id m) = Some m.
Proof.
  induction msgs as [|m' msgs IH] using rev_ind; intros Hnd Hin; [destruct Hin|].
  rewrite store_all_snoc. unfold get_message, store_message. simpl.
  rewrite map_app in Hnd. apply NoDup_app in Hnd as (Hnd & Hfresh & _).
  apply in_app_or in Hin as [Hin|[<-|[]]].
  - rewrite lookup_insert_ne; [now apply IH|].
    intros Heq. apply (Hfresh (ChatMessage.message_id m)).
    + apply list_elem_of_In. now apply in_map.
    + rewrite <- Heq. simpl. apply list_elem_of_here.
  - apply lookup_insert_eq.
Qed.

(** C5, as stated, fails on the reads by id: with the default cap of 100,
    after 101 messages the oldest one, the one message beyond the cap, is
    still returned by [get_message], hence reachable. *)
Lemma trimmed_message_still_read_by_id :
  In (numbered_message 0)
     (take (length cap_plus_one_messages - Z.to_nat Config.MAX_CHAT_HISTORY)
           cap_plus_one_messages) /\
  reachable (store_all Config.MAX_CHAT_HISTORY cap_plus_one_messages empty_redis)
            (numbered_message 0).
Proof.
  split; [now left|]. right. apply get_message_store_all.
  - refine (bool_decide_unpack _ _). vm_compute. exact I.
  - now left.
Qed.

(** C5, amended.  Let [N] messages of a room, with ids of their own, be
    stored, in any order, under a cap [C >= 0], and let them be sorted the
    way the store sorts: by timestamp, oldest first.  Every store trims the
    room's sorted set to its [C] newest entries; the set ends up holding the
    [min N C] newest messages, and [get_recent_messages] with a limit
    [L >= 1] returns the [min N (min L C)] newest, oldest first.  With no
    limit whatsoever does it return one of the [N - C] oldest; each of the
    [N] messages stays readable by its id.  For messages stored in
    chronological order, sorted order and order of storing coincide. *)
Theorem get_recent_messages_newest_window
    (cap limit : Z) (msgs : list ChatMessage.t) (room : string) :
  0 <= cap -> 1 <= limit ->
  Forall (fun m => ChatMessage.chat_room_id m = room) msgs ->
  NoDup (map ChatMessage.message_id msgs) ->
  let r := store_all cap msgs empty_redis in
  let sorted := map snd (zsort msgs) in
  (sorted ≡ₚ msgs /\ StronglySorted message_before sorted /\
   (chronological msgs -> sorted = msgs)) /\
  (forall m r',
      ChatMessage.chat_room_id m = room ->
      let added := zadd (room_zset r' room) m
                     (timestamp_micros (ChatMessage.timestamp m)) in
      room_zset (snd (store_message cap m r')) room
      = drop (length added - Z.to_nat cap) added) /\
  map snd (room_zset r room) = drop (length msgs - Z.to_nat cap) sorted /\
  get_recent_messages r room limit
  = drop (length msgs - Z.to_nat (Z.min limit cap)) sorted /\
  (forall l m,
      In m (get_recent_messages r room l) ->
      In m (drop (length msgs - Z.to_nat cap) sorted)) /\
  (forall m, In m msgs -> get_message r (ChatMessage.message_id m) = Some m).
Proof.
  intros Hcap Hlimit Hroom Hids r sorted.
  pose proof (NoDup_message_json msgs Hids) as Hnd.
  pose proof (store_all_keeps_newest cap msgs room Hcap Hroom Hnd) as Hz.
  fold r in Hz.
  split; [|split; [|split; [|split; [|split]]]].
  - split; [apply zsort_perm|]. split.
    + apply zsorted_messages, zsort_sorted, Hnd.
    + intros Hchr. unfold sorted. rewrite (zsort_chronological _ Hchr).
      apply map_snd_entry_of.
  - intros m r' <-. cbv zeta. rewrite room_zset_store_message.
    now apply trim_keeps_newest.
  - rewrite Hz. unfold sorted. now rewrite skipn_map.
  - destruct (get_recent_messages_window r room limit) as (k & -> & Hk).
    rewrite Hk by exact Hlimit. rewrite Hz. unfold sorted.
    rewrite !skipn_map. f_equal.
    rewrite length_drop, zsort_length, drop_drop. f_equal. lia.
  - intros l m Hin.
    destruct (get_recent_messages_window r room l) as (k & Heq & _).
    rewrite Heq, Hz in Hin. unfold sorted. rewrite skipn_map.
    apply in_map_iff in Hin as (e & <- & Hin). apply in_map.
    apply list_elem_of_In. apply list_elem_of_In in Hin.
    eapply elem_of_sublist; [exact Hin | apply sublist_drop].
  - intros m Hin. now apply get_message_store_all.
Qed.

(** Beside C5: a limit of zero does not read zero messages.  The stop rank
    [limit - 1] is then [-1], Redis' last rank, and the read returns the
    whole retained set. *)
Lemma get_recent_messages_limit_zero (r : Redis) (room : string) :
  get_recent_messages r room 0 = map snd (room_zset r room).
Proof.
  unfold get_recent_messages, zrevrange, rank_range.
  set (zs := room_zset r room).
  assert (Hall : rev (map snd (take (length zs) (rev zs))) = map snd zs).
  { rewrite take_ge by (rewrite length_rev; lia).
    now rewrite map_rev, rev_involutive. }
  clearbody zs. case_ranks; try lia.
  - destruct zs; [reflexivity | simpl in *; lia].
  - rewrite <- Hall. change (drop (Z.to_nat 0) (rev zs)) with (rev zs).
    do 3 f_equal. lia.
Qed.

Lemma get_recent_messages_newest_window_witness :
  map snd (room_zset (store_all 2 three_messages empty_redis) "general")
  = drop (3 - 2) (map snd (zsort three_messages)) /\
  get_recent_messages (store_all 2 three_messages empty_redis) "general" 5
  = drop (3 - 2) (map snd (zsort three_messages)).
Proof.
  destruct (get_recent_messages_newest_window 2 5 three_messages "general")
    as (_ & _ & Hset & Hread & _).
  - lia.
  - lia.
  - repeat constructor.
  - refine (bool_decide_unpack _ _). vm_compute. exact I.
  - split; [exact Hset | exact Hread].
Defined.

(** *** The AI reply *)

(** C4, as stated, fails: when the call of the model times out, the handler
    stores and broadcasts an ai-type message, the apology that
    [generate_response] returns. *)
Lemma timeout_emits_ai_message :
  generation_failed (posted timed_out) = true /\
  emits_ai_message (fst (handle_ai_response timed_out "general" "hey styx" "alice")).
Proof.
  split; [reflexivity|].
  exists (ai_message timed_out "general"
            "Sorry, I'm taking too long to respond. Please try again.").
  split; [reflexivity|]. left. vm_compute. tauto.
Qed.

Lemma generation_failed_apology (res : post_result) :
  generation_failed res = true ->
  exists text, generate_response res = Some text /\ In text apologies.
Proof.
  unfold apologies. destruct res as [| |code [text|]]; simpl; intros H.
  - eexists. split; [reflexivity|]. simpl. tauto.
  - eexists. split; [reflexivity|]. simpl. tauto.
  - apply negb_true_iff in H. rewrite H. eexists. split; [reflexivity|].
    simpl. tauto.
  - destruct (code =? 200); eexists; (split; [reflexivity|]); simpl; tauto.
Qed.

(** C4, amended.  When the generation collaborator fails or times out and no
    other step raises, [generate_response] answers with one of three fixed
    apologies and the handler stores and broadcasts it as an ai-type message
    of the sender [ai_styx], between the two typing indicators. *)
Theorem failed_generation_sends_apology
    (c : Collaborators) (room_id user_message username : string) :
  generation_failed (posted c) = true ->
  no_faults c ->
  exists text,
    generate_response (posted c) = Some text /\ In text apologies /\
    ChatMessage.message_type (ai_message c room_id text) = AI /\
    handle_ai_response c room_id user_message username
    = ([BroadcastToRoom room_id (AI_TYPING true);
        GenerateResponse user_message username
          (trimmed_history (recent_messages c) user_message username)
          (match room_record c with
           | Some r => ChatRoom.ai_system_prompt r | None => None end)
          (match room_record c with
           | Some r => ChatRoom.ai_model r | None => None end);
        StoreMessage (ai_message c room_id text);
        BroadcastToRoom room_id (MESSAGE_RECEIVED (ai_message c room_id text));
        BroadcastToRoom room_id (AI_TYPING false)],
       Some tt).
Proof.
  intros Hfail Hok.
  destruct (generation_failed_apology _ Hfail) as (text & Hgen & Hin).
  exists text. split; [exact Hgen|]. split; [exact Hin|]. split; [reflexivity|].
  unfold handle_ai_response, at_step. rewrite !Hok, Hgen. simpl.
  assert (Htruthy : negb (String.eqb text "") = true).
  { unfold apologies in Hin. simpl in Hin.
    destruct Hin as [<-|[<-|[<-|[]]]]; reflexivity. }
  rewrite Htruthy. reflexivity.
Qed.

Lemma failed_generation_sends_apology_witness :
  exists text,
    generate_response (posted timed_out) = Some text /\ In text apologies /\
    ChatMessage.message_type (ai_message timed_out "general" text) = AI /\
    handle_ai_response timed_out "general" "hey styx" "alice"
    = ([BroadcastToRoom "general" (AI_TYPING true);
        GenerateResponse "hey styx" "alice" [] None None;
        StoreMessage (ai_message timed_out "general" text);
        BroadcastToRoom "general" (MESSAGE_RECEIVED (ai_message timed_out "general" text));
        BroadcastToRoom "general" (AI_TYPING false)],
       Some tt).
Proof.
  apply (failed_generation_sends_apology timed_out "general" "hey styx" "alice").
  - reflexivity.
  - intros s. reflexivity.
Defined.

(** No AI message goes out when the model answers with blank text. *)
Lemma blank_generation_emits_nothing
    (c : Collaborators) (room_id user_message username : string) :
  truthy (generate_response (posted c)) = false ->
  ~ emits_ai_message (fst (handle_ai_response c room_id user_message username)).
Proof.
  intros Hblank (m & Hty & Hin).
  unfold handle_ai_response, at_step, bind, try_except, tell, ret, raise in Hin.
  repeat match type of Hin with
         | context [faulty c ?s] => destruct (faulty c s); simpl in Hin
         end;
    try rewrite Hblank in Hin; simpl in Hin;
    repeat match type of Hin with
           | context [faulty c ?s] => destruct (faulty c s); simpl in Hin
           end;
    destruct Hin as [Hin|(room & Hin)];
    repeat (destruct Hin as [Hin|Hin]; [discriminate Hin|]); exact Hin.
Qed.

Lemma handle_ai_response_ends_typing_off
    (c : Collaborators) (room_id user_message username : string) :
  last (fst (handle_ai_response c room_id user_message username))
  = Some (BroadcastToRoom room_id (AI_TYPING false)) /\
  snd (handle_ai_response c room_id user_message username) = Some tt.
Proof.
  unfold handle_ai_response, at_step, bind, try_except, tell, ret, raise.
  repeat match goal with
         | |- context [faulty c ?s] => destruct (faulty c s); simpl
         | |- context [truthy ?o] => destruct (truthy o); simpl
         end;
    split; reflexivity.
Qed.

Lemma untriggered_when_blank_or_help (content : string) :
  content = "" \/ lower_str content = "!help" ->
  should_trigger_ai_response content = false.
Proof.
  intros [->|H]; [reflexivity|].
  unfold should_trigger_ai_response.
  assert (Hl : py_lower content = chars "!help").
  { unfold lower_str in H.
    rewrite <- (list_ascii_of_string_of_list_ascii (py_lower content)), H.
    reflexivity. }
  rewrite Hl. reflexivity.
Qed.

(** C7.  The AI-response handler always ends by broadcasting the typing
    indicator [false] to the room and returns normally: whether generation
    succeeded, returned nothing, or any of its steps raised.  So does the
    handling of every inbound message of a connected user that triggers the
    AI; the indicator goes out after the generation call, if that was
    reached. *)
Theorem typing_indicator_always_cleared :
  (forall c room_id user_message username,
      exists t,
        handle_ai_response c room_id user_message username
        = (t ++ [BroadcastToRoom room_id (AI_TYPING false)], Some tt)) /\
  (forall help_content c cm user_id room_id raw_content info,
      user_info cm !! user_id = Some info ->
      should_trigger_ai_response (py_strip raw_content) = true ->
      exists t,
        handle_chat_message help_content c cm user_id room_id raw_content
        = (t ++ [BroadcastToRoom room_id (AI_TYPING false)], Some tt)).
Proof.
  assert (Hai : forall c room_id user_message username,
             exists t,
               handle_ai_response c room_id user_message username
               = (t ++ [BroadcastToRoom room_id (AI_TYPING false)], Some tt)).
  { intros c room_id user_message username.
    destruct (handle_ai_response_ends_typing_off c room_id user_message username)
      as [Hlast Hres].
    apply last_Some in Hlast as [t Ht]. exists t.
    destruct (handle_ai_response c room_id user_message username) as [t' res].
    simpl in *. now subst. }
  split; [exact Hai|].
  intros help_content c cm user_id room_id raw_content info Hinfo Htrig.
  unfold handle_chat_message. rewrite Hinfo, Htrig.
  destruct (String.eqb_spec (py_strip raw_content) "") as [E|_].
  { rewrite untriggered_when_blank_or_help in Htrig by (now left). discriminate. }
  destruct (String.eqb_spec (lower_str (py_strip raw_content)) "!help") as [E|_].
  { rewrite untriggered_when_blank_or_help in Htrig by (now right). discriminate. }
  destruct (Hai c room_id (py_strip raw_content) (ConnectionInfo.username info))
    as [t Ht].
  unfold bind, tell. rewrite Ht. simpl.
  eexists (_ :: _ :: t). reflexivity.
Qed.

(** *** Clearing a room's messages *)

(** C10.  An admin's request to clear the messages of an existing room
    always ends in the internal error 500: the attribute
    [clear_room_messages] does not resolve on the chat manager, whatever such
    a method would do; the store, and with it the room's messages, is left
    as it was. *)
Theorem clear_room_messages_always_fails
    (callee : string -> Redis -> (raised + bool) * Redis)
    (room_id : string) (r : Redis) (room : ChatRoom.t) :
  get_room r room_id = Some room ->
  ChatManager_hasattr "clear_room_messages" = false /\
  clear_room_messages callee "admin" room_id r
  = (HTTPException 500 "Failed to clear room messages", r) /\
  forall limit,
    get_recent_messages (snd (clear_room_messages callee "admin" room_id r))
      room_id limit
    = get_recent_messages r room_id limit.
Proof.
  intros Hroom.
  assert (H : clear_room_messages callee "admin" room_id r
              = (HTTPException 500 "Failed to clear room messages", r)).
  { unfold clear_room_messages. rewrite Hroom. reflexivity. }
  split; [reflexivity|]. split; [exact H|]. intros limit. now rewrite H.
Qed.

Lemma clear_room_messages_always_fails_witness :
  get_room one_room_redis "general" = Some (mk_room "general" false []) /\
  clear_room_messages (fun _ r => (inr true, r)) "admin" "general" one_room_redis
  = (HTTPException 500 "Failed to clear room messages", one_room_redis).
Proof.
  split; [reflexivity|].
  apply (clear_room_messages_always_fails
           (fun _ r => (inr true, r)) "general" one_room_redis
           (mk_room "general" false [])).
  reflexivity.
Defined.

(** *** The connection registry: what it keeps *)

Lemma consistent_empty : consistent empty_manager.
Proof.
  unfold consistent, empty_manager. simpl. repeat split.
  - rewrite lookup_empty. now intros [? ?].
  - rewrite lookup_empty. now intros [? ?].
  - intros u info H. now rewrite lookup_empty in H.
  - intros u info H. now rewrite lookup_empty in H.
  - intros room ms H. now rewrite lookup_empty in H.
Qed.

Lemma consistent_register (ws : WebSocket) (uid username room ws_id : string)
    (cm : ConnectionManager) :
  consistent cm -> consistent (register ws uid username room ws_id cm).
Proof.
  intros (Hkeys & Hid & Hseat & Hne). unfold consistent, register. simpl.
  split; [|split; [|split]].
  - intros u. destruct (decide (uid = u)) as [<-|Hu].
    + rewrite !lookup_insert_eq. split; intros _; eexists; reflexivity.
    + rewrite !lookup_insert_ne by exact Hu. apply Hkeys.
  - intros u info. destruct (decide (uid = u)) as [<-|Hu].
    + rewrite lookup_insert_eq. now intros [= <-].
    + rewrite lookup_insert_ne by exact Hu. apply Hid.
  - intros u info. destruct (decide (uid = u)) as [<-|Hu].
    + rewrite lookup_insert_eq. intros [= <-]. simpl.
      rewrite lookup_insert_eq. eexists. split; [reflexivity|].
      apply elem_of_union_r. now apply elem_of_singleton.
    + rewrite lookup_insert_ne by exact Hu. intros Hinfo.
      destruct (Hseat _ _ Hinfo) as (ms & Hms & Hin).
      destruct (decide (room = ConnectionInfo.room_id info)) as [->|Hr].
      * rewrite lookup_insert_eq, Hms. simpl. eexists. split; [reflexivity|].
        now apply elem_of_union_l.
      * rewrite lookup_insert_ne by exact Hr. now exists ms.
  - intros r ms. destruct (decide (room = r)) as [<-|Hr].
    + rewrite lookup_insert_eq. intros [= <-] He.
      assert (Hin : uid ∈ default ∅ (room_members cm !! room) ∪ {[uid]})
        by (apply elem_of_union_r; now apply elem_of_singleton).
      rewrite He in Hin. now apply not_elem_of_empty in Hin.
    + rewrite lookup_insert_ne by exact Hr. apply Hne.
Qed.

Lemma consistent_unregister (v : string) (cm : ConnectionManager)
    (info : ConnectionInfo.t) :
  consistent cm -> user_info cm !! v = Some info ->
  consistent (unregister v (ConnectionInfo.room_id info) cm).
Proof.
  intros (Hkeys & Hid & Hseat & Hne) Hv. unfold consistent, unregister. simpl.
  split; [|split; [|split]].
  - intros u. destruct (decide (v = u)) as [<-|Hu].
    + rewrite !lookup_delete_eq. split; intros [? ?]; discriminate.
    + rewrite !lookup_delete_ne by exact Hu. apply Hkeys.
  - intros u i H. apply lookup_delete_Some in H as [_ H]. now apply Hid.
  - intros u i H. apply lookup_delete_Some in H as [Hu H].
    destruct (Hseat _ _ H) as (ms & Hms & Hin).
    destruct (room_members cm !! ConnectionInfo.room_id info) as [ms_v|] eqn:Er;
      [|now exists ms].
    destruct (decide (ConnectionInfo.room_id info = ConnectionInfo.room_id i))
      as [Hr|Hr].
    + rewrite Hr in Er. assert (ms_v = ms) by congruence. subst ms_v.
      assert (Hin' : u ∈ ms ∖ {[v]}).
      { apply elem_of_difference. split; [exact Hin|].
        rewrite elem_of_singleton. congruence. }
      destruct (decide (ms ∖ {[v]} = ∅)) as [He|_].
      * rewrite He in Hin'. now apply not_elem_of_empty in Hin'.
      * exists (ms ∖ {[v]}). rewrite Hr, lookup_insert_eq. now split.
    + exists ms. split; [|exact Hin].
      destruct (decide (ms_v ∖ {[v]} = ∅)).
      * now rewrite lookup_delete_ne.
      * now rewrite lookup_insert_ne.
  - intros r ms.
    destruct (room_members cm !! ConnectionInfo.room_id info) as [ms_v|] eqn:Er;
      [|apply Hne].
    destruct (decide (ms_v ∖ {[v]} = ∅)) as [He|Hn].
    + intros H. apply lookup_delete_Some in H as [_ H]. now apply (Hne r).
    + destruct (decide (ConnectionInfo.room_id info = r)) as [<-|Hr].
      * rewrite lookup_insert_eq. now intros [= <-].
      * rewrite lookup_insert_ne by exact Hr. apply Hne.
Qed.

Lemma disconnect_fuel_keeps_consistent (fuel : nat) (v : string) :
  preserves consistent (fun _ => True) (disconnect_fuel fuel v).
Proof.
  apply preserves_disconnect_fuel.
  - intros cm u info Hc Hu. now apply consistent_unregister.
  - intros. now repeat split.
  - intros. now repeat split.
Qed.

(** Lifting an invariant of the nested disconnects to the four operations. *)
Section Lifting.
Context (I : ConnectionManager -> Prop) (Q : event -> Prop).
Hypothesis Hdisc : forall fuel v, preserves I Q (disconnect_fuel fuel v).

Lemma preserves_disconnect v : preserves I Q (disconnect v).
Proof. intros w w' t HI H. exact (Hdisc _ _ _ _ _ HI H). Qed.

Lemma preserves_send_to_user u f :
  Q (Sent u f) -> Q (SendFailed u f) -> preserves I Q (send_to_user u f).
Proof.
  intros HS HF. unfold send_to_user.
  apply (preserves_read _ _ (fun w0 =>
           send_to_user_with (disconnect_fuel (budget w0)) u f)).
  intros x. apply preserves_send; [|exact HS|exact HF].
  intros v. apply Hdisc.
Qed.

Lemma preserves_broadcast_to_room room f ex :
  frame_ok Q f -> preserves I Q (broadcast_to_room room f ex).
Proof.
  intros Hf. unfold broadcast_to_room.
  apply (preserves_read _ _ (fun w0 =>
           broadcast_to_room_with (disconnect_fuel (budget w0)) room f ex)).
  intros x. apply preserves_broadcast; [|exact Hf].
  intros v. apply Hdisc.
Qed.
End Lifting.

Lemma connect_keeps_consistent ws uid username room ws_id recent :
  preserves consistent (fun _ => True) (connect ws uid username room ws_id recent).
Proof.
  intros w w' t Hc Hrun. unfold connect in Hrun.
  apply and_then_inv in Hrun as (w1 & t1 & t2 & Hreg & Hrun & ->).
  injection Hreg as <- <-.
  assert (Hsend : forall u f, preserves consistent (fun _ => True) (send_to_user u f))
    by (intros; apply preserves_send_to_user;
        [apply disconnect_fuel_keeps_consistent | exact I | exact I]).
  assert (Hcast : forall r f ex,
             preserves consistent (fun _ => True) (broadcast_to_room r f ex))
    by (intros; apply preserves_broadcast_to_room;
        [apply disconnect_fuel_keeps_consistent | now repeat split]).
  revert Hrun. eapply preserves_and_then; [apply Hcast | |].
  - apply (preserves_read _ _ (fun w0 =>
             (send_to_user uid
                (CONNECTION_ESTABLISHED uid room
                   (get_active_users_info (manager w0) room)) ;;;
              for_each recent (fun m => send_to_user uid (MESSAGE_HISTORY m)) ;;;
              broadcast_to_room room
                (USER_LIST_UPDATED (get_active_users_info (manager w0) room))
                None))).
    intros x. apply preserves_and_then; [apply Hsend|].
    apply preserves_and_then; [|apply Hcast].
    apply preserves_for_each. intros m. apply Hsend.
  - simpl. now apply consistent_register.
Qed.

Lemma perform_keeps_consistent (q : request) :
  preserves consistent (fun _ => True) (perform q).
Proof.
  destruct q as [ws uid name room ws_id recent|uid|uid f|room f ex]; simpl.
  - apply connect_keeps_consistent.
  - apply preserves_disconnect. apply disconnect_fuel_keeps_consistent.
  - apply preserves_send_to_user;
      [apply disconnect_fuel_keeps_consistent | exact I | exact I].
  - apply preserves_broadcast_to_room;
      [apply disconnect_fuel_keeps_consistent | now repeat split].
Qed.

Lemma perform_returns (q : request) : returns (perform q).
Proof.
  destruct q; simpl.
  - apply connect_returns.
  - apply disconnect_returns.
  - apply send_to_user_returns.
  - apply broadcast_to_room_returns.
Qed.

(** X1. After any sequence of calls on the manager, started from the empty
    manager and whatever the sends on the wire do, every call has returned
    and the manager is consistent. *)
Theorem manager_stays_consistent (requests : list request) (outcomes : list bool) :
  exists w t,
    for_each requests perform {| manager := empty_manager; wire := outcomes |}
    = Some (w, t) /\
    consistent (manager w).
Proof.
  destruct (returns_for_each requests perform perform_returns
              {| manager := empty_manager; wire := outcomes |}) as (w & t & Hrun).
  exists w, t. split; [exact Hrun|].
  refine (proj1 (preserves_for_each consistent (fun _ => True) requests perform
                   perform_keeps_consistent _ _ _ _ Hrun)).
  apply consistent_empty.
Qed.

Lemma disconnect_fuel_keeps_untouched (uid : string) (f : frame) (fuel : nat)
    (v : string) :
  is_presence_frame f = false ->
  preserves (fun _ => True) (untouched_by uid f) (disconnect_fuel fuel v).
Proof.
  intros Hf. apply preserves_disconnect_fuel.
  - trivial.
  - intros cm u info _ _. repeat split; intros; intros H;
      try discriminate H; injection H as ? ?; subst f; discriminate.
  - intros l. repeat split; intros; intros H;
      try discriminate H; injection H as ? ?; subst f; discriminate.
Qed.

Lemma excluded_self (uid : string) : uid <> "" -> excluded (Some uid) uid = true.
Proof.
  intros H. unfold excluded. apply String.eqb_neq in H.
  now rewrite H, String.eqb_refl.
Qed.

Lemma excluded_other (e uid : string) : uid <> e -> excluded (Some e) uid = false.
Proof.
  intros H. unfold excluded. apply String.eqb_neq in H. rewrite H.
  apply andb_false_r.
Qed.

Lemma broadcast_to_room_untouched (room : string) (f : frame) (uid : string) :
  uid <> "" -> is_presence_frame f = false ->
  preserves (fun _ => True) (untouched_by uid f)
            (broadcast_to_room room f (Some uid)).
Proof.
  intros Hne Hf. unfold broadcast_to_room.
  apply (preserves_read _ _ (fun w0 =>
           broadcast_to_room_with (disconnect_fuel (budget w0)) room f (Some uid))).
  intros x. unfold broadcast_to_room_with.
  apply preserves_and_then; [apply preserves_emit; split; discriminate|].
  intros w w' t HI H.
  destruct (room_members (manager w) !! room) as [members|];
    [|injection H as <- <-; now split].
  revert H.
  apply (preserves_for_each (fun _ => True) (untouched_by uid f)); [|exact HI].
  intros u. destruct (decide (u = uid)) as [->|Hu].
  - rewrite excluded_self by exact Hne. apply preserves_skip.
  - rewrite excluded_other by exact Hu. apply preserves_send.
    + intros v. now apply disconnect_fuel_keeps_untouched.
    + split; [|discriminate]. intros [= ?]. contradiction.
    + split; [discriminate|]. intros [= ?]. contradiction.
Qed.

(** X2. A broadcast that excludes a user never sends its frame to that user,
    nor tries to: not in the loop over the members and not in the
    disconnects that failed sends set off. *)
Theorem broadcast_to_room_skips_excluded
    (room : string) (f : frame) (uid : string) (w w' : World) (t : list event) :
  uid <> "" -> is_presence_frame f = false ->
  broadcast_to_room room f (Some uid) w = Some (w', t) ->
  ~ In (Sent uid f) t /\ ~ In (SendFailed uid f) t.
Proof.
  intros Hne Hf Hrun.
  destruct (broadcast_to_room_untouched room f uid Hne Hf w w' t I Hrun) as [_ Hq].
  rewrite Forall_forall in Hq.
  split; intros Hin; apply list_elem_of_In in Hin;
    destruct (Hq _ Hin) as [H1 H2]; congruence.
Qed.

Lemma broadcast_to_room_skips_excluded_witness :
  "u1" <> "" /\
  exists w' t,
    broadcast_to_room "general" (USER_JOINED "u1" "alice") (Some "u1") two_user_world
    = Some (w', t) /\
    ~ In (Sent "u1" (USER_JOINED "u1" "alice")) t /\
    ~ In (SendFailed "u1" (USER_JOINED "u1" "alice")) t.
Proof.
  split; [discriminate|].
  destruct (broadcast_to_room_returns "general" (USER_JOINED "u1" "alice")
              (Some "u1") two_user_world) as (w' & t & Hrun).
  exists w', t. split; [exact Hrun|].
  apply (broadcast_to_room_skips_excluded "general" (USER_JOINED "u1" "alice") "u1"
           two_user_world w' t); [discriminate | reflexivity | exact Hrun].
Defined.

Lemma disconnect_fuel_keeps_disconnected (uid : string) (fuel : nat) (v : string) :
  preserves (disconnected uid) (fun _ => True) (disconnect_fuel fuel v).
Proof.
  apply preserves_disconnect_fuel.
  - intros cm u info H _. unfold disconnected, unregister. simpl.
    apply lookup_delete_None. now right.
  - intros. now repeat split.
  - intros. now repeat split.
Qed.

Lemma disconnect_fuel_disconnects (fuel : nat) (v : string) (w w' : World)
    (t : list event) :
  consistent (manager w) ->
  disconnect_fuel fuel v w = Some (w', t) -> disconnected v (manager w').
Proof.
  intros Hc Hrun.
  destruct (user_info (manager w) !! v) as [info|] eqn:Ev.
  - destruct fuel as [|fuel]; simpl in Hrun; rewrite Ev in Hrun; [discriminate|].
    apply and_then_inv in Hrun as (w1 & t1 & t2 & Hmod & Hrun & ->).
    injection Hmod as <- <-.
    revert Hrun. eapply (preserves_and_then (disconnected v) (fun _ => True)).
    + apply preserves_broadcast; [|now repeat split].
      intros u. apply disconnect_fuel_keeps_disconnected.
    + apply (preserves_read _ _ (fun w0 =>
               broadcast_to_room_with (disconnect_fuel fuel)
                 (ConnectionInfo.room_id info)
                 (USER_LIST_UPDATED
                    (get_active_users_info (manager w0)
                       (ConnectionInfo.room_id info))) None)).
      intros x. apply preserves_broadcast; [|now repeat split].
      intros u. apply disconnect_fuel_keeps_disconnected.
    + unfold disconnected. simpl. apply lookup_delete_eq.
  - assert (Hw : w' = w).
    { destruct fuel; simpl in Hrun; rewrite Ev in Hrun; now injection Hrun as <- <-. }
    subst w'. unfold disconnected.
    destruct Hc as (Hkeys & _).
    destruct (connections (manager w) !! v) eqn:Ec; [|reflexivity].
    destruct (proj1 (Hkeys v)) as [i Hi]; [rewrite Ec; now eexists|]. congruence.
Qed.

(** The loop of [broadcast_to_room] reaches every member that is not
    excluded and still connected when the loop is over. *)
Lemma fan_out_reaches (fuel : nat) (f : frame) (ex : option string) (v : string)
    (l : list string) (w w' : World) (t : list event) :
  consistent (manager w) ->
  for_each l
    (fun user_id =>
       if excluded ex user_id then skip
       else send_to_user_with (disconnect_fuel fuel) user_id f) w
  = Some (w', t) ->
  v ∈ l -> excluded ex v = false ->
  is_Some (connections (manager w') !! v) ->
  In (Sent v f) t.
Proof.
  set (body := fun user_id =>
         if excluded ex user_id then skip
         else send_to_user_with (disconnect_fuel fuel) user_id f).
  assert (Hbody_c : forall u, preserves consistent (fun _ => True) (body u)).
  { intros u. unfold body. destruct (excluded ex u); [apply preserves_skip|].
    apply preserves_send; try exact I.
    intros x. apply disconnect_fuel_keeps_consistent. }
  assert (Hbody_d : forall u, preserves (disconnected v) (fun _ => True) (body u)).
  { intros u. unfold body. destruct (excluded ex u); [apply preserves_skip|].
    apply preserves_send; try exact I.
    intros x. apply disconnect_fuel_keeps_disconnected. }
  revert w t. induction l as [|x l IH]; intros w t Hc Hrun Hin Hex Hlive.
  { now apply not_elem_of_nil in Hin. }
  simpl in Hrun. apply and_then_inv in Hrun as (w1 & t1 & t2 & Hx & Hrest & ->).
  apply in_or_app.
  assert (Hgone : disconnected v (manager w1) -> False).
  { intros Hd.
    pose proof (proj1 (preserves_for_each _ _ l body Hbody_d _ _ _ Hd Hrest)) as H.
    unfold disconnected in H. rewrite H in Hlive. now destruct Hlive. }
  destruct (decide (x = v)) as [->|Hxv].
  - left. unfold body in Hx. rewrite Hex in Hx. unfold send_to_user_with in Hx.
    destruct (connections (manager w) !! v) eqn:Ec.
    + destruct (wire w) as [|[] rest].
      * injection Hx as <- <-. now left.
      * injection Hx as <- <-. now left.
      * exfalso. apply Hgone.
        apply and_then_inv in Hx as (w2 & t3 & t4 & Hemit & Hdisc & ->).
        injection Hemit as <- <-.
        exact (disconnect_fuel_disconnects fuel v (with_wire rest w) _ _ Hc Hdisc).
    + exfalso. apply Hgone. injection Hx as <- <-. exact Ec.
  - right. apply (IH w1 t2).
    + exact (proj1 (Hbody_c x _ _ _ Hc Hx)).
    + exact Hrest.
    + apply elem_of_cons in Hin as [Hin|Hin]; [congruence | exact Hin].
    + exact Hex.
    + exact Hlive.
Qed.

(** X3. A failed send does not keep a broadcast from the other members: every
    member of the room that is not excluded and has a connection when the
    broadcast is over was sent the frame. *)
Theorem broadcast_to_room_reaches_survivors
    (room : string) (f : frame) (ex : option string) (w w' : World)
    (t : list event) (members : gset string) (v : string) :
  consistent (manager w) ->
  room_members (manager w) !! room = Some members -> v ∈ members ->
  excluded ex v = false ->
  broadcast_to_room room f ex w = Some (w', t) ->
  is_Some (connections (manager w') !! v) ->
  In (Sent v f) t.
Proof.
  intros Hc Hms Hv Hex Hrun Hlive.
  unfold broadcast_to_room, broadcast_to_room_with in Hrun.
  apply and_then_inv in Hrun as (w1 & t1 & t2 & Hemit & Hrun & ->).
  injection Hemit as <- <-. rewrite Hms in Hrun. right.
  apply (fan_out_reaches (budget w) f ex v (elements members) w w' t2);
    try assumption.
  now apply elem_of_elements.
Qed.

Lemma consistent_two_users : consistent (manager two_user_world).
Proof.
  unfold two_user_world. simpl.
  apply consistent_register, consistent_register, consistent_empty.
Qed.

Lemma broadcast_to_room_reaches_survivors_witness :
  consistent (manager two_users_quiet) /\
  room_members (manager two_users_quiet) !! "general" = Some {["u1"; "u2"]} /\
  exists w' t,
    broadcast_to_room "general" (AI_TYPING true) None two_users_quiet = Some (w', t) /\
    is_Some (connections (manager w') !! "u2") /\
    In (Sent "u2" (AI_TYPING true)) t.
Proof.
  split; [exact consistent_two_users|]. split; [reflexivity|].
  eexists _, _. split; [vm_compute; reflexivity|].
  match goal with
  | |- ?A /\ _ => assert (Hlive : A) by (eexists; vm_compute; reflexivity)
  end.
  split; [exact Hlive|].
  match type of Hlive with
  | is_Some (connections (manager ?W) !! _) =>
      match goal with
      | |- In _ ?T =>
          apply (broadcast_to_room_reaches_survivors "general" (AI_TYPING true) None
                   two_users_quiet W T {["u1"; "u2"]} "u2")
      end
  end.
  - exact consistent_two_users.
  - reflexivity.
  - apply elem_of_union_r. now apply elem_of_singleton.
  - reflexivity.
  - vm_compute. reflexivity.
  - exact Hlive.
Defined.

(** X4. A typing indicator of a registered user goes to the room as a
    broadcast that leaves the typist out: the frame names the typist by
    the name of its record, an absent flag counts as false, the typist is
    neither sent the frame nor tried, and every other member of the room
    that has a connection afterwards was sent it. *)
Theorem handle_user_typing_reaches_others_only
    (user_id room_id : string) (typing : option bool) (w : World)
    (info : ConnectionInfo.t) :
  user_info (manager w) !! user_id = Some info ->
  user_id <> "" ->
  consistent (manager w) ->
  let f := USER_TYPING user_id (ConnectionInfo.username info) (default false typing) in
  exists w' t,
    handle_user_typing user_id room_id typing w = Some (w', Broadcast room_id f :: t) /\
    ~ In (Sent user_id f) t /\ ~ In (SendFailed user_id f) t /\
    forall members v,
      room_members (manager w) !! room_id = Some members -> v ∈ members ->
      v <> user_id ->
      is_Some (connections (manager w') !! v) -> In (Sent v f) t.
Proof.
  intros Hinfo Hne Hc f.
  destruct (broadcast_to_room_returns room_id f (Some user_id) w) as (w' & t0 & Hrun).
  assert (Hhead : exists t, t0 = Broadcast room_id f :: t).
  { unfold broadcast_to_room, broadcast_to_room_with in Hrun.
    apply and_then_inv in Hrun as (w1 & t1 & t2 & Hemit & _ & ->).
    injection Hemit as <- <-. now exists t2. }
  destruct Hhead as [t ->]. exists w', t.
  split; [unfold handle_user_typing; now rewrite Hinfo|].
  destruct (broadcast_to_room_untouched room_id f user_id Hne eq_refl w w' _ I Hrun)
    as [_ Hq].
  apply Forall_cons in Hq as [_ Hq]. rewrite Forall_forall in Hq.
  split; [|split].
  - intros Hin. apply list_elem_of_In in Hin. destruct (Hq _ Hin) as [H _]. congruence.
  - intros Hin. apply list_elem_of_In in Hin. destruct (Hq _ Hin) as [_ H]. congruence.
  - intros members v Hms Hv Hvu Hlive.
    unfold broadcast_to_room, broadcast_to_room_with in Hrun.
    apply and_then_inv in Hrun as (w1 & t1 & t2 & Hemit & Hrun & Heq).
    injection Hemit as <- <-. injection Heq as ->. rewrite Hms in Hrun.
    apply (fan_out_reaches (budget w) f (Some user_id) v (elements members) w w' t2);
      try assumption.
    + now apply elem_of_elements.
    + now apply excluded_other.
Qed.

Lemma handle_user_typing_reaches_others_only_witness :
  user_info (manager two_users_quiet) !! "u1" = Some alice_info /\
  exists w' t,
    handle_user_typing "u1" "general" None two_users_quiet
    = Some (w', Broadcast "general" (USER_TYPING "u1" "alice" false) :: t) /\
    ~ In (Sent "u1" (USER_TYPING "u1" "alice" false)) t.
Proof.
  split; [reflexivity|].
  destruct (handle_user_typing_reaches_others_only "u1" "general" None
              two_users_quiet alice_info)
    as (w' & t & Hrun & Hnot & _).
  - reflexivity.
  - discriminate.
  - exact consistent_two_users.
  - exists w', t. split; [exact Hrun | exact Hnot].
Defined.

Lemma quiet_send (disc : string -> action) (u : string) (f : frame) (w : World) :
  wire w = [] ->
  send_to_user_with disc u f w
  = Some (w, match connections (manager w) !! u with
             | Some _ => [Sent u f]
             | None => []
             end).
Proof.
  intros Hw. unfold send_to_user_with. rewrite Hw.
  now destruct (connections (manager w) !! u).
Qed.

Lemma quiet_for_each {A} (l : list A) (body : A -> action)
    (out : A -> list event) (w : World) :
  (forall x, body x w = Some (w, out x)) ->
  for_each l body w = Some (w, flat_map out l).
Proof.
  intros Hbody. induction l as [|x l IH]; [reflexivity|].
  simpl. unfold and_then. now rewrite Hbody, IH.
Qed.

(** On a wire where no send fails a broadcast changes nothing. *)
Lemma quiet_broadcast (room : string) (f : frame) (ex : option string) (w : World) :
  wire w = [] ->
  broadcast_to_room room f ex w
  = Some (w, Broadcast room f :: deliveries (manager w) room f ex).
Proof.
  intros Hw. unfold broadcast_to_room, broadcast_to_room_with, deliveries.
  unfold and_then, emit.
  destruct (room_members (manager w) !! room) as [members|]; [|reflexivity].
  rewrite (quiet_for_each (elements members) _
             (fun user_id =>
                if excluded ex user_id then []
                else match connections (manager w) !! user_id with
                     | Some _ => [Sent user_id f]
                     | None => []
                     end)); [reflexivity|].
  intros u. destruct (excluded ex u); [reflexivity | now apply quiet_send].
Qed.

(** X5. What connecting amounts to when no send fails.  The manager is left
    with the three updates of the registration and nothing else; the room is
    told of the joiner, the joiner left out; the joiner is sent the
    confirmation and then the recent messages, one frame each, in the order
    given; the room, joiner included, is sent the user list that the
    confirmation carried. *)
Theorem connect_on_quiet_wire
    (websocket : WebSocket) (user_id username room_id ws_id : string)
    (recent : list ChatMessage.t) (w : World) :
  wire w = [] ->
  let w1 := with_manager (register websocket user_id username room_id ws_id) w in
  let active_users := get_active_users_info (manager w1) room_id in
  connect websocket user_id username room_id ws_id recent w
  = Some (w1,
          Broadcast room_id (USER_JOINED user_id username)
          :: deliveries (manager w1) room_id (USER_JOINED user_id username)
               (Some user_id)
          ++ Sent user_id (CONNECTION_ESTABLISHED user_id room_id active_users)
          :: map (fun m => Sent user_id (MESSAGE_HISTORY m)) recent
          ++ Broadcast room_id (USER_LIST_UPDATED active_users)
          :: deliveries (manager w1) room_id (USER_LIST_UPDATED active_users) None).
Proof.
  intros Hw w1 active_users.
  assert (Hw1 : wire w1 = []) by exact Hw.
  assert (Hconn : connections (manager w1) !! user_id = Some websocket)
    by (simpl; apply lookup_insert_eq).
  assert (Hsend : forall f, send_to_user user_id f w1 = Some (w1, [Sent user_id f])).
  { intros f. unfold send_to_user. rewrite quiet_send by exact Hw1.
    now rewrite Hconn. }
  unfold connect, and_then at 1. unfold modify. fold w1.
  unfold and_then at 1. rewrite (quiet_broadcast _ _ _ _ Hw1).
  fold active_users.
  unfold and_then at 1. rewrite Hsend.
  unfold and_then at 1.
  rewrite (quiet_for_each recent _ (fun m => [Sent user_id (MESSAGE_HISTORY m)]))
    by (intros m; apply Hsend).
  rewrite (quiet_broadcast _ _ _ _ Hw1).
  assert (Hmap : flat_map (fun m => [Sent user_id (MESSAGE_HISTORY m)]) recent
                 = map (fun m => Sent user_id (MESSAGE_HISTORY m)) recent).
  { induction recent as [|m l IH]; [reflexivity|]. simpl. now rewrite IH. }
  rewrite Hmap. reflexivity.
Qed.

Lemma connect_on_quiet_wire_witness :
  wire quiet_world = [] /\
  connect 1%nat "u1" "alice" "general" "ws-1" [numbered_message 0] quiet_world
  = Some ({| manager := register 1%nat "u1" "alice" "general" "ws-1" empty_manager;
             wire := [] |},
          [Broadcast "general" (USER_JOINED "u1" "alice");
           Sent "u1" (CONNECTION_ESTABLISHED "u1" "general"
                        [styx_data; ("u1", "alice")]);
           Sent "u1" (MESSAGE_HISTORY (numbered_message 0));
           Broadcast "general" (USER_LIST_UPDATED [styx_data; ("u1", "alice")]);
           Sent "u1" (USER_LIST_UPDATED [styx_data; ("u1", "alice")])]).
Proof.
  split; [reflexivity|].
  rewrite (connect_on_quiet_wire 1%nat "u1" "alice" "general" "ws-1"
             [numbered_message 0] quiet_world eq_refl).
  vm_compute. reflexivity.
Defined.


(** *** The message store: deleting, storing again, cleaning up *)

Lemma room_zset_set_zset (room room' : string) (zs : list zentry) (r r' : Redis) :
  chat_messages r' = set_zset room zs (chat_messages r) ->
  room_zset r' room' = if decide (room = room') then zs else room_zset r room'.
Proof.
  intros H. unfold room_zset. rewrite H. unfold set_zset.
  destruct (decide (room = room')) as [<-|Hne].
  - destruct zs; [now rewrite lookup_delete_eq | now rewrite lookup_insert_eq].
  - destruct zs; [now rewrite lookup_delete_ne | now rewrite lookup_insert_ne].
Qed.

Lemma zrevrange_nil (start stop : Z) : 0 <= start -> zrevrange [] start stop = [].
Proof.
  intros H. unfold zrevrange, rank_range. simpl length.
  case_ranks; try reflexivity; lia.
Qed.

Lemma get_recent_messages_elem (r : Redis) (room : string) (limit : Z)
    (m : ChatMessage.t) :
  In m (get_recent_messages r room limit) ->
  exists e, e ∈ room_zset r room /\ snd e = m.
Proof.
  destruct (get_recent_messages_window r room limit) as (k & -> & _).
  intros Hin. apply in_map_iff in Hin as (e & He & Hin). exists e.
  split; [|exact He]. apply list_elem_of_In in Hin.
  eapply elem_of_sublist; [exact Hin | apply sublist_drop].
Qed.

(** X6. Deleting a message by id.  An id that [get_message] does not know is
    answered with [False] and changes nothing.  Otherwise the answer is
    [True] and the record under the id is gone, the other records staying;
    the sorted set of the room named in the call loses the member equal to
    the message's JSON text and keeps the others in their order, so that no
    read of that room returns the message any more; the other rooms are left
    alone.  In particular a call that names another room than the
    message's removes the record but leaves the message in the history of
    its room. *)
Theorem delete_message_by_id (message_id room_id : string) (r : Redis) :
  match get_message r message_id with
  | None => delete_message message_id room_id r = (false, r)
  | Some m =>
      let r' := snd (delete_message message_id room_id r) in
      fst (delete_message message_id room_id r) = true /\
      get_message r' message_id = None /\
      (forall id, id <> message_id -> get_message r' id = get_message r id) /\
      room_zset r' room_id
      = filter (fun e => message_json (snd e) <> message_json m) (room_zset r room_id) /\
      (forall limit, ~ In m (get_recent_messages r' room_id limit)) /\
      (forall room limit,
          room <> room_id ->
          get_recent_messages r' room limit = get_recent_messages r room limit) /\
      (forall room, get_room r' room = get_room r room)
  end.
Proof.
  destruct (get_message r message_id) as [m|] eqn:Em;
    unfold delete_message; rewrite Em; [|reflexivity].
  cbv zeta. simpl snd. simpl fst.
  set (r' := {| chat_messages := _; chat_message := _; chat_room := _ |}).
  assert (Hz : forall room,
             room_zset r' room
             = if decide (room_id = room) then zrem (room_zset r room_id) m
               else room_zset r room)
    by (intros room; now apply room_zset_set_zset).
  assert (Hfilter : zrem (room_zset r room_id) m
                    = filter (fun e => message_json (snd e) <> message_json m)
                             (room_zset r room_id)).
  { unfold zrem. apply list_filter_iff. intros e. unfold same_member.
    split; intros H.
    - apply String.eqb_neq in H. congruence.
    - apply String.eqb_neq. congruence. }
  split; [reflexivity|]. split; [apply lookup_delete_eq|].
  split; [intros id Hid; unfold get_message; simpl; now apply lookup_delete_ne|].
  split; [rewrite Hz, decide_True by reflexivity; exact Hfilter|].
  split; [|split].
  - intros limit Hin.
    apply get_recent_messages_elem in Hin as (e & He & Hsnd).
    rewrite Hz, decide_True, Hfilter in He by reflexivity.
    apply list_elem_of_filter in He as [Hne _]. apply Hne. now rewrite Hsnd.
  - intros room limit Hne. apply get_recent_messages_of_zset.
    rewrite Hz. now rewrite decide_False by congruence.
  - reflexivity.
Qed.

Lemma filter_all {A} (P : A -> Prop) `{forall x, Decision (P x)} (l : list A) :
  Forall P l -> filter P l = l.
Proof.
  induction 1 as [|x l Hx _ IH]; [reflexivity|].
  rewrite filter_cons, decide_True by exact Hx. now rewrite IH.
Qed.

Lemma filter_zinsert_fresh (P : zentry -> Prop) `{forall e, Decision (P e)}
    (e : zentry) (zs : list zentry) :
  ~ P e -> Forall P zs -> filter P (zinsert e zs) = zs.
Proof.
  intros He Hzs. induction Hzs as [|x zs Hx Hzs IH]; simpl.
  - rewrite filter_cons, decide_False by exact He. reflexivity.
  - destruct (zentry_ltb x e).
    + rewrite filter_cons, decide_True by exact Hx. now rewrite IH.
    + rewrite filter_cons, decide_False by exact He.
      rewrite filter_cons, decide_True by exact Hx. f_equal.
      now apply filter_all.
Qed.

(** X7. Storing a message and deleting it again is a round trip for the
    history of a room that has space left: when no message of the room
    carries the id of the new one and the room holds fewer messages than
    the cap, the room's sorted set and every read of the room are afterwards
    as they were before, and the id is unknown again. *)
Theorem store_then_delete_restores
    (cap : Z) (m : ChatMessage.t) (r : Redis) (room : string) :
  ChatMessage.chat_room_id m = room ->
  Forall (fun e => ChatMessage.message_id (snd e) <> ChatMessage.message_id m)
         (room_zset r room) ->
  Z.of_nat (length (room_zset r room)) < cap ->
  let stored := snd (store_message cap m r) in
  let r' := snd (delete_message (ChatMessage.message_id m) room stored) in
  get_message stored (ChatMessage.message_id m) = Some m /\
  fst (delete_message (ChatMessage.message_id m) room stored) = true /\
  room_zset r' room = room_zset r room /\
  (forall limit,
      get_recent_messages r' room limit = get_recent_messages r room limit) /\
  get_message r' (ChatMessage.message_id m) = None.
Proof.
  intros <- Hids Hlen stored r'.
  assert (Hfresh : Forall (fun e => message_json (snd e) <> message_json m)
                          (room_zset r (ChatMessage.chat_room_id m))).
  { eapply Forall_impl; [exact Hids|]. intros e He Hj. apply He.
    now apply message_json_id. }
  assert (Hget : get_message stored (ChatMessage.message_id m) = Some m)
    by apply lookup_insert_eq.
  assert (Hstored : room_zset stored (ChatMessage.chat_room_id m)
                    = zinsert (timestamp_micros (ChatMessage.timestamp m), m)
                              (room_zset r (ChatMessage.chat_room_id m))).
  { unfold stored.
    rewrite room_zset_store_message, zadd_fresh by exact Hfresh.
    apply trim_short. rewrite zinsert_length. lia. }
  pose proof (delete_message_by_id (ChatMessage.message_id m)
                (ChatMessage.chat_room_id m) stored) as Hdel.
  rewrite Hget in Hdel. cbv zeta in Hdel. fold r' in Hdel.
  destruct Hdel as (Htrue & Hnone & _ & Hz & _).
  assert (Hroom : room_zset r' (ChatMessage.chat_room_id m)
                  = room_zset r (ChatMessage.chat_room_id m)).
  { rewrite Hz, Hstored. apply filter_zinsert_fresh; [|exact Hfresh].
    simpl. intros Hne. now apply Hne. }
  split; [exact Hget|]. split; [exact Htrue|]. split; [exact Hroom|].
  split; [|exact Hnone].
  intros limit. now apply get_recent_messages_of_zset.
Qed.

Lemma store_then_delete_restores_witness :
  room_zset
    (snd (delete_message "m0001" "general"
            (snd (store_message 5 (numbered_message 1) one_room_redis))))
    "general"
  = room_zset one_room_redis "general".
Proof.
  refine (proj1 (proj2 (proj2
            (store_then_delete_restores 5 (numbered_message 1) one_room_redis
               "general" _ _ _)))).
  - reflexivity.
  - vm_compute. repeat constructor. discriminate.
  - vm_compute. reflexivity.
Defined.

(** X8. What deleting a room removes from the store.  The room's record and
    the whole sorted set of its messages are gone, so every read of the room
    is empty; the records by id of the room's messages are gone as well,
    those of messages that the room had already trimmed included; records,
    sorted sets and messages of the other rooms are as before. *)
Theorem delete_room_removes_room_and_messages (room_id : string) (r : Redis) :
  let r' := snd (delete_room room_id r) in
  fst (delete_room room_id r) = true /\
  get_room r' room_id = None /\
  (forall limit, 1 <= limit -> get_recent_messages r' room_id limit = []) /\
  (forall id m,
      get_message r' id = Some m <->
      get_message r id = Some m /\ ChatMessage.chat_room_id m <> room_id) /\
  (forall room,
      room <> room_id ->
      get_room r' room = get_room r room /\
      forall limit,
        get_recent_messages r' room limit = get_recent_messages r room limit).
Proof.
  cbv zeta. unfold delete_room. simpl fst. simpl snd.
  split; [reflexivity|]. split; [apply lookup_delete_eq|]. split; [|split].
  - intros limit Hl. unfold get_recent_messages, room_zset. simpl.
    rewrite lookup_delete_eq. simpl. now rewrite zrevrange_nil by lia.
  - intros id m. unfold get_message. simpl.
    rewrite map_lookup_filter_Some. reflexivity.
  - intros room Hne. split.
    + unfold get_room. simpl. now apply lookup_delete_ne.
    + intros limit. apply get_recent_messages_of_zset.
      unfold room_zset. simpl. now rewrite lookup_delete_ne.
Qed.

Lemma zremrangebyrank_length (zs : list zentry) (cap : Z) :
  0 <= cap ->
  Z.of_nat (length (zremrangebyrank zs 0 (- (cap + 1)))) = Z.min (Z.of_nat (length zs)) cap.
Proof.
  intros Hcap. rewrite trim_keeps_newest by exact Hcap. rewrite length_drop. lia.
Qed.

Lemma zadd_length (zs : list zentry) (m : ChatMessage.t) (score : Z) :
  (length (zadd zs m score) <= S (length zs))%nat.
Proof.
  unfold zadd. rewrite zinsert_length.
  pose proof (length_filter (fun e => same_member m e = false) zs). lia.
Qed.

(** X9. The cap on a room's history holds after every store, whatever the
    room held before: under a cap [C >= 0] the room of the stored message
    holds at most [C] messages afterwards, at most one more than before, and
    with [C = 0] none at all; the store answers [True], the message can be
    read by its id, and the histories of the other rooms are as before. *)
Theorem store_message_keeps_cap (cap : Z) (m : ChatMessage.t) (r : Redis) :
  0 <= cap ->
  let r' := snd (store_message cap m r) in
  let room := ChatMessage.chat_room_id m in
  fst (store_message cap m r) = true /\
  Z.of_nat (length (room_zset r' room)) <= cap /\
  (length (room_zset r' room) <= S (length (room_zset r room)))%nat /\
  (forall limit, Z.of_nat (length (get_recent_messages r' room limit)) <= cap) /\
  get_message r' (ChatMessage.message_id m) = Some m /\
  (forall room' limit,
      room' <> room ->
      get_recent_messages r' room' limit = get_recent_messages r room' limit).
Proof.
  intros Hcap r' room.
  assert (Hlen : Z.of_nat (length (room_zset r' room))
                 = Z.min (Z.of_nat (length
                     (zadd (room_zset r room) m
                        (timestamp_micros (ChatMessage.timestamp m))))) cap).
  { unfold r', room. rewrite room_zset_store_message.
    now apply zremrangebyrank_length. }
  pose proof (zadd_length (room_zset r room) m
                (timestamp_micros (ChatMessage.timestamp m))) as Hadd.
  split; [reflexivity|]. split; [lia|]. split; [lia|]. split; [|split].
  - intros limit.
    destruct (get_recent_messages_window r' room limit) as (k & -> & _).
    rewrite length_map, length_drop.
    unfold zentry in *. lia.
  - apply lookup_insert_eq.
  - intros room' limit Hne. apply get_recent_messages_of_zset.
    unfold r', room_zset, store_message. simpl.
    rewrite lookup_insert_ne; [reflexivity|]. intros Heq. apply Hne. now rewrite <- Heq.
Qed.

Lemma store_message_keeps_cap_witness :
  Z.of_nat (length (room_zset (snd (store_message 0 (numbered_message 1) one_room_redis))
                      "general")) <= 0.
Proof.
  refine (proj1 (proj2 (store_message_keeps_cap 0 (numbered_message 1)
                          one_room_redis _))).
  lia.
Defined.

(** X10. A message that is older than everything a full room holds never
    shows in the room's history: the store answers [True] and the message
    can be read by its id, but the trim that follows the insertion removes
    it at once, and the sorted set and every read of the room are as they
    were. *)
Theorem store_message_older_than_full_room
    (cap : Z) (m : ChatMessage.t) (r : Redis) (room : string) :
  ChatMessage.chat_room_id m = room ->
  Z.of_nat (length (room_zset r room)) = cap ->
  Forall (fun e => ChatMessage.message_id (snd e) <> ChatMessage.message_id m)
         (room_zset r room) ->
  Forall (fun e => zentry_lt (entry_of m) e) (room_zset r room) ->
  let r' := snd (store_message cap m r) in
  fst (store_message cap m r) = true /\
  room_zset r' room = room_zset r room /\
  (forall limit, ~ In m (get_recent_messages r' room limit)) /\
  get_message r' (ChatMessage.message_id m) = Some m.
Proof.
  intros <- Hlen Hids Hold r'.
  set (zs := room_zset r (ChatMessage.chat_room_id m)) in *.
  assert (Hfresh : Forall (fun e => message_json (snd e) <> message_json m) zs).
  { eapply Forall_impl; [exact Hids|]. intros e He Hj. apply He.
    now apply message_json_id. }
  assert (Hz : room_zset r' (ChatMessage.chat_room_id m) = zs).
  { unfold r'. rewrite room_zset_store_message. fold zs.
    rewrite zadd_fresh by exact Hfresh.
    change (timestamp_micros (ChatMessage.timestamp m), m) with (entry_of m).
    rewrite zinsert_first.
    - rewrite trim_keeps_newest by lia. simpl length.
      replace (S (length zs) - Z.to_nat cap)%nat with 1%nat by lia. reflexivity.
    - eapply Forall_impl; [exact Hold|]. intros e He. simpl.
      destruct (zentry_ltb e (entry_of m)) eqn:E; [|reflexivity].
      exfalso. exact (zentry_lt_asym _ _ He E). }
  split; [reflexivity|]. split; [exact Hz|]. split; [|apply lookup_insert_eq].
  intros limit Hin. apply get_recent_messages_elem in Hin as (e & He & Hsnd).
  rewrite Hz in He. rewrite Forall_forall in Hfresh.
  apply (Hfresh e He). now rewrite Hsnd.
Qed.

Lemma store_message_older_than_full_room_witness :
  room_zset (snd (store_message 1 (numbered_message 0)
                    (store_all 1 [numbered_message 1] empty_redis))) "general"
  = room_zset (store_all 1 [numbered_message 1] empty_redis) "general" /\
  get_message (snd (store_message 1 (numbered_message 0)
                      (store_all 1 [numbered_message 1] empty_redis))) "m0000"
  = Some (numbered_message 0).
Proof.
  assert (E : room_zset (store_all 1 [numbered_message 1] empty_redis) "general"
              = [entry_of (numbered_message 1)]) by (vm_compute; reflexivity).
  destruct (store_message_older_than_full_room 1 (numbered_message 0)
              (store_all 1 [numbered_message 1] empty_redis) "general")
    as (_ & Hz & _ & Hget).
  - reflexivity.
  - rewrite E. reflexivity.
  - rewrite E. repeat constructor; discriminate.
  - rewrite E. constructor; [vm_compute; reflexivity | constructor].
  - split; [exact Hz | exact Hget].
Defined.

Lemma zinsert_app (e : zentry) (below rest : list zentry) :
  Forall (fun x => zentry_ltb x e = true) below ->
  zinsert e (below ++ rest) = below ++ zinsert e rest.
Proof.
  induction 1 as [|x below Hx _ IH]; [reflexivity|].
  simpl. now rewrite Hx, IH.
Qed.

(** Where an insertion into a sorted set puts the entry: after the entries
    below it and before the others. *)
Lemma zinsert_splits (e : zentry) (zs : list zentry) :
  StronglySorted zentry_lt zs ->
  exists below above,
    zs = below ++ above /\ zinsert e zs = below ++ e :: above /\
    Forall (fun x => zentry_ltb x e = true) below /\
    Forall (fun x => zentry_ltb x e = false) above.
Proof.
  induction 1 as [|x zs Hs (below & above & Heq & Hins & Hb & Ha) Hx]; simpl.
  - exists [], []. now repeat split.
  - destruct (zentry_ltb x e) eqn:E.
    + exists (x :: below), above. rewrite Hins, Heq. simpl.
      repeat split; [now constructor | exact Ha].
    + exists [], (x :: zs). repeat split; [constructor|].
      constructor; [exact E|].
      eapply Forall_impl; [exact Hx|]. intros y Hxy. simpl.
      destruct (zentry_ltb y e) eqn:Ey; [|reflexivity].
      rewrite <- E. symmetry. exact (zentry_lt_trans _ _ _ Hxy Ey).
Qed.

Lemma zadd_idempotent_trimmed (cap : Z) (zs : list zentry) (m : ChatMessage.t) :
  0 <= cap -> StronglySorted zentry_lt zs ->
  let score := timestamp_micros (ChatMessage.timestamp m) in
  let kept := zremrangebyrank (zadd zs m score) 0 (- (cap + 1)) in
  zremrangebyrank (zadd kept m score) 0 (- (cap + 1)) = kept.
Proof.
  intros Hcap Hs score kept.
  set (fresh := fun e : zentry => same_member m e = false).
  set (others := filter fresh zs).
  assert (Hothers : StronglySorted zentry_lt others)
    by now apply StronglySorted_filter_keeps.
  assert (Hfresh : Forall fresh others) by apply Forall_filter_holds.
  destruct (zinsert_splits (score, m) others Hothers)
    as (below & above & Heq & Hins & Hb & Ha).
  assert (Hfb : Forall fresh below /\ Forall fresh above)
    by (rewrite Heq in Hfresh; now apply Forall_app in Hfresh).
  destruct Hfb as [Hfb Hfa].
  assert (Hme : ~ fresh (score, m)).
  { unfold fresh, same_member. simpl. rewrite String.eqb_refl. discriminate. }
  assert (Hkept : kept = drop (length (below ++ (score, m) :: above) - Z.to_nat cap)
                              (below ++ (score, m) :: above)).
  { unfold kept, zadd. fold fresh. fold others. rewrite Hins.
    now apply trim_keeps_newest. }
  set (k := (length (below ++ (score, m) :: above) - Z.to_nat cap)%nat) in *.
  assert (Hlen : length (below ++ (score, m) :: above)
                 = S (length below + length above))
    by (rewrite length_app; simpl; lia).
  destruct (decide (k <= length below)%nat) as [Hk|Hk].
  - assert (Hk' : kept = drop k below ++ (score, m) :: above).
    { rewrite Hkept, drop_app_le by exact Hk. reflexivity. }
    rewrite Hk'. unfold zadd. fold fresh.
    rewrite filter_app, filter_cons, decide_False by exact Hme.
    rewrite (filter_all fresh (drop k below)) by now apply Forall_drop.
    rewrite (filter_all fresh above) by exact Hfa.
    rewrite zinsert_app by now apply Forall_drop.
    rewrite zinsert_first by exact Ha.
    apply trim_short. rewrite length_app, length_drop. simpl. lia.
  - assert (Hk' : kept = drop (k - S (length below)) above).
    { rewrite Hkept, drop_app_ge by lia.
      replace (k - length below)%nat with (S (k - S (length below))) by lia.
      reflexivity. }
    rewrite Hk'. unfold zadd. fold fresh.
    rewrite (filter_all fresh) by now apply Forall_drop.
    rewrite zinsert_first by now apply Forall_drop.
    rewrite trim_keeps_newest by exact Hcap. simpl length.
    rewrite length_drop.
    replace (S (length above - (k - S (length below))) - Z.to_nat cap)%nat
      with 1%nat by lia.
    reflexivity.
Qed.

(** X11. Storing a message a second time changes nothing.  In a room whose
    sorted set is in store order, a message that is stored again, as a
    client that retries would have it stored, takes the place it had: the
    history of the room holds it once, or not at all if the cap had already
    pushed it out, every read of every room answers as after the first
    store, and so does every read by id. *)
Theorem store_message_twice_is_once (cap : Z) (m : ChatMessage.t) (r : Redis) :
  0 <= cap ->
  zsorted (room_zset r (ChatMessage.chat_room_id m)) ->
  let once := snd (store_message cap m r) in
  let twice := snd (store_message cap m once) in
  (forall room, room_zset twice room = room_zset once room) /\
  (forall room limit,
      get_recent_messages twice room limit = get_recent_messages once room limit) /\
  (forall id, get_message twice id = get_message once id) /\
  (forall room, get_room twice room = get_room once room).
Proof.
  intros Hcap [Hs _] once twice.
  assert (Hz : forall room, room_zset twice room = room_zset once room).
  { intros room.
    destruct (decide (room = ChatMessage.chat_room_id m)) as [->|Hne].
    - unfold twice. rewrite room_zset_store_message.
      unfold once at 1 2. rewrite room_zset_store_message.
      now apply zadd_idempotent_trimmed.
    - unfold twice, room_zset, store_message. simpl.
      now rewrite lookup_insert_ne by congruence. }
  split; [exact Hz|]. split; [|split; [|reflexivity]].
  - intros room limit. apply get_recent_messages_of_zset, Hz.
  - intros id. unfold twice, get_message, store_message. simpl.
    destruct (decide (id = ChatMessage.message_id m)) as [->|Hne].
    + now rewrite !lookup_insert_eq.
    + now rewrite lookup_insert_ne by congruence.
Qed.

Lemma store_message_twice_is_once_witness :
  get_recent_messages
    (snd (store_message 5 (numbered_message 0)
            (snd (store_message 5 (numbered_message 0) empty_redis))))
    "general" 50
  = get_recent_messages (snd (store_message 5 (numbered_message 0) empty_redis))
      "general" 50.
Proof.
  refine (proj1 (proj2 (store_message_twice_is_once 5 (numbered_message 0)
                          empty_redis _ _)) "general" 50).
  - lia.
  - apply empty_redis_sorted.
Defined.

Lemma room_zset_cleanup (now : datetime) (r : Redis) (room : string) :
  room_zset (cleanup_expired_data now r) room
  = zremrangebyscore (room_zset r room) 0 (timestamp_micros now - 7 * 86400 * 1000000).
Proof.
  unfold room_zset, cleanup_expired_data. simpl. rewrite lookup_omap.
  destruct (chat_messages r !! room) as [zs|]; simpl; [|reflexivity].
  now destruct (zremrangebyscore zs 0 _).
Qed.

(** X12. The cleanup of expired data removes from every room's history the
    messages whose timestamp is at least seven days old (and not before
    1970) and no other: what stays is in the order it had, store order
    included, and every message a read returns afterwards is younger than
    seven days or older than 1970.  The cleanup touches neither the records
    by id, which therefore still answer for the removed messages, nor the
    rooms. *)
Theorem cleanup_expired_data_keeps_recent (now : datetime) (r : Redis) :
  let cutoff := timestamp_micros now - 7 * 86400 * 1000000 in
  let r' := cleanup_expired_data now r in
  (forall room,
      room_zset r' room
      = filter (fun e => ~ (0 <= fst e <= cutoff)) (room_zset r room)) /\
  (forall room, zsorted (room_zset r room) -> zsorted (room_zset r' room)) /\
  (forall room limit m,
      zsorted (room_zset r room) ->
      In m (get_recent_messages r' room limit) ->
      In m (map snd (room_zset r room)) /\
      (cutoff < timestamp_micros (ChatMessage.timestamp m)
       \/ timestamp_micros (ChatMessage.timestamp m) < 0)) /\
  (forall id, get_message r' id = get_message r id) /\
  (forall room, get_room r' room = get_room r room).
Proof.
  intros cutoff r'.
  assert (Hz : forall room,
             room_zset r' room
             = filter (fun e => ~ (0 <= fst e <= cutoff)) (room_zset r room)).
  { intros room. unfold r'. rewrite room_zset_cleanup. unfold zremrangebyscore.
    fold cutoff. apply list_filter_iff. intros e.
    rewrite andb_false_iff, Z.leb_gt, Z.leb_gt. lia. }
  split; [exact Hz|]. split; [|split; [|split; reflexivity]].
  - intros room [Hs Hsc]. rewrite Hz. split.
    + now apply StronglySorted_filter_keeps.
    + now apply Forall_filter_weaken.
  - intros room limit m [_ Hsc] Hin.
    apply get_recent_messages_elem in Hin as (e & He & <-).
    rewrite Hz in He. apply list_elem_of_filter in He as [Hout He].
    split; [apply in_map; now apply list_elem_of_In|].
    rewrite Forall_forall in Hsc. specialize (Hsc e He).
    rewrite Hsc in Hout. simpl in Hout. lia.
Qed.

(** X13. A limit that is not positive does not read nothing.  The stop rank
    [limit - 1] is then negative and counts from the oldest entry: a limit
    of [-k] returns all retained messages of the room but the [k] oldest,
    and a limit of zero returns all of them. *)
Theorem get_recent_messages_nonpositive_limit (r : Redis) (room : string) (limit : Z) :
  limit <= 0 ->
  get_recent_messages r room limit
  = map snd (drop (Z.to_nat (- limit)) (room_zset r room)).
Proof.
  intros Hl. unfold get_recent_messages, zrevrange, rank_range.
  set (zs := room_zset r room).
  assert (Hcut : forall k : nat,
             rev (map snd (take k (rev zs))) = map snd (drop (length zs - k) zs)).
  { intros k. now rewrite <- map_rev, rev_take_rev. }
  clearbody zs. case_ranks; try lia.
  - rewrite drop_ge by lia. reflexivity.
  - rewrite drop_ge by lia. reflexivity.
  - change (drop (Z.to_nat 0) (rev zs)) with (rev zs). rewrite Hcut.
    do 2 f_equal. lia.
Qed.

Lemma get_recent_messages_nonpositive_limit_witness :
  get_recent_messages one_room_redis "general" 0 = [numbered_message 0] /\
  get_recent_messages one_room_redis "general" (-1) = [].
Proof.
  split.
  - rewrite (get_recent_messages_nonpositive_limit one_room_redis "general" 0)
      by lia.
    reflexivity.
  - rewrite (get_recent_messages_nonpositive_limit one_room_redis "general" (-1))
      by lia.
    reflexivity.
Defined.

(** *** Rooms and their assigned users *)

Lemma get_room_update_assigned (room_id : string) (users : list string)
    (r : Redis) (room : ChatRoom.t) :
  get_room r room_id = Some room ->
  exists room',
    get_room (snd (update_room room_id None None None None (Some users) r)) room_id
    = Some room' /\
    ChatRoom.assigned_users room' = users /\
    ChatRoom.room_id room' = ChatRoom.room_id room /\
    ChatRoom.room_name room' = ChatRoom.room_name room /\
    ChatRoom.created_at room' = ChatRoom.created_at room /\
    ChatRoom.is_private room' = ChatRoom.is_private room.
Proof.
  intros Hroom. unfold update_room. rewrite Hroom. simpl.
  eexists. split; [apply lookup_insert_eq|]. now repeat split.
Qed.


Lemma occurrences_cons (x y : string) (l : list string) :
  occurrences x (y :: l)
  = ((if decide (y = x) then 1 else 0) + occurrences x l)%nat.
Proof. unfold occurrences. rewrite filter_cons. now destruct (decide (y = x)). Qed.

Lemma occurrences_positive (x : string) (l : list string) :
  (0 < occurrences x l)%nat <-> In x l.
Proof.
  induction l as [|y l IH]; simpl.
  - unfold occurrences. simpl. split; [lia | tauto].
  - rewrite occurrences_cons. destruct (decide (y = x)) as [->|Hne].
    + split; [now left | lia].
    + rewrite <- IH. split; [intros H; right; lia | intros [?|?]; [congruence | lia]].
Qed.

Lemma occurrences_list_remove (x y : string) (l : list string) :
  occurrences y (list_remove x l)
  = if decide (y = x) then pred (occurrences y l) else occurrences y l.
Proof.
  induction l as [|z l IH]; simpl.
  - now destruct (decide (y = x)).
  - destruct (String.eqb_spec z x) as [->|Hzx].
    + rewrite occurrences_cons. destruct (decide (y = x)) as [->|Hne].
      * rewrite decide_True by reflexivity. reflexivity.
      * rewrite decide_False by congruence. reflexivity.
    + rewrite !occurrences_cons, IH.
      destruct (decide (y = x)) as [->|Hne].
      * rewrite decide_False by exact Hzx. reflexivity.
      * reflexivity.
Qed.

Lemma occurrences_NoDup (x : string) (l : list string) :
  NoDup l -> (occurrences x l <= 1)%nat.
Proof.
  induction 1 as [|y l Hy Hnd IH]; [unfold occurrences; simpl; lia|].
  rewrite occurrences_cons. destruct (decide (y = x)) as [->|Hne]; [|lia].
  assert (~ (0 < occurrences x l)%nat); [|lia].
  rewrite occurrences_positive. intros Hin. apply Hy. now apply list_elem_of_In.
Qed.

Lemma list_remove_snoc (x : string) (l : list string) :
  ~ In x l -> list_remove x (l ++ [x]) = l.
Proof.
  induction l as [|y l IH]; simpl; intros Hnot.
  - now rewrite String.eqb_refl.
  - destruct (String.eqb_spec y x) as [->|Hne]; [tauto|].
    rewrite IH; tauto.
Qed.

Lemma assigned_may_enter (room : ChatRoom.t) (uid role : string) (kid : bool) :
  In uid (ChatRoom.assigned_users room) ->
  can_user_access_room room uid role kid = true.
Proof.
  intros Hin. apply py_in_spec in Hin. unfold can_user_access_room. rewrite Hin.
  destruct (String.eqb role "admin"), kid,
    (String.eqb (ChatRoom.room_id room) "general"), (ChatRoom.is_private room);
    reflexivity.
Qed.


(** X15. Unassigning a user from a room.  For a room the store does not know
    the answer is [False] and nothing is written.  Otherwise the answer is
    [True] and the room's record loses the first mention of the user among
    its assigned users, if there is one: the user is named once less, every
    other user as often as before.  So the user is no longer named when the
    list had no duplicates, and then an account that is no admin can enter
    the room only as far as the room itself allows (a kid the default room,
    others a room that is not private); a user named twice stays assigned.
    Unassigning right after assigning a user that was not named restores the
    list. *)
Theorem unassign_user_from_room_revokes (room_id user_id : string) (r : Redis) :
  match get_room r room_id with
  | None => unassign_user_from_room room_id user_id r = (false, r)
  | Some room =>
      let r' := snd (unassign_user_from_room room_id user_id r) in
      fst (unassign_user_from_room room_id user_id r) = true /\
      exists room',
        get_room r' room_id = Some room' /\
        ChatRoom.assigned_users room' = list_remove user_id (ChatRoom.assigned_users room) /\
        (forall other,
            occurrences other (ChatRoom.assigned_users room')
            = if decide (other = user_id)
              then pred (occurrences other (ChatRoom.assigned_users room))
              else occurrences other (ChatRoom.assigned_users room)) /\
        (NoDup (ChatRoom.assigned_users room) ->
         ~ In user_id (ChatRoom.assigned_users room') /\
         forall role kid,
           role <> "admin" ->
           can_user_access_room room' user_id role kid
           = if kid then String.eqb (ChatRoom.room_id room) "general"
             else negb (ChatRoom.is_private room)) /\
        ((2 <= occurrences user_id (ChatRoom.assigned_users room))%nat ->
         forall role kid, can_user_access_room room' user_id role kid = true) /\
        (~ In user_id (ChatRoom.assigned_users room) ->
         exists back,
           get_room (snd (unassign_user_from_room room_id user_id
                            (snd (assign_user_to_room room_id user_id r)))) room_id
           = Some back /\
           ChatRoom.assigned_users back = ChatRoom.assigned_users room)
  end.
Proof.
  destruct (get_room r room_id) as [room|] eqn:Hroom;
    [|unfold unassign_user_from_room; now rewrite Hroom].
  assert (E : unassign_user_from_room room_id user_id r
              = if py_in user_id (ChatRoom.assigned_users room) then
                  (true,
                   snd (update_room room_id None None None None
                          (Some (list_remove user_id (ChatRoom.assigned_users room))) r))
                else (true, r))
    by (unfold unassign_user_from_room; now rewrite Hroom).
  rewrite E. clear E. cbv zeta.
  assert (Hrest : forall room',
             ChatRoom.assigned_users room'
             = list_remove user_id (ChatRoom.assigned_users room) ->
             ChatRoom.room_id room' = ChatRoom.room_id room ->
             ChatRoom.is_private room' = ChatRoom.is_private room ->
             (forall other,
                 occurrences other (ChatRoom.assigned_users room')
                 = if decide (other = user_id)
                   then pred (occurrences other (ChatRoom.assigned_users room))
                   else occurrences other (ChatRoom.assigned_users room)) /\
             (NoDup (ChatRoom.assigned_users room) ->
              ~ In user_id (ChatRoom.assigned_users room') /\
              forall role kid,
                role <> "admin" ->
                can_user_access_room room' user_id role kid
                = if kid then String.eqb (ChatRoom.room_id room) "general"
                  else negb (ChatRoom.is_private room)) /\
             ((2 <= occurrences user_id (ChatRoom.assigned_users room))%nat ->
              forall role kid, can_user_access_room room' user_id role kid = true)).
  { intros room' Hus Hid Hpriv.
    assert (Hocc : forall other,
               occurrences other (ChatRoom.assigned_users room')
               = if decide (other = user_id)
                 then pred (occurrences other (ChatRoom.assigned_users room))
                 else occurrences other (ChatRoom.assigned_users room))
      by (intros other; rewrite Hus; apply occurrences_list_remove).
    split; [exact Hocc|]. split.
    - intros Hnd.
      assert (Hnot : ~ In user_id (ChatRoom.assigned_users room')).
      { rewrite <- occurrences_positive, Hocc, decide_True by reflexivity.
        pose proof (occurrences_NoDup user_id _ Hnd). lia. }
      split; [exact Hnot|]. intros role kid Hrole.
      unfold can_user_access_room. apply String.eqb_neq in Hrole.
      rewrite Hrole, Hid, Hpriv.
      assert (Hpy : py_in user_id (ChatRoom.assigned_users room') = false).
      { destruct (py_in user_id (ChatRoom.assigned_users room')) eqn:E; [|reflexivity].
        apply py_in_spec in E. contradiction. }
      rewrite Hpy.
      destruct kid, (String.eqb (ChatRoom.room_id room) "general"),
        (ChatRoom.is_private room); reflexivity.
    - intros Htwice role kid. apply assigned_may_enter.
      apply occurrences_positive. rewrite Hocc, decide_True by reflexivity. lia. }
  assert (Hback : ~ In user_id (ChatRoom.assigned_users room) ->
            exists back,
              get_room (snd (unassign_user_from_room room_id user_id
                               (snd (assign_user_to_room room_id user_id r)))) room_id
              = Some back /\
              ChatRoom.assigned_users back = ChatRoom.assigned_users room).
  { intros Hnot.
    assert (Hpy : py_in user_id (ChatRoom.assigned_users room) = false).
    { destruct (py_in user_id (ChatRoom.assigned_users room)) eqn:E; [|reflexivity].
      apply py_in_spec in E. contradiction. }
    unfold assign_user_to_room. rewrite Hroom, Hpy. simpl negb. cbv iota. simpl snd.
    destruct (get_room_update_assigned room_id
                (ChatRoom.assigned_users room ++ [user_id]) r room Hroom)
      as (room1 & Hroom1 & Hus1 & _).
    unfold unassign_user_from_room. rewrite Hroom1, Hus1.
    assert (Hpy1 : py_in user_id (ChatRoom.assigned_users room ++ [user_id]) = true)
      by (apply py_in_spec, in_or_app; right; now left).
    rewrite Hpy1. simpl snd.
    destruct (get_room_update_assigned room_id
                (list_remove user_id (ChatRoom.assigned_users room ++ [user_id]))
                _ room1 Hroom1)
      as (back & Hback & Hus & _).
    exists back. split; [exact Hback|]. rewrite Hus. now apply list_remove_snoc. }
  destruct (py_in user_id (ChatRoom.assigned_users room)) eqn:Hin.
  - simpl fst. simpl snd.
    destruct (get_room_update_assigned room_id
                (list_remove user_id (ChatRoom.assigned_users room)) r room Hroom)
      as (room' & Hroom' & Hus & Hid & _ & _ & Hpriv).
    split; [reflexivity|]. exists room'.
    split; [exact Hroom'|]. split; [exact Hus|].
    destruct (Hrest room' Hus Hid Hpriv) as (H1 & H2 & H3).
    split; [exact H1|]. split; [exact H2|]. split; [exact H3 | exact Hback].
  - simpl fst. simpl snd.
    assert (Hnot : ~ In user_id (ChatRoom.assigned_users room))
      by (rewrite <- py_in_spec; congruence).
    assert (Hsame : list_remove user_id (ChatRoom.assigned_users room)
                    = ChatRoom.assigned_users room).
    { clear -Hnot. induction (ChatRoom.assigned_users room) as [|y l IH];
        [reflexivity|]. simpl in *.
      destruct (String.eqb_spec y user_id) as [->|Hne]; [tauto|].
      rewrite IH; tauto. }
    split; [reflexivity|]. exists room.
    split; [exact Hroom|]. split; [now rewrite Hsame|].
    destruct (Hrest room (eq_sym Hsame) eq_refl eq_refl) as (H1 & H2 & H3).
    split; [exact H1|]. split; [exact H2|]. split; [exact H3 | exact Hback].
Qed.

Lemma has_colon_after_colon (pre rest : string) :
  has_colon (pre +:+ String ":" rest) = true.
Proof.
  induction pre as [|c pre IH]; [reflexivity|].
  change (has_colon (String c (pre +:+ String ":" rest)) = true).
  unfold has_colon in *. simpl. rewrite IH. apply orb_true_r.
Qed.

Lemma last_segment_after_colon (pre rest : string) :
  has_colon rest = false -> last_segment (pre +:+ String ":" rest) = rest.
Proof.
  intros H. induction pre as [|c pre IH].
  - change (last_segment (String ":" rest) = rest). simpl. now rewrite H.
  - change (last_segment (String c (pre +:+ String ":" rest)) = rest).
    simpl. now rewrite has_colon_after_colon.
Qed.

Lemma last_segment_room_key (room_id : string) :
  has_colon room_id = false -> last_segment ("chat:room:" +:+ room_id) = room_id.
Proof. apply (last_segment_after_colon "chat:room"). Qed.

Lemma lex_ltb_asym (a b : list Z) : lex_ltb a b = true -> lex_ltb b a = false.
Proof.
  revert b. induction a as [|x a IH]; intros [|y b]; simpl; try congruence.
  intros H. apply orb_true_iff in H as [H|H].
  - apply Z.ltb_lt in H.
    replace (y <? x) with false by (symmetry; apply Z.ltb_ge; lia).
    replace (y =? x) with false by (symmetry; apply Z.eqb_neq; lia). reflexivity.
  - apply andb_true_iff in H as [E H]. apply Z.eqb_eq in E. subst y.
    rewrite Z.ltb_irrefl, Z.eqb_refl. simpl. now apply IH.
Qed.

Lemma lex_not_ltb_trans (a b c : list Z) :
  lex_ltb a b = false -> lex_ltb b c = false -> lex_ltb a c = false.
Proof.
  revert b c. induction a as [|x a IH]; intros [|y b] [|z c]; simpl;
    try congruence.
  intros Hab Hbc.
  apply orb_false_iff in Hab as [Hxy Hab]. apply orb_false_iff in Hbc as [Hyz Hbc].
  apply Z.ltb_ge in Hxy, Hyz. apply orb_false_iff. split; [apply Z.ltb_ge; lia|].
  destruct (Z.eqb_spec x z) as [->|Hne]; [|reflexivity]. simpl.
  assert (y = z) by lia. subst y.
  rewrite Z.eqb_refl in Hab, Hbc. simpl in Hab, Hbc. now apply (IH b c).
Qed.

Lemma datetime_ltb_asym (a b : datetime) :
  datetime_ltb a b = true -> datetime_ltb b a = false.
Proof. apply lex_ltb_asym. Qed.

Lemma datetime_not_ltb_trans (a b c : datetime) :
  datetime_ltb a b = false -> datetime_ltb b c = false -> datetime_ltb a c = false.
Proof. apply lex_not_ltb_trans. Qed.

Lemma insert_by_key_reverse_perm {A} (key : A -> datetime) (x : A) (l : list A) :
  insert_by_key_reverse key x l ≡ₚ x :: l.
Proof.
  induction l as [|y l IH]; [reflexivity|].
  simpl. destruct (datetime_ltb (key x) (key y)); [|reflexivity].
  rewrite IH. apply Permutation_swap.
Qed.

Lemma sort_by_key_reverse_perm {A} (key : A -> datetime) (l : list A) :
  sort_by_key_reverse key l ≡ₚ l.
Proof.
  induction l as [|x l IH]; [reflexivity|].
  simpl. rewrite insert_by_key_reverse_perm. now rewrite IH.
Qed.

Lemma insert_by_key_reverse_sorted {A} (key : A -> datetime) (x : A) (l : list A) :
  StronglySorted (fun a b => datetime_ltb (key a) (key b) = false) l ->
  StronglySorted (fun a b => datetime_ltb (key a) (key b) = false)
                 (insert_by_key_reverse key x l).
Proof.
  induction 1 as [|y l Hs IH Hy]; simpl; [repeat constructor|].
  destruct (datetime_ltb (key x) (key y)) eqn:E.
  - constructor; [exact IH|].
    rewrite insert_by_key_reverse_perm. constructor; [|exact Hy].
    now apply datetime_ltb_asym.
  - constructor; [now constructor|]. constructor; [exact E|].
    eapply Forall_impl; [exact Hy|]. intros z Hz. simpl in Hz.
    eapply datetime_not_ltb_trans; eassumption.
Qed.

Lemma sort_by_key_reverse_sorted {A} (key : A -> datetime) (l : list A) :
  StronglySorted (fun a b => datetime_ltb (key a) (key b) = false)
                 (sort_by_key_reverse key l).
Proof.
  induction l as [|x l IH]; [constructor|]. simpl.
  now apply insert_by_key_reverse_sorted.
Qed.

(** X16. The rooms a user is offered.  In a store whose room ids hold no
    colon, [get_accessible_rooms] returns every room of the store that
    [can_user_access_room] lets the user enter, each once, and no other; the
    newest room comes first: no room in the list was created before one
    that follows it.  An admin is thus offered every room. *)
Theorem get_accessible_rooms_filters_and_sorts
    (r : Redis) (user_id user_role : string) (is_kid : bool) :
  (forall room_id, is_Some (chat_room r !! room_id) -> has_colon room_id = false) ->
  let rooms := get_accessible_rooms r user_id user_role is_kid in
  rooms ≡ₚ filter (fun room =>
                     can_user_access_room room user_id user_role is_kid = true)
                  (map snd (map_to_list (chat_room r))) /\
  (forall room,
      In room rooms <->
      (exists room_id, get_room r room_id = Some room) /\
      can_user_access_room room user_id user_role is_kid = true) /\
  StronglySorted not_older rooms /\
  (user_role = "admin" -> length rooms = size (chat_room r)).
Proof.
  intros Hkeys rooms.
  assert (Hperm : rooms ≡ₚ
            filter (fun room =>
                      can_user_access_room room user_id user_role is_kid = true)
                   (map snd (map_to_list (chat_room r)))).
  { unfold rooms, get_accessible_rooms. cbv zeta.
    rewrite sort_by_key_reverse_perm. unfold room_keys.
    assert (Hall : Forall (fun kv => chat_room r !! fst kv = Some (snd kv))
                          (map_to_list (chat_room r))).
    { apply Forall_forall. intros [k v] Hkv. now apply elem_of_map_to_list in Hkv. }
    induction Hall as [|[k v] l Hkv _ IH]; [reflexivity|].
    cbn [map flat_map fst snd] in *. rewrite filter_cons.
    rewrite last_segment_room_key by (apply Hkeys; rewrite Hkv; now eexists).
    unfold get_room at 1. rewrite Hkv.
    destruct (can_user_access_room v user_id user_role is_kid) eqn:E.
    - rewrite decide_True by reflexivity. simpl. now rewrite IH.
    - rewrite decide_False by discriminate. simpl. exact IH. }
  split; [exact Hperm|]. split; [|split].
  - intros room. rewrite <- list_elem_of_In, Hperm, list_elem_of_filter.
    rewrite list_elem_of_In, in_map_iff. split.
    + intros [Hacc ([k v] & <- & Hin)]. split; [|exact Hacc].
      exists k. apply list_elem_of_In, elem_of_map_to_list in Hin. exact Hin.
    + intros [[k Hk] Hacc]. split; [exact Hacc|]. exists (k, room).
      split; [reflexivity|]. now apply list_elem_of_In, elem_of_map_to_list.
  - apply (sort_by_key_reverse_sorted ChatRoom.created_at).
  - intros ->. rewrite Hperm.
    rewrite filter_all; [now rewrite length_map, length_map_to_list|].
    apply Forall_forall. intros room _. reflexivity.
Qed.

Lemma get_accessible_rooms_filters_and_sorts_witness :
  map ChatRoom.room_id (get_accessible_rooms two_room_redis "u7" "user" true)
  ≡ₚ ["general"; "room2"] /\
  map ChatRoom.room_id (get_accessible_rooms two_room_redis "u8" "user" true)
  ≡ₚ ["general"].
Proof.
  assert (Hkeys : forall room_id,
             is_Some (chat_room two_room_redis !! room_id) ->
             has_colon room_id = false).
  { intros k [room Hk]. simpl in Hk.
    apply lookup_insert_Some in Hk as [[<- _]|[_ Hk]]; [reflexivity|].
    apply lookup_singleton_Some in Hk as [<- _]. reflexivity. }
  split.
  - rewrite (proj1 (get_accessible_rooms_filters_and_sorts two_room_redis
                      "u7" "user" true Hkeys)).
    vm_compute. first [reflexivity | apply Permutation_swap].
  - rewrite (proj1 (get_accessible_rooms_filters_and_sorts two_room_redis
                      "u8" "user" true Hkeys)).
    vm_compute. reflexivity.
Defined.

(** *** The room endpoints *)

Section Stripping.
(** [strip] with the characters to cut given by [p]; [lstrip_p] cuts them
    off the front. *)
Variable p : ascii -> bool.
Variable lstrip_p : list ascii -> list ascii.
Hypothesis lstrip_nil : lstrip_p [] = [].
Hypothesis lstrip_cons :
  forall c s, lstrip_p (c :: s) = if p c then lstrip_p s else c :: s.

Lemma lstrip_cuts (s : list ascii) :
  exists cut,
    s = cut ++ lstrip_p s /\ Forall (fun c => p c = true) cut /\
    match lstrip_p s with c :: _ => p c = false | [] => True end.
Proof.
  induction s as [|c s (cut & Heq & Hd & Hh)].
  - exists []. rewrite lstrip_nil. now repeat split.
  - rewrite lstrip_cons. destruct (p c) eqn:Ec.
    + exists (c :: cut). split; [simpl; now f_equal|]. split; [now constructor|].
      exact Hh.
    + exists []. now repeat split.
Qed.

Lemma strip_cuts (s : list ascii) :
  let inner := rev (lstrip_p (rev (lstrip_p s))) in
  exists before after,
    s = before ++ inner ++ after /\
    Forall (fun c => p c = true) before /\
    Forall (fun c => p c = true) after /\
    match head inner with Some c => p c = false | None => True end /\
    match last inner with Some c => p c = false | None => True end.
Proof.
  cbv zeta.
  destruct (lstrip_cuts s) as (before & Hs & Hb & Hhead).
  destruct (lstrip_cuts (rev (lstrip_p s))) as (after & Hr & Ha & Hlast).
  set (inner := lstrip_p (rev (lstrip_p s))) in *.
  assert (Hmid : lstrip_p s = rev inner ++ rev after).
  { rewrite <- (rev_involutive (lstrip_p s)), Hr, rev_app_distr. reflexivity. }
  exists before, (rev after). split; [now rewrite <- Hmid|].
  split; [exact Hb|]. split; [now apply Forall_rev|]. split.
  - destruct (rev inner) as [|c rest] eqn:Ei; [exact I|]. simpl.
    rewrite Hmid in Hhead. exact Hhead.
  - replace (last (rev inner)) with (head inner)
      by (destruct inner; simpl; [reflexivity | now rewrite last_snoc]).
    destruct inner as [|c rest]; [exact I | exact Hlast].
Qed.

Lemma lstrip_fixed (s : list ascii) :
  match head s with Some c => p c = false | None => True end -> lstrip_p s = s.
Proof.
  destruct s as [|c s]; [intros _; apply lstrip_nil|].
  simpl. intros Hc. now rewrite lstrip_cons, Hc.
Qed.

Lemma strip_fixed (s : list ascii) :
  match head s with Some c => p c = false | None => True end ->
  match last s with Some c => p c = false | None => True end ->
  rev (lstrip_p (rev (lstrip_p s))) = s.
Proof.
  intros Hh Hl. rewrite (lstrip_fixed s Hh).
  rewrite lstrip_fixed; [apply rev_involutive|].
  replace (head (rev s)) with (last s); [exact Hl|].
  rewrite <- (rev_involutive s) at 1.
  destruct (rev s); simpl; [reflexivity | now rewrite last_snoc].
Qed.
End Stripping.

Lemma py_strip_cuts (s : string) :
  exists before after,
    chars s = before ++ chars (py_strip s) ++ after /\
    Forall (fun c => is_space c = true) before /\
    Forall (fun c => is_space c = true) after /\
    stripped (py_strip s).
Proof.
  destruct (strip_cuts is_space lstrip eq_refl (fun c s => eq_refl) (chars s))
    as (before & after & Hs & Hb & Ha & Hh & Hl).
  exists before, after. unfold stripped, py_strip, chars in *.
  rewrite list_ascii_of_string_of_list_ascii. now repeat split.
Qed.

Lemma py_strip_stripped (s : string) : stripped s -> py_strip s = s.
Proof.
  intros [Hh Hl]. unfold py_strip.
  rewrite (strip_fixed is_space lstrip eq_refl (fun c s => eq_refl) _ Hh Hl).
  apply string_of_list_ascii_of_string.
Qed.



















(** X19. Updating a room through the endpoint.  An unknown room is refused
    with 404 and anyone but an admin or the creator of the room with 403,
    nothing being written.  Otherwise the name, the AI prompt and the AI
    model take the stripped values of the request, each only if the request
    gives it; a name may thus become empty, and a prompt or model given
    blank is read back as absent.  The endpoint never changes the id, the
    creator, the creation time, the privacy or the assigned users of the
    room, nor any message or other room. *)
Theorem update_room_endpoint
    (room_data : RoomData.t) (user_id role room_id : string) (r : Redis) :
  let res := Endpoint.update_room room_data user_id role room_id r in
  match get_room r room_id with
  | None => res = (Endpoint.Refused 404 "Room not found", r)
  | Some room =>
      (role <> "admin" -> ChatRoom.created_by room <> Some user_id ->
       res = (Endpoint.Refused 403 "Only admin or room creator can update room settings", r)) /\
      (role = "admin" \/ ChatRoom.created_by room = Some user_id ->
       exists updated,
         fst res = Endpoint.Room_returned updated /\
         get_room (snd res) room_id = Some (as_stored updated) /\
         ChatRoom.room_name updated
         = match RoomData.room_name room_data with
           | Some name => py_strip name
           | None => ChatRoom.room_name room
           end /\
         ChatRoom.ai_system_prompt (as_stored updated)
         = or_none match RoomData.ai_system_prompt room_data with
                   | Some prompt => Some (py_strip prompt)
                   | None => ChatRoom.ai_system_prompt room
                   end /\
         ChatRoom.ai_model (as_stored updated)
         = or_none match RoomData.ai_model room_data with
                   | Some model => Some (py_strip model)
                   | None => ChatRoom.ai_model room
                   end /\
         ChatRoom.room_id updated = ChatRoom.room_id room /\
         ChatRoom.created_by updated = ChatRoom.created_by room /\
         ChatRoom.created_at updated = ChatRoom.created_at room /\
         ChatRoom.is_private updated = ChatRoom.is_private room /\
         ChatRoom.assigned_users updated = ChatRoom.assigned_users room /\
         chat_messages (snd res) = chat_messages r /\
         chat_message (snd res) = chat_message r /\
         forall other, other <> room_id -> get_room (snd res) other = get_room r other)
  end.
Proof.
  cbv zeta. unfold Endpoint.update_room.
  destruct (get_room r room_id) as [room|] eqn:Hroom; [|reflexivity].
  split.
  - intros Hrole Hcreator. apply String.eqb_neq in Hrole. rewrite Hrole.
    destruct (ChatRoom.created_by room) as [creator|]; [|reflexivity].
    destruct (String.eqb_spec creator user_id) as [->|_]; [congruence | reflexivity].
  - intros Hallowed.
    assert (Hguard : negb (String.eqb role "admin")
                     && negb match ChatRoom.created_by room with
                             | Some creator => String.eqb creator user_id
                             | None => false
                             end = false).
    { destruct Hallowed as [-> | ->]; [reflexivity|].
      rewrite String.eqb_refl. apply andb_false_r. }
    rewrite Hguard. unfold update_room. rewrite Hroom.
    eexists. split; [reflexivity|]. simpl.
    split; [apply lookup_insert_eq|].
    split; [now destruct (RoomData.room_name room_data)|].
    split; [now destruct (RoomData.ai_system_prompt room_data)|].
    split; [now destruct (RoomData.ai_model room_data)|].
    do 7 (split; [reflexivity|]).
    intros other Hne. unfold get_room. simpl. now apply lookup_insert_ne.
Qed.

Lemma disconnect_fuel_keeps_unregistered (uid : string) (fuel : nat) (v : string) :
  preserves (unregistered uid) (fun _ => True) (disconnect_fuel fuel v).
Proof.
  apply preserves_disconnect_fuel.
  - intros cm u info H _. unfold unregistered, unregister. simpl.
    apply lookup_delete_None. now right.
  - intros. now repeat split.
  - intros. now repeat split.
Qed.

Lemma disconnect_unregisters (uid : string) (w w' : World) (t : list event) :
  disconnect uid w = Some (w', t) -> unregistered uid (manager w').
Proof.
  unfold disconnect. generalize (budget w). intros fuel Hrun.
  destruct (user_info (manager w) !! uid) as [info|] eqn:Ev.
  - destruct fuel as [|fuel]; simpl in Hrun; rewrite Ev in Hrun; [discriminate|].
    apply and_then_inv in Hrun as (w1 & t1 & t2 & Hmod & Hrun & ->).
    injection Hmod as <- <-.
    revert Hrun. eapply (preserves_and_then (unregistered uid) (fun _ => True)).
    + apply preserves_broadcast; [|now repeat split].
      intros u. apply disconnect_fuel_keeps_unregistered.
    + apply (preserves_read _ _ (fun w0 =>
               broadcast_to_room_with (disconnect_fuel fuel)
                 (ConnectionInfo.room_id info)
                 (USER_LIST_UPDATED
                    (get_active_users_info (manager w0)
                       (ConnectionInfo.room_id info))) None)).
      intros x. apply preserves_broadcast; [|now repeat split].
      intros u. apply disconnect_fuel_keeps_unregistered.
    + unfold unregistered. simpl. apply lookup_delete_eq.
  - destruct fuel; simpl in Hrun; rewrite Ev in Hrun; now injection Hrun as <- <-.
Qed.

Lemma disconnect_all_unregisters (l : list string) (w w' : World) (t : list event)
    (uid : string) :
  for_each l disconnect w = Some (w', t) -> uid ∈ l -> unregistered uid (manager w').
Proof.
  revert w t. induction l as [|x l IH]; intros w t Hrun Hin.
  { now apply not_elem_of_nil in Hin. }
  simpl in Hrun. apply and_then_inv in Hrun as (w1 & t1 & t2 & Hx & Hrest & ->).
  destruct (decide (uid ∈ l)) as [Hl|Hl]; [now apply (IH w1 t2)|].
  apply elem_of_cons in Hin as [->|Hin]; [|contradiction].
  refine (proj1 (preserves_for_each (unregistered x) (fun _ => True) l disconnect
                   _ _ _ _ (disconnect_unregisters _ _ _ _ Hx) Hrest)).
  intros v. apply preserves_disconnect. intros fuel u.
  apply disconnect_fuel_keeps_unregistered.
Qed.

(** Nothing registers a user during disconnects. *)
Lemma disconnect_fuel_keeps_within (cm0 : ConnectionManager) (fuel : nat) (v : string) :
  preserves (fun cm => user_info cm ⊆ user_info cm0) (fun _ => True)
            (disconnect_fuel fuel v).
Proof.
  apply preserves_disconnect_fuel.
  - intros cm u info H _. unfold unregister. simpl.
    etransitivity; [apply delete_subseteq | exact H].
  - intros. now repeat split.
  - intros. now repeat split.
Qed.

(** X20. Deleting a room through the endpoint.  Anyone but an admin is
    refused with 403, the default room is refused with 400 even to an
    admin, an unknown room with 404, and a refusal leaves the manager and
    the store untouched.  Otherwise, on a consistent manager, the call
    returns: every member of the room has been disconnected first, so that
    afterwards no registered user is connected to the deleted room and the
    manager is still consistent; nobody was registered on the way; and the
    store is the one [ChatManager.delete_room] leaves, without the room's
    record. *)
Theorem delete_room_endpoint (role room_id : string) (w : World) (r : Redis) :
  (role <> "admin" ->
   Endpoint.delete_room role room_id w r
   = Some {| Endpoint.answer := HTTPException 403 "Only admin can delete rooms";
             Endpoint.world := w; Endpoint.redis := r; Endpoint.events := [] |}) /\
  (room_id = Config.DEFAULT_ROOM_ID ->
   Endpoint.delete_room "admin" room_id w r
   = Some {| Endpoint.answer := HTTPException 400 "Cannot delete the default room";
             Endpoint.world := w; Endpoint.redis := r; Endpoint.events := [] |}) /\
  (room_id <> Config.DEFAULT_ROOM_ID -> get_room r room_id = None ->
   Endpoint.delete_room "admin" room_id w r
   = Some {| Endpoint.answer := HTTPException 404 "Room not found";
             Endpoint.world := w; Endpoint.redis := r; Endpoint.events := [] |}) /\
  (forall room,
      room_id <> Config.DEFAULT_ROOM_ID -> get_room r room_id = Some room ->
      consistent (manager w) ->
      exists w' t,
        Endpoint.delete_room "admin" room_id w r
        = Some {| Endpoint.answer :=
                    Returned ("Room '" +:+ ChatRoom.room_name room
                              +:+ "' deleted successfully");
                  Endpoint.world := w';
                  Endpoint.redis := snd (delete_room room_id r);
                  Endpoint.events := t |} /\
        (forall members uid,
            room_members (manager w) !! room_id = Some members -> uid ∈ members ->
            user_info (manager w') !! uid = None) /\
        (forall uid info,
            user_info (manager w') !! uid = Some info ->
            ConnectionInfo.room_id info <> room_id) /\
        user_info (manager w') ⊆ user_info (manager w) /\
        consistent (manager w') /\
        get_room (snd (delete_room room_id r)) room_id = None).
Proof.
  split; [|split; [|split]].
  - intros Hrole. unfold Endpoint.delete_room.
    apply String.eqb_neq in Hrole. now rewrite Hrole.
  - intros ->. reflexivity.
  - intros Hdef Hroom. unfold Endpoint.delete_room. simpl.
    apply String.eqb_neq in Hdef. now rewrite Hdef, Hroom.
  - intros room Hdef Hroom Hc. unfold Endpoint.delete_room. simpl.
    apply String.eqb_neq in Hdef. rewrite Hdef, Hroom.
    set (disconnect_all :=
           match room_members (manager w) !! room_id with
           | Some members => for_each (elements members) disconnect
           | None => skip
           end).
    assert (Hret : returns disconnect_all).
    { unfold disconnect_all. destruct (room_members (manager w) !! room_id).
      - apply returns_for_each. apply disconnect_returns.
      - intros w0. now exists w0, []. }
    assert (Hpres : forall I,
               (forall fuel v, preserves I (fun _ => True) (disconnect_fuel fuel v)) ->
               preserves I (fun _ => True) disconnect_all).
    { intros I HI. unfold disconnect_all.
      destruct (room_members (manager w) !! room_id).
      - apply preserves_for_each. intros v. now apply preserves_disconnect.
      - apply preserves_skip. }
    destruct (Hret w) as (w' & t & Hrun). rewrite Hrun. exists w', t.
    split; [reflexivity|].
    assert (Hgone : forall members uid,
               room_members (manager w) !! room_id = Some members -> uid ∈ members ->
               user_info (manager w') !! uid = None).
    { intros members uid Hms Hin. unfold disconnect_all in Hrun. rewrite Hms in Hrun.
      apply (disconnect_all_unregisters _ _ _ _ _ Hrun).
      now apply elem_of_elements. }
    assert (Hsub : user_info (manager w') ⊆ user_info (manager w)).
    { refine (proj1 (Hpres (fun cm => user_info cm ⊆ user_info (manager w))
                       _ _ _ _ _ Hrun)); [|reflexivity].
      intros fuel v. apply disconnect_fuel_keeps_within. }
    split; [exact Hgone|]. split; [|split; [exact Hsub|split]].
    + intros uid info Hinfo Heq.
      pose proof (lookup_weaken _ _ _ _ Hinfo Hsub) as Hbefore.
      destruct Hc as (_ & _ & Hseat & _).
      destruct (Hseat _ _ Hbefore) as (members & Hms & Hin).
      rewrite Heq in Hms. rewrite (Hgone _ _ Hms Hin) in Hinfo. discriminate.
    + refine (proj1 (Hpres consistent _ _ _ _ Hc Hrun)).
      intros fuel v. apply disconnect_fuel_keeps_consistent.
    + apply lookup_delete_eq.
Qed.

Lemma delete_room_endpoint_witness :
  get_room two_room_redis "room2" = Some (mk_room "room2" true ["u7"]) /\
  exists w' t,
    Endpoint.delete_room "admin" "room2" bob_in_room2 two_room_redis
    = Some {| Endpoint.answer := Returned "Room 'room2' deleted successfully";
              Endpoint.world := w';
              Endpoint.redis := snd (delete_room "room2" two_room_redis);
              Endpoint.events := t |} /\
    user_info (manager w') !! "u2" = None.
Proof.
  split; [reflexivity|].
  destruct (proj2 (proj2 (proj2
              (delete_room_endpoint "admin" "room2" bob_in_room2 two_room_redis)))
              (mk_room "room2" true ["u7"]))
    as (w' & t & Hrun & Hgone & _).
  - discriminate.
  - reflexivity.
  - apply consistent_register, consistent_empty.
  - exists w', t. split; [exact Hrun|].
    apply (Hgone {["u2"]}); [reflexivity | now apply elem_of_singleton].
Defined.

(** *** The AI service and the chat handler, once more *)

(** X21. What [generate_response] answers.  It never answers [None], although
    its signature allows for it: whatever the request to the model did,
    a text comes back, without whitespace at either end.  The text is empty
    in one case only, a response of status 200 whose content is blank;
    otherwise it is the stripped content of a response of status 200 or one
    of the three apologies. *)
Theorem generate_response_always_answers (res : post_result) :
  exists text,
    generate_response res = Some text /\
    stripped text /\ py_strip text = text /\
    (text = "" <->
     exists content, res = PostResponse 200 (Some content) /\ py_strip content = "") /\
    ((exists content, res = PostResponse 200 (Some content) /\ text = py_strip content)
     \/ In text apologies).
Proof.
  assert (Hap : forall text, In text apologies -> stripped text /\ text <> "").
  { intros text Hin. unfold apologies in Hin. simpl in Hin.
    destruct Hin as [<-|[<-|[<-|[]]]]; (split; [split; reflexivity | discriminate]). }
  assert (Hcase :
    (exists content, res = PostResponse 200 (Some content) /\
                     generate_response res = Some (py_strip content)) \/
    (exists text, generate_response res = Some text /\ In text apologies /\
                  forall content, res <> PostResponse 200 (Some content))).
  { destruct res as [| |code [content|]]; simpl.
    - right. eexists. split; [reflexivity|]. split; [simpl; tauto | discriminate].
    - right. eexists. split; [reflexivity|]. split; [simpl; tauto | discriminate].
    - destruct (Z.eqb_spec code 200) as [->|Hne].
      + left. now exists content.
      + right. eexists. split; [reflexivity|]. split; [simpl; tauto|].
        intros c [= ? ?]. contradiction.
    - right. destruct (code =? 200); eexists;
        (split; [reflexivity|]); (split; [simpl; tauto | discriminate]). }
  destruct Hcase as [(content & -> & Hgen)|(text & Hgen & Hin & Hnot)].
  - exists (py_strip content). split; [exact Hgen|].
    destruct (py_strip_cuts content) as (_ & _ & _ & _ & _ & Hst).
    split; [exact Hst|]. split; [now apply py_strip_stripped|]. split.
    + split; [intros H; now exists content|].
      intros (c & [= <-] & H). exact H.
    + left. now exists content.
  - exists text. split; [exact Hgen|]. destruct (Hap _ Hin) as [Hst Hne].
    split; [exact Hst|]. split; [now apply py_strip_stripped|]. split.
    + split; [contradiction|]. intros (c & Hc & _). now apply Hnot in Hc.
    + now right.
Qed.



(** X23. Every standalone occurrence of a configured trigger fires the
    detector: a trigger that stands in the text, in whatever letter case,
    at the start or after whitespace and before whitespace, one of the six
    punctuation marks or the end, makes [should_trigger_ai_response] answer
    true. *)
Theorem standalone_trigger_fires (content : string) :
  standalone_trigger content -> should_trigger_ai_response content = true.
Proof.
  intros (t & pre & post & Hin & Hocc & Hstart & Hend).
  unfold should_trigger_ai_response. apply existsb_exists. exists t.
  split; [exact Hin|]. apply trigger_matches_spec. exists pre, post.
  split; [exact Hocc|]. split; [exact Hend|].
  destruct (is_mention t) eqn:Em; [exact Hstart|].
  assert (Hprev : is_word_opt (last pre) = false).
  { destruct Hstart as [->|(pre' & c & -> & Hsp)]; [reflexivity|].
    rewrite last_snoc. simpl. revert Hsp.
    destruct c as [[] [] [] [] [] [] [] []]; vm_compute; congruence. }
  unfold word_boundary. rewrite Hprev.
  unfold AI_TRIGGERS in Hin. simpl in Hin.
  destruct Hin as [<-|[<-|[<-|[<-|[<-|[<-|[<-|[<-|[]]]]]]]]];
    try discriminate Em; reflexivity.
Qed.

Lemma standalone_trigger_fires_witness :
  standalone_trigger "Tell me, @Bot: why?" /\
  should_trigger_ai_response "Tell me, @Bot: why?" = true.
Proof.
  assert (H : standalone_trigger "Tell me, @Bot: why?")
    by (apply standalone_trigger_decide; vm_compute; reflexivity).
  split; [exact H|]. exact (standalone_trigger_fires "Tell me, @Bot: why?" H).
Defined.

